(** * MinerU Tianshu: a shallow embedding of the orchestration core

    The development follows the Python sources:
    - [backend/utils/pdf_utils.py]          (module [PdfUtils])
    - [backend/paddleocr_vl_vllm/engine.py] (module [Engine])
    - [backend/api_server.py]               (module [ApiServer])
    - [backend/start_all.py]                (module [StartAll])

    Python values are modelled as the interpreter has them: a [str] is a
    sequence of Unicode code points, an [int] is an unbounded integer, a
    raised exception is an explicit outcome.  Module [Py] holds the part of
    the Python standard library the sources call. *)

From Stdlib Require Import ZArith NArith Lia Ascii String DecimalString.
From Stdlib Require Import DecimalPos DecimalZ.
From stdpp Require Import base option list gmap strings.

Local Open Scope Z_scope.

(** ** Part I: the model *)

Module Py.

(** A Python [str]: the list of its code points. *)
Definition pystr := list N.

(** A literal of the source, written as a Rocq string of ASCII characters. *)
Definition lit (s : string) : pystr :=
  map N_of_ascii (list_ascii_of_string s).

Definition chr_eqb (a b : N) : bool := N.eqb a b.

Fixpoint str_eqb (a b : pystr) : bool :=
  match a, b with
  | [], [] => true
  | x :: a', y :: b' => chr_eqb x y && str_eqb a' b'
  | _, _ => false
  end.

(** [s.startswith(p)] *)
Fixpoint startswith (s p : pystr) {struct p} : bool :=
  match p, s with
  | [], _ => true
  | c :: p', d :: s' => chr_eqb c d && startswith s' p'
  | _ :: _, [] => false
  end.

(** [s.replace(a, b)] for one-character [a] and [b]. *)
Definition replace_chr (a b : N) (s : pystr) : pystr :=
  map (fun c => if chr_eqb c a then b else c) s.

(** [s.lstrip(c)] for a one-character argument. *)
Fixpoint lstrip_chr (c : N) (s : pystr) : pystr :=
  match s with
  | d :: s' => if chr_eqb d c then lstrip_chr c s' else s
  | [] => []
  end.

(** [sep.join(l)] *)
Fixpoint join (sep : pystr) (l : list pystr) : pystr :=
  match l with
  | [] => []
  | [x] => x
  | x :: rest => x ++ sep ++ join sep rest
  end.

(** [s.split(c)] for a one-character separator: never empty. *)
Fixpoint split_chr (c : N) (s : pystr) : list pystr :=
  match s with
  | [] => [[]]
  | d :: s' =>
      if chr_eqb d c then [] :: split_chr c s'
      else match split_chr c s' with
           | w :: ws => (d :: w) :: ws
           | [] => [[d]]
           end
  end.

(** [sub in s] *)
Fixpoint contains (s sub : pystr) : bool :=
  startswith s sub ||
  match s with
  | [] => false
  | _ :: s' => contains s' sub
  end.

(** [str(n)] and [f"{n}"] for an [int]. *)
Definition str_of_int (n : Z) : pystr :=
  lit (NilZero.string_of_int (Z.to_int n)).

(** [int(s)] on an optional sign followed by ASCII digits; [None] is
    [ValueError]. *)
Fixpoint digits_value (acc : Z) (s : pystr) : option Z :=
  match s with
  | [] => Some acc
  | c :: s' =>
      if (48 <=? c)%N && (c <=? 57)%N
      then digits_value (10 * acc + Z.of_N (c - 48)) s'
      else None
  end.

Definition int_ascii (s : pystr) : option Z :=
  match s with
  | [] => None
  | c :: s' =>
      if chr_eqb c 45 then
        match s' with [] => None | _ => Z.opp <$> digits_value 0 s' end
      else if chr_eqb c 43 then
        match s' with [] => None | _ => digits_value 0 s' end
      else digits_value 0 s
  end.

(** [range(start, stop, step)]: CPython computes the length first and the
    k-th item as [start + k * step]; a zero step raises [ValueError]. *)
Definition range_len (start stop step : Z) : Z :=
  if 0 <? step then
    if start <? stop then (stop - start - 1) / step + 1 else 0
  else if step <? 0 then
    if stop <? start then (start - stop - 1) / (- step) + 1 else 0
  else 0.

Definition range (start stop step : Z) : option (list Z) :=
  if step =? 0 then None
  else Some ((fun k : nat => start + Z.of_nat k * step)
               <$> seq 0 (Z.to_nat (range_len start stop step))).

(** *** pathlib.PurePosixPath

    A path is its root (empty, one slash or two slashes) and its
    components.  Parsing drops empty and single-dot components and keeps
    double-dot ones
    ([posixpath.splitroot], then the split on the separator). *)
Record Path := { root : pystr; parts : list pystr }.

Definition slash : N := 47.
Definition dot : N := 46.

Definition parse_root (s : pystr) : pystr :=
  match s with
  | a :: rest =>
      if chr_eqb a slash then
        match rest with
        | b :: rest' =>
            if chr_eqb b slash then
              match rest' with
              | c :: _ => if chr_eqb c slash then [slash] else [slash; slash]
              | [] => [slash; slash]
              end
            else [slash]
        | [] => [slash]
        end
      else []
  | [] => []
  end.

Definition keep_part (x : pystr) : bool :=
  negb (str_eqb x []) && negb (str_eqb x [dot]).

Definition parse_parts (s : pystr) : list pystr :=
  List.filter keep_part (split_chr slash s).

(** [Path(s)] *)
Definition path_of (s : pystr) : Path :=
  {| root := parse_root s; parts := parse_parts s |}.

(** [str(p)] *)
Definition path_str (p : Path) : pystr :=
  match root p, parts p with
  | [], [] => [dot]
  | r, ps => r ++ join [slash] ps
  end.

(** [p / key] for a [str] key: an absolute key replaces [p]. *)
Definition path_join (p : Path) (key : pystr) : Path :=
  match parse_root key with
  | [] => {| root := root p; parts := parts p ++ parse_parts key |}
  | _ => path_of key
  end.

(** [p.name] *)
Definition path_name (p : Path) : pystr := List.last (parts p) [].

(** [p.parent] *)
Definition path_parent (p : Path) : Path :=
  {| root := root p; parts := List.removelast (parts p) |}.

(** [s.rfind(c)] for a one-character [c]; [None] stands for [-1]. *)
Fixpoint rfind_chr (c : N) (s : pystr) : option nat :=
  match s with
  | [] => None
  | d :: s' =>
      match rfind_chr c s' with
      | Some i => Some (S i)
      | None => if chr_eqb d c then Some O else None
      end
  end.

(** The index at which [p.suffix] starts: [0 < i < len(name) - 1]. *)
Definition suffix_index (name : pystr) : option nat :=
  match rfind_chr dot name with
  | Some i =>
      if (0 <? i)%nat && (i <? length name - 1)%nat then Some i else None
  | None => None
  end.

(** [p.suffix] *)
Definition path_suffix (p : Path) : pystr :=
  match suffix_index (path_name p) with
  | Some i => drop i (path_name p)
  | None => []
  end.

(** [p.stem] *)
Definition path_stem (p : Path) : pystr :=
  match suffix_index (path_name p) with
  | Some i => take i (path_name p)
  | None => path_name p
  end.

Definition path_eqb (p q : Path) : bool :=
  str_eqb (root p) (root q) &&
  (length (parts p) =? length (parts q))%nat &&
  forallb (fun xy => str_eqb (fst xy) (snd xy)) (combine (parts p) (parts q)).

(** *** Codecs: UTF-8, [urllib.parse.quote] and [unquote] *)

(** [chr(c).encode("utf-8")] under [errors="strict"]: a surrogate cannot be
    encoded ([UnicodeEncodeError], here [None]). *)
Definition utf8_encode_chr (c : N) : option (list N) :=
  (if c <? 128 then Some [c]
   else if c <? 2048 then Some [192 + c / 64; 128 + c mod 64]
   else if c <? 65536 then
     if (55296 <=? c) && (c <=? 57343) then None
     else Some [224 + c / 4096; 128 + (c / 64) mod 64; 128 + c mod 64]
   else if c <? 1114112 then
     Some [240 + c / 262144; 128 + (c / 4096) mod 64;
           128 + (c / 64) mod 64; 128 + c mod 64]
   else None)%N.

(** [s.encode("utf-8")] *)
Fixpoint utf8_encode (s : pystr) : option (list N) :=
  match s with
  | [] => Some []
  | c :: s' =>
      match utf8_encode_chr c, utf8_encode s' with
      | Some b, Some bs => Some (b ++ bs)
      | _, _ => None
      end
  end.

Definition replacement_chr : N := 65533.

Definition is_cont (b : N) : bool := ((128 <=? b) && (b <=? 191))%N.

(** The range of the second byte after the lead byte [b] of a sequence of
    three or four bytes. *)
Definition second_ok (b c : N) : bool :=
  (if b =? 224 then (160 <=? c) && (c <=? 191)
   else if b =? 237 then (128 <=? c) && (c <=? 159)
   else if b =? 240 then (144 <=? c) && (c <=? 191)
   else if b =? 244 then (128 <=? c) && (c <=? 143)
   else is_cont c)%N.

(** [bs.decode("utf-8", "replace")]: every maximal ill-formed prefix
    becomes one U+FFFD. *)
Fixpoint utf8_decode_replace (bs : list N) : pystr :=
  match bs with
  | [] => []
  | b :: rest =>
      (if b <? 128 then b :: utf8_decode_replace rest
       else if (194 <=? b) && (b <=? 223) then
         match rest with
         | c1 :: rest1 =>
             if is_cont c1
             then ((b - 192) * 64 + (c1 - 128)) :: utf8_decode_replace rest1
             else replacement_chr :: utf8_decode_replace rest
         | [] => [replacement_chr]
         end
       else if (224 <=? b) && (b <=? 239) then
         match rest with
         | c1 :: rest1 =>
             if second_ok b c1 then
               match rest1 with
               | c2 :: rest2 =>
                   if is_cont c2
                   then ((b - 224) * 4096 + (c1 - 128) * 64 + (c2 - 128))
                          :: utf8_decode_replace rest2
                   else replacement_chr :: utf8_decode_replace rest1
               | [] => [replacement_chr]
               end
             else replacement_chr :: utf8_decode_replace rest
         | [] => [replacement_chr]
         end
       else if (240 <=? b) && (b <=? 244) then
         match rest with
         | c1 :: rest1 =>
             if second_ok b c1 then
               match rest1 with
               | c2 :: rest2 =>
                   if is_cont c2 then
                     match rest2 with
                     | c3 :: rest3 =>
                         if is_cont c3
                         then ((b - 240) * 262144 + (c1 - 128) * 4096
                               + (c2 - 128) * 64 + (c3 - 128))
                                :: utf8_decode_replace rest3
                         else replacement_chr :: utf8_decode_replace rest2
                     | [] => [replacement_chr]
                     end
                   else replacement_chr :: utf8_decode_replace rest1
               | [] => [replacement_chr]
               end
             else replacement_chr :: utf8_decode_replace rest
         | [] => [replacement_chr]
         end
       else replacement_chr :: utf8_decode_replace rest)%N
  end.

(** [urllib.parse]'s [_ALWAYS_SAFE]: letters, digits and [_.-~]. *)
Definition always_safe (b : N) : bool :=
  ((65 <=? b) && (b <=? 90) || (97 <=? b) && (b <=? 122)
   || (48 <=? b) && (b <=? 57)
   || (b =? 95) || (b =? 46) || (b =? 45) || (b =? 126))%N.

(** An upper-case hexadecimal digit. *)
Definition hex_upper (n : N) : N := (if n <? 10 then 48 + n else 55 + n)%N.

Definition percent : N := 37.

(** One byte under [quote]: kept when safe, else [%XX]. *)
Definition quote_byte (safe : pystr) (b : N) : pystr :=
  if always_safe b || existsb (chr_eqb b) safe then [b]
  else [percent; hex_upper (b / 16); hex_upper (b mod 16)]%N.

(** [quote(s, safe=safe)]; [None] is the [UnicodeEncodeError] of the
    encoding. *)
Definition quote (s safe : pystr) : option pystr :=
  match utf8_encode s with
  | Some bs => Some (concat (quote_byte safe <$> bs))
  | None => None
  end.

(** The value of a hexadecimal digit of either case. *)
Definition hex_value (c : N) : option N :=
  (if (48 <=? c) && (c <=? 57) then Some (c - 48)
   else if (65 <=? c) && (c <=? 70) then Some (c - 55)
   else if (97 <=? c) && (c <=? 102) then Some (c - 87)
   else None)%N.

(** One item of [string.split("%")[1:]] in [unquote_to_bytes]: two
    hexadecimal digits give a byte, anything else keeps its percent sign. *)
Definition unquote_item (item : pystr) : list N :=
  match item with
  | h :: l :: rest =>
      match hex_value h, hex_value l with
      | Some a, Some b => (a * 16 + b)%N :: rest
      | _, _ => percent :: item
      end
  | _ => percent :: item
  end.

(** [unquote_to_bytes(s)] for an ASCII [s]. *)
Definition unquote_to_bytes (s : pystr) : list N :=
  match split_chr percent s with
  | first :: items => first ++ concat (unquote_item <$> items)
  | [] => s
  end.

(** The split of [_asciire]: maximal runs of ASCII characters ([true]) and
    of other characters ([false]). *)
Fixpoint ascii_runs (s : pystr) : list (bool * pystr) :=
  match s with
  | [] => []
  | c :: s' =>
      let a := (c <? 128)%N in
      match ascii_runs s' with
      | (a', run) :: runs =>
          if Bool.eqb a a' then (a, c :: run) :: runs
          else (a, [c]) :: (a', run) :: runs
      | [] => [(a, [c])]
      end
  end.

(** [unquote(s)] with the default [encoding="utf-8", errors="replace"]. *)
Definition unquote (s : pystr) : pystr :=
  if existsb (chr_eqb percent) s then
    concat ((fun r : bool * pystr =>
               if fst r then utf8_decode_replace (unquote_to_bytes (snd r))
               else snd r) <$> ascii_runs s)
  else s.

(** *** Regular expressions: the part of [re] the sources use

    A pattern is a sequence of literals, greedy repetitions of a character
    class, optional parts and capturing groups.  [run] lists the ways a
    pattern matches at the start of a string in the order the backtracking
    matcher tries them, so the match [re] reports is the first one. *)
Inductive regex : Type :=
| Lit (s : pystr)
| Star (cls : N -> bool)
| Plus (cls : N -> bool)
| Seq (a b : regex)
| Opt (a : regex)
| Group (n : nat) (a : regex).

(** [\s] of a [str] pattern: the characters for which [str.isspace] holds. *)
Definition is_space (c : N) : bool :=
  ((9 <=? c) && (c <=? 13) || (28 <=? c) && (c <=? 32)
   || (c =? 133) || (c =? 160) || (c =? 5760)
   || (8192 <=? c) && (c <=? 8202)
   || (c =? 8232) || (c =? 8233) || (c =? 8239) || (c =? 8287)
   || (c =? 12288))%N.

(** [[^c]] *)
Definition not_chr (c : N) : N -> bool := fun d => negb (chr_eqb d c).

(** The remainders after [cls*], longest repetition first. *)
Fixpoint star_rests (cls : N -> bool) (s : pystr) : list pystr :=
  match s with
  | c :: s' => if cls c then star_rests cls s' ++ [s] else [s]
  | [] => [[]]
  end.

Fixpoint run (r : regex) (caps : gmap nat pystr) (s : pystr)
  : list (gmap nat pystr * pystr) :=
  match r with
  | Lit l => if startswith s l then [(caps, drop (length l) s)] else []
  | Star cls => pair caps <$> star_rests cls s
  | Plus cls =>
      match s with
      | c :: s' => if cls c then pair caps <$> star_rests cls s' else []
      | [] => []
      end
  | Seq a b =>
      concat ((fun m : gmap nat pystr * pystr => run b (fst m) (snd m))
                <$> run a caps s)
  | Opt a => run a caps s ++ [(caps, s)]
  | Group n a =>
      (fun m : gmap nat pystr * pystr =>
         (<[n := take (length s - length (snd m)) s]> (fst m), snd m))
        <$> run a caps s
  end.

(** A match object: [group(0)] and the groups that took part. *)
Record Match := {
  group0 : pystr;
  groups : gmap nat pystr
}.

(** [m.group(n)] for [n >= 1]: [None] when the group took no part. *)
Definition group (m : Match) (n : nat) : option pystr := groups m !! n.

(** [pattern.match(s)] together with what follows the match. *)
Definition match_at (r : regex) (s : pystr) : option (Match * pystr) :=
  match run r ∅ s with
  | (caps, rest) :: _ =>
      Some ({| group0 := take (length s - length rest) s; groups := caps |},
            rest)
  | [] => None
  end.

(** [re.search(r, s)] *)
Fixpoint re_search (r : regex) (s : pystr) : option Match :=
  match match_at r s with
  | Some (m, _) => Some m
  | None =>
      match s with
      | [] => None
      | _ :: s' => re_search r s'
      end
  end.

Fixpoint seq_of (rs : list regex) : regex :=
  match rs with
  | [] => Lit []
  | [r] => r
  | r :: rs' => Seq r (seq_of rs')
  end.

(** *** Exceptions and state

    A raised exception is named by its class; an [HTTPException] carries
    its status code and detail. *)
Inductive exn : Type :=
| Exception (cls : string)
| HTTPException (status_code : Z) (detail : pystr).

(** [str(e)] *)
Definition str_of_exn (e : exn) : pystr :=
  match e with
  | Exception cls => lit cls
  | HTTPException _ detail => detail
  end.

(** Outcome of a call that may raise. *)
Inductive outcome (A : Type) : Type :=
| Ok (a : A)
| Raise (e : exn).
Arguments Ok {A} a.
Arguments Raise {A} e.

(** Code that reads and writes a state [S] and may raise: the state at the
    point of the [raise] is kept, as in Python. *)
Definition M (S A : Type) : Type := S -> outcome A * S.

Definition ret {S A} (a : A) : M S A := fun s => (Ok a, s).

Definition bind {S A B} (c : M S A) (k : A -> M S B) : M S B :=
  fun s =>
    match c s with
    | (Ok a, s') => k a s'
    | (Raise e, s') => (Raise e, s')
    end.

Definition raise {S A} (e : exn) : M S A := fun s => (Raise e, s).

(** [try: c  except Exception as e: h e] *)
Definition try_except {S A} (c : M S A) (h : exn -> M S A) : M S A :=
  fun s =>
    match c s with
    | (Ok a, s') => (Ok a, s')
    | (Raise e, s') => h e s'
    end.

Definition get {S} : M S S := fun s => (Ok s, s).
Definition put {S} (s : S) : M S unit := fun _ => (Ok tt, s).
Definition modify {S} (f : S -> S) : M S unit := fun s => (Ok tt, f s).

(** A call that may raise but has no effect on the state. *)
Definition lift {S A} (o : outcome A) : M S A := fun s => (o, s).

Declare Scope py_scope.
Delimit Scope py_scope with py.
Notation "x <- c ;; k" := (bind c (fun x => k))
  (at level 100, c at next level, right associativity) : py_scope.
Notation "c ;;; k" := (bind c (fun _ => k))
  (at level 100, right associativity) : py_scope.

(** [re.sub(r, repl, s)] for a callable [repl] that may raise or change
    the state: the matches are found left to right without overlap, each is
    replaced by what [repl] returns, and the text between them is copied.
    [skip] counts the characters of the last match still to be passed. *)
Fixpoint re_sub_from {S} (r : regex) (repl : Match -> M S pystr)
    (skip : nat) (s : pystr) : M S pystr :=
  match skip with
  | S k =>
      match s with
      | [] => ret []
      | _ :: s' => re_sub_from r repl k s'
      end
  | O =>
      match match_at r s with
      | Some (m, _) =>
          bind (repl m) (fun out =>
          match s with
          | [] => ret out
          | c :: s' =>
              match length (group0 m) with
              | O => bind (re_sub_from r repl O s')
                          (fun tail => ret (out ++ c :: tail))
              | S k => bind (re_sub_from r repl k s')
                            (fun tail => ret (out ++ tail))
              end
          end)
      | None =>
          match s with
          | [] => ret []
          | c :: s' =>
              bind (re_sub_from r repl O s') (fun tail => ret (c :: tail))
          end
      end
  end.

Definition re_sub {S} (r : regex) (repl : Match -> M S pystr) (s : pystr)
  : M S pystr :=
  re_sub_from r repl O s.


(** [for x in l: body x] *)
Fixpoint for_each {S A} (l : list A) (body : A -> M S unit) : M S unit :=
  match l with
  | [] => ret tt
  | x :: l' => bind (body x) (fun _ => for_each l' body)
  end.

End Py.

Import Py.

(** *** backend/utils/pdf_utils.py *)

Module PdfUtils.

Section WithPages.

(** The pages of a document are opaque to the splitter. *)
Variable Page : Type.

(** One element of the list returned by [split_pdf_file]. *)
Record chunk := {
  path : pystr;
  start_page : Z;
  end_page : Z;
  page_count : Z
}.

(** A sub-document written by [new_doc.save]. *)
Record saved := {
  saved_path : Path;
  saved_pages : list Page
}.

(** [new_doc.insert_pdf(doc, from_page, to_page)] on an empty [new_doc]:
    both bounds are 0-based and inclusive. *)
Definition insert_pdf (doc : list Page) (from_page to_page : Z) : list Page :=
  take (Z.to_nat (to_page - from_page + 1)) (drop (Z.to_nat from_page) doc).

(** Body of the loop, for the loop variable [i]. *)
Definition split_step (pdf_path output_dir : Path) (doc : list Page)
    (chunk_size i : Z) : chunk * saved :=
  let total_pages := Z.of_nat (length doc) in
  let start_page := i in
  let end_page := Z.min (i + chunk_size) total_pages in
  let new_doc := insert_pdf doc start_page (end_page - 1) in
  let chunk_filename :=
    path_stem pdf_path ++ lit "_pages_" ++ str_of_int (start_page + 1)
      ++ lit "-" ++ str_of_int end_page ++ lit ".pdf" in
  let chunk_path := path_join output_dir chunk_filename in
  ({| path := path_str chunk_path;
      start_page := start_page + 1;
      end_page := end_page;
      page_count := end_page - start_page |},
   {| saved_path := chunk_path; saved_pages := new_doc |}).

(** [split_pdf_file(pdf_path, output_dir, chunk_size)], where [doc] is the
    list of pages of [fitz.open(str(pdf_path))].  The result is the list
    [chunks] together with the sub-documents saved on the way; [None] is
    the [ValueError] of [range], re-raised by the handler. *)
Definition split_pdf_file (pdf_path output_dir : Path) (doc : list Page)
    (chunk_size : Z) : option (list chunk * list saved) :=
  match range 0 (Z.of_nat (length doc)) chunk_size with
  | None => None
  | Some is_ =>
      let steps := split_step pdf_path output_dir doc chunk_size <$> is_ in
      Some (fst <$> steps, snd <$> steps)
  end.

End WithPages.

Section WithRendering.

(** A page of the source document, and a [float]; [dpi_zoom d] is
    [d / 72.0]. *)
Variables (Page Float : Type) (dpi_zoom : Z -> Float).

(** A picture written by [pix.save]: its path, and the page and the zoom
    of the matrix it was rendered with. *)
Record image := {
  image_path : Path;
  image_page : Page;
  image_zoom : Float
}.

(** [convert_pdf_to_images(pdf_path, output_dir, zoom, dpi)], where [doc]
    is the list of pages of [fitz.open(str(pdf_path))]: the pictures
    written, in the order of the returned paths. *)
Definition convert_pdf_to_images (pdf_path output_dir : Path)
    (doc : list Page) (zoom : Float) (dpi : option Z) : list image :=
  imap (fun (page_num : nat) (page : Page) =>
          let zoom :=
            match dpi with
            | Some d => if d =? 0 then zoom else dpi_zoom d
            | None => zoom
            end in
          {| image_path :=
               path_join output_dir
                 (path_stem pdf_path ++ lit "_page"
                    ++ str_of_int (Z.of_nat page_num + 1) ++ lit ".png");
             image_page := page;
             image_zoom := zoom |})
       doc.

End WithRendering.

End PdfUtils.

(** *** backend/paddleocr_vl_vllm/engine.py *)

Module Engine.

(** Values of keyword arguments. *)
Inductive PyVal : Type :=
| VNone
| VBool (b : bool)
| VInt (n : Z)
| VFloat (num : Z) (den : positive)
| VStr (s : pystr)
| VList (l : list pystr).

(** Truth value of an object in a condition. *)
Definition truthy (v : PyVal) : bool :=
  match v with
  | VNone => false
  | VBool b => b
  | VInt n => negb (n =? 0)
  | VFloat num _ => negb (num =? 0)
  | VStr s => negb (str_eqb s [])
  | VList l => match l with [] => false | _ => true end
  end.

(** [res.markdown] as the fallback join reads it: a [str], a mapping (with
    [str()] of its ["text"] entry when there is one), or an object without
    [get]. *)
Inductive Markdown : Type :=
| MdStr (s : pystr)
| MdDict (text : option pystr)
| MdOther.

Section WithCollaborators.

(** [res.json] of a page is opaque. *)
Variable Json : Type.

(** The builtin [int] on a [str]: [None] is [ValueError]. *)
Variable int_ : pystr -> option Z.

(** One element of the list returned by [pipeline.predict]; an absent
    attribute ([hasattr] is false) is [None], and a [save_to_*] method is
    given by the outcome of its call. *)
Record PageResult := {
  save_to_json : option (outcome unit);
  save_to_markdown : option (outcome unit);
  markdown : option Markdown;
  json : option Json
}.

(** The [PaddleOCRVL] pipeline object, an external collaborator. *)
Record Pipeline := {
  predict : gmap string PyVal -> outcome (list PageResult);
  restructure_pages :
    option (list PageResult -> PyVal -> PyVal -> outcome (list PageResult));
  concatenate_markdown_pages : option (list Markdown -> outcome pystr)
}.

(** [PaddleOCRVL(vl_rec_backend="vllm-server", vl_rec_server_url=url,
    use_layout_detection=True)], after [import paddle] and
    [paddle.set_device]. *)
Variable PaddleOCRVL : pystr -> outcome Pipeline.

(** Instance attributes of the engine; an attribute that has not been
    assigned yet is [None].  [vllm_api_base] may hold Python's [None].
    [_initialized] and [_pipeline] fall back to the class attributes
    [False] and [None]. *)
Record Instance := {
  device : option pystr;
  vllm_api_base : option (option pystr);
  gpu_id : option Z;
  _initialized : bool;
  _pipeline : option Pipeline
}.

Definition fresh : Instance :=
  {| device := None; vllm_api_base := None; gpu_id := None;
     _initialized := false; _pipeline := None |}.

(** What [parse] writes itself. *)
Inductive FileContent : Type :=
| Text (s : pystr)
| JsonDump (pages : list Json) (total_pages : Z).

(** The process: objects by reference, the class attribute [_instance], the
    module global [_engine], and the files written so far (latest first). *)
Record World := {
  heap : gmap nat Instance;
  next_ref : nat;
  _instance : option nat;
  _engine : option nat;
  written : list (Path * FileContent)
}.

Definition initial : World :=
  {| heap := ∅; next_ref := 0; _instance := None; _engine := None;
     written := [] |}.

Definition set_heap (h : gmap nat Instance) (w : World) : World :=
  {| heap := h; next_ref := next_ref w; _instance := _instance w;
     _engine := _engine w; written := written w |}.

Definition update (self : nat) (f : Instance -> Instance) : M World unit :=
  modify (fun w => set_heap (alter f self (heap w)) w).

Definition attr {A} (self : nat) (f : Instance -> A) : M World A :=
  fun w =>
    match heap w !! self with
    | Some o => (Ok (f o), w)
    | None => (Raise (Exception "ReferenceError"), w)
    end.

(** [__new__]: allocates only while [cls._instance] is [None]. *)
Definition new_ : M World nat :=
  fun w =>
    match _instance w with
    | Some r => (Ok r, w)
    | None =>
        let r := next_ref w in
        (Ok r,
         {| heap := <[r := fresh]> (heap w);
            next_ref := S r;
            _instance := Some r;
            _engine := _engine w;
            written := written w |})
    end.

(** [_check_gpu_availability]: logs only, and catches what it raises. *)
Definition _check_gpu_availability (self : nat) : M World unit := ret tt.

Definition colon : N := 58.

(** [__init__(self, device, vllm_api_base)] *)
Definition init_ (self : nat) (device_ : pystr) (vllm_api_base_ : option pystr)
  : M World unit :=
  (done <- attr self _initialized ;;
   if done then ret tt
   else
     update self (fun o =>
       {| device := Some device_; vllm_api_base := vllm_api_base o;
          gpu_id := gpu_id o; _initialized := _initialized o;
          _pipeline := _pipeline o |}) ;;;
     update self (fun o =>
       {| device := device o; vllm_api_base := Some vllm_api_base_;
          gpu_id := gpu_id o; _initialized := _initialized o;
          _pipeline := _pipeline o |}) ;;;
     g <- (if contains device_ (lit "cuda:") then
             match int_ (List.last (split_chr colon device_) []) with
             | Some n => ret n
             | None => raise (Exception "ValueError")
             end
           else ret 0) ;;
     update self (fun o =>
       {| device := device o; vllm_api_base := vllm_api_base o;
          gpu_id := Some g; _initialized := _initialized o;
          _pipeline := _pipeline o |}) ;;;
     _check_gpu_availability self ;;;
     update self (fun o =>
       {| device := device o; vllm_api_base := vllm_api_base o;
          gpu_id := gpu_id o; _initialized := true;
          _pipeline := _pipeline o |}))%py.

(** [PaddleOCRVLVLLMEngine(device, vllm_api_base)]: [__new__], then
    [__init__] on the object it returned. *)
Definition PaddleOCRVLVLLMEngine (device_ : pystr)
    (vllm_api_base_ : option pystr) : M World nat :=
  (self <- new_ ;;
   init_ self device_ vllm_api_base_ ;;;
   ret self)%py.

Definition default_device : pystr := lit "cuda:0".
Definition default_vllm_api_base : option pystr :=
  Some (lit "http://localhost:17300/v1").

(** [get_engine()] *)
Definition get_engine : M World nat :=
  fun w =>
    match _engine w with
    | Some r => (Ok r, w)
    | None =>
        match PaddleOCRVLVLLMEngine default_device default_vllm_api_base w with
        | (Ok r, w') =>
            (Ok r,
             {| heap := heap w'; next_ref := next_ref w';
                _instance := _instance w'; _engine := Some r;
                written := written w' |})
        | (Raise e, w') => (Raise e, w')
        end
    end.

(** [_load_pipeline] *)
Definition _load_pipeline (self : nat) : M World Pipeline :=
  (cached <- attr self _pipeline ;;
   match cached with
   | Some p => ret p
   | None =>
       base <- attr self vllm_api_base ;;
       match base with
       | None => raise (Exception "AttributeError")
       | Some None => raise (Exception "ValueError")
       | Some (Some url) =>
           p <- lift (PaddleOCRVL url) ;;
           update self (fun o =>
             {| device := device o; vllm_api_base := vllm_api_base o;
                gpu_id := gpu_id o; _initialized := _initialized o;
                _pipeline := Some p |}) ;;;
           ret p
       end
   end)%py.

(** [cleanup]: frees device caches; it catches what it raises. *)
Definition cleanup (self : nat) : M World unit := ret tt.

(** [kwargs.get(key, default)] *)
Definition kwargs_get (kwargs : gmap string PyVal) (key : string)
    (default_ : PyVal) : PyVal :=
  default default_ (kwargs !! key).

Definition default_ignore_labels : PyVal :=
  VList [lit "number"; lit "footnote"; lit "header"; lit "header_image";
         lit "footer"; lit "footer_image"; lit "aside_text"].

Definition predict_params (file_path : Path) (kwargs : gmap string PyVal)
  : gmap string PyVal :=
  let opt key d := (key, kwargs_get kwargs key d) in
  list_to_map
    [("input"%string, VStr (path_str file_path));
     opt "use_doc_orientation_classify"%string (VBool false);
     opt "use_doc_unwarping"%string (VBool false);
     opt "min_pixels"%string (VInt 147384);
     opt "max_pixels"%string (VInt 2822400);
     opt "use_layout_detection"%string (VBool true);
     opt "use_chart_recognition"%string (VBool false);
     opt "use_seal_recognition"%string (VBool false);
     opt "use_ocr_for_image_block"%string (VBool false);
     opt "layout_shape_mode"%string (VStr (lit "auto"));
     opt "layout_nms"%string (VBool true);
     opt "prompt_label"%string VNone;
     opt "repetition_penalty"%string (VFloat 1 1);
     opt "temperature"%string (VFloat 0 1);
     opt "top_p"%string (VFloat 1 1);
     opt "markdown_ignore_labels"%string default_ignore_labels].

(** Step 3 of [parse]: the optional restructuring, whose failure falls back
    to the raw result. *)
Definition restructure (pipeline : Pipeline) (kwargs : gmap string PyVal)
    (result : list PageResult) : list PageResult :=
  if truthy (kwargs_get kwargs "restructure_pages" (VBool true)) then
    match restructure_pages pipeline with
    | Some f =>
        match f result (kwargs_get kwargs "merge_tables" (VBool true))
                (kwargs_get kwargs "relevel_titles" (VBool true)) with
        | Ok r => r
        | Raise _ => result
        end
    | None => result
    end
  else result.

(** Whether the two saves of a page return: a method that is absent is not
    called. *)
Definition page_saved (res : PageResult) : bool :=
  let returns (m : option (outcome unit)) :=
    match m with Some (Raise _) => false | _ => true end in
  returns (save_to_json res) && returns (save_to_markdown res).

(** Body of [for idx, res in enumerate(result, 1)], on the two lists being
    collected: an exception of one of the saves skips the page. *)
Definition collect_page (acc : list Markdown * list Json) (res : PageResult)
  : list Markdown * list Json :=
  if page_saved res then
    (match markdown res with
     | Some md => fst acc ++ [md]
     | None => fst acc
     end,
     match json res with
     | Some j => snd acc ++ [j]
     | None => snd acc
     end)
  else acc.

Definition collect (result : list PageResult) : list Markdown * list Json :=
  foldl collect_page ([], []) result.

(** The element of the fallback join: [md] itself when it is a [str],
    else [str()] of its ["text"] entry, the empty string by default. *)
Definition md_text (md : Markdown) : outcome pystr :=
  match md with
  | MdStr s => Ok s
  | MdDict (Some t) => Ok t
  | MdDict None => Ok []
  | MdOther => Raise (Exception "AttributeError")
  end.

(** A list comprehension whose element may raise. *)
Fixpoint comprehension {A B} (f : A -> outcome B) (l : list A)
  : outcome (list B) :=
  match l with
  | [] => Ok []
  | x :: l' =>
      match f x with
      | Raise e => Raise e
      | Ok y =>
          match comprehension f l' with
          | Raise e => Raise e
          | Ok ys => Ok (y :: ys)
          end
      end
  end.

Definition separator : pystr := [10; 10; 45; 45; 45; 10; 10]%N.

(** The merge of the collected pages. *)
Definition merge_markdown (pipeline : Pipeline) (markdown_list : list Markdown)
  : outcome pystr :=
  match concatenate_markdown_pages pipeline with
  | Some concat => concat markdown_list
  | None =>
      match comprehension md_text markdown_list with
      | Ok texts => Ok (join separator texts)
      | Raise e => Raise e
      end
  end.

Definition write (p : Path) (c : FileContent) : M World unit :=
  modify (fun w =>
    {| heap := heap w; next_ref := next_ref w; _instance := _instance w;
       _engine := _engine w; written := (p, c) :: written w |}).

(** The dictionary returned by [parse]. *)
Record ParseResult := {
  success : bool;
  output_path : pystr;
  markdown_text : pystr;
  markdown_file : pystr;
  json_file : option pystr;
  result : list PageResult
}.

(** [try: c  finally: f] *)
Definition try_finally {A} (c : M World A) (f : M World unit) : M World A :=
  fun w =>
    match c w with
    | (r, w') =>
        match f w' with
        | (Ok _, w'') => (r, w'')
        | (Raise e, w'') => (Raise e, w'')
        end
    end.

(** [parse(self, file_path, output_path, **kwargs)] *)
Definition parse (self : nat) (file_path_ output_path_ : pystr)
    (kwargs : gmap string PyVal) : M World ParseResult :=
  let file_path := path_of file_path_ in
  let output_path := path_of output_path_ in
  (pipeline <- _load_pipeline self ;;
   try_finally
     (result0 <- lift (predict pipeline (predict_params file_path kwargs)) ;;
      let result := restructure pipeline kwargs result0 in
      let '(markdown_list, json_list) := collect result in
      text <- lift (merge_markdown pipeline markdown_list) ;;
      let markdown_file := path_join output_path (lit "result.md") in
      write markdown_file (Text text) ;;;
      json_file <-
        (match json_list with
         | [] => ret None
         | _ =>
             let json_file := path_join output_path (lit "result.json") in
             write json_file
               (JsonDump json_list (Z.of_nat (length result))) ;;;
             ret (Some json_file)
         end) ;;
      ret {| success := true;
             output_path := path_str output_path;
             markdown_text := text;
             markdown_file := path_str markdown_file;
             json_file := path_str <$> json_file;
             result := result |})
     (cleanup self))%py.

(** A call made by the rest of the process. *)
Inductive call : Type :=
| Construct (device_ : pystr) (vllm_api_base_ : option pystr)
| GetEngine.

Definition run_call (c : call) : M World nat :=
  match c with
  | Construct d b => PaddleOCRVLVLLMEngine d b
  | GetEngine => get_engine
  end.

(** The state after a sequence of calls, whatever each of them returned or
    raised. *)
Definition run_calls (cs : list call) (w : World) : World :=
  foldl (fun w c => snd (run_call c w)) w cs.

(** The singleton exists, is initialised, and [_engine] is unset or is
    it. *)
Definition settled (r : nat) (w : World) : Prop :=
  _instance w = Some r /\
  (exists o, heap w !! r = Some o /\ _initialized o = true) /\
  (_engine w = None \/ _engine w = Some r).

(** [_engine], once set, is the initialised singleton. *)
Definition engine_ok (w : World) : Prop :=
  forall e, _engine w = Some e ->
    _instance w = Some e /\
    exists o, heap w !! e = Some o /\ _initialized o = true.

(** The Markdown of a page as the loop of [parse] collects it. *)
Definition page_markdown (res : PageResult) : option Markdown :=
  if page_saved res then markdown res else None.

(** The JSON of a page as the loop of [parse] collects it. *)
Definition page_json (res : PageResult) : option Json :=
  if page_saved res then json res else None.

(** The singleton, once allocated, is an object of the heap. *)
Definition allocated (w : World) : Prop :=
  forall r, _instance w = Some r -> is_Some (heap w !! r).

(** The value [__init__] computes for [gpu_id]: [None] is the [ValueError]
    of [int]. *)
Definition gpu_of (device_ : pystr) : option Z :=
  if contains device_ (lit "cuda:")
  then int_ (List.last (split_chr colon device_) [])
  else Some 0.

End WithCollaborators.

End Engine.

(** *** backend/api_server.py *)

Module ApiServer.

(** The status column of a task row. *)
Inductive Status : Type :=
| pending | processing | completed | failed | cancelled.

Definition status_str (st : Status) : pystr :=
  match st with
  | pending => lit "pending"
  | processing => lit "processing"
  | completed => lit "completed"
  | failed => lit "failed"
  | cancelled => lit "cancelled"
  end.

#[global] Instance Status_eq_dec : EqDecision Status.
Proof. solve_decision. Defined.

(** [auth.Permission] *)
Inductive Permission : Type :=
| TASK_SUBMIT | TASK_VIEW_ALL | TASK_DELETE_ALL | QUEUE_VIEW | QUEUE_MANAGE.

(** [auth.User], as far as the handlers use it. *)
Module User.
Record t := {
  user_id : pystr;
  username : pystr;
  has_permission : Permission -> bool
}.
End User.

(** A row of the task table, as [db.get_task] returns it. *)
Module Task.
Record t := {
  task_id : pystr;
  file_name : pystr;
  file_path : pystr;
  backend : pystr;
  priority : Z;
  status : Status;
  error_message : option pystr;
  created_at : pystr;
  started_at : option pystr;
  completed_at : option pystr;
  worker_id : option pystr;
  retry_count : Z;
  user_id : option pystr;
  result_path : option pystr
}.

Definition set_status (st : Status) (t : Task.t) : Task.t :=
  {| task_id := task_id t; file_name := file_name t;
     file_path := file_path t; backend := backend t;
     priority := priority t; status := st;
     error_message := error_message t; created_at := created_at t;
     started_at := started_at t; completed_at := completed_at t;
     worker_id := worker_id t; retry_count := retry_count t;
     user_id := user_id t; result_path := result_path t |}.
End Task.

(** [response["data"]] of a completed task; a key that is not set is
    [None]. *)
Module Data.
Record t := {
  json_available : bool;
  markdown_file : option pystr;
  content : option pystr;
  images_uploaded : option bool;
  has_images : option (option bool);
  from_cache : option bool;
  json_file : option pystr;
  json_content : option pystr;
  message : option pystr
}.
End Data.

(** The response of the status endpoint; [data] is [None] while the key is
    not set, [Some None] when it is set to [None]. *)
Module Response.
Record t := {
  success : bool;
  task_id : pystr;
  status : Status;
  file_name : pystr;
  backend : pystr;
  priority : Z;
  error_message : option pystr;
  created_at : pystr;
  started_at : option pystr;
  completed_at : option pystr;
  worker_id : option pystr;
  retry_count : Z;
  user_id : option pystr;
  data : option (option Data.t);
  message : option pystr
}.
End Response.

#[global] Instance Path_eq_dec : EqDecision Path.
Proof. solve_decision. Defined.

(** What a path names.  The content of a file is the text that reading it
    with [encoding="utf-8"] returns (a text without carriage returns reads
    back as it was written), [None] when it cannot be decoded;
    [Broken] is a name whose [stat] fails with an error that [pathlib] does
    not take for absence (a name that is too long, a directory that may not
    be searched). *)
Inductive node : Type :=
| File (content : option pystr)
| Dir
| Broken.

(** The state the handlers act on: the paths of the filesystem in the
    order a directory walk lists them, the task table, the objects put
    into the object store as (bucket, object name, source file), and the
    number of [uuid.uuid4()] calls so far. *)
Record World := {
  fs : list (Path * node);
  tasks : gmap pystr Task.t;
  objects : list (pystr * pystr * pystr);
  uuids : nat
}.

(** What the module reads from its environment and what its collaborators
    decide: the output root, the object-store configuration, the values of
    [uuid.uuid4()], whether the client can be built and whether the n-th
    upload succeeds, whether a path may be written, whether a text is a
    JSON document, and [Path.resolve] (which follows the symbolic links of
    the filesystem). *)
Record Env := {
  OUTPUT_DIR : Path;
  MINIO_endpoint : pystr;
  MINIO_bucket_name : pystr;
  uuid4 : nat -> pystr;
  minio_client_ok : bool;
  fput_ok : nat -> bool;
  write_ok : Path -> bool;
  json_valid : pystr -> bool;
  resolve : Path -> outcome Path
}.

(** [MINIO_CONFIG["secure"]] *)
Definition MINIO_secure : bool := true.

Section Handlers.

Variable env : Env.

Definition lookup_path (entries : list (Path * node)) (p : Path)
  : option node :=
  snd <$> List.find (fun e => bool_decide (fst e = p)) entries.

(** [p.exists()] *)
Definition exists_ (p : Path) : M World bool :=
  fun w =>
    match lookup_path (fs w) p with
    | Some Broken => (Raise (Exception "OSError"), w)
    | Some _ => (Ok true, w)
    | None => (Ok false, w)
    end.

(** [p.is_file()] *)
Definition is_file (p : Path) : M World bool :=
  fun w =>
    match lookup_path (fs w) p with
    | Some Broken => (Raise (Exception "OSError"), w)
    | Some (File _) => (Ok true, w)
    | _ => (Ok false, w)
    end.

(** [open(p, "r", encoding="utf-8").read()] *)
Definition read_text (p : Path) : M World pystr :=
  fun w =>
    match lookup_path (fs w) p with
    | Some (File (Some c)) => (Ok c, w)
    | Some (File None) => (Raise (Exception "UnicodeDecodeError"), w)
    | Some Dir => (Raise (Exception "IsADirectoryError"), w)
    | Some Broken => (Raise (Exception "OSError"), w)
    | None => (Raise (Exception "FileNotFoundError"), w)
    end.

Definition set_fs (entries : list (Path * node)) (w : World) : World :=
  {| fs := entries; tasks := tasks w; objects := objects w;
     uuids := uuids w |}.

(** The entries after a write to [p]: a file keeps its place in the
    listing, a new file is listed last. *)
Fixpoint store (p : Path) (c : pystr) (entries : list (Path * node))
  : list (Path * node) :=
  match entries with
  | [] => [(p, File (Some c))]
  | e :: rest =>
      if bool_decide (fst e = p) then (p, File (Some c)) :: rest
      else e :: store p c rest
  end.

(** [p.write_text(c, encoding="utf-8")] *)
Definition write_text (p : Path) (c : pystr) : M World unit :=
  fun w =>
    match utf8_encode c with
    | None => (Raise (Exception "UnicodeEncodeError"), w)
    | Some _ =>
        if write_ok env p then
          match lookup_path (fs w) p with
          | Some Dir => (Raise (Exception "IsADirectoryError"), w)
          | Some Broken => (Raise (Exception "OSError"), w)
          | _ => (Ok tt, set_fs (store p c (fs w)) w)
          end
        else (Raise (Exception "PermissionError"), w)
    end.

(** [p.unlink()] *)
Definition unlink (p : Path) : M World unit :=
  fun w =>
    match lookup_path (fs w) p with
    | Some (File _) =>
        if write_ok env p then
          (Ok tt,
           set_fs (List.filter (fun e => negb (bool_decide (fst e = p)))
                     (fs w)) w)
        else (Raise (Exception "PermissionError"), w)
    | Some Dir => (Raise (Exception "IsADirectoryError"), w)
    | Some Broken => (Raise (Exception "OSError"), w)
    | None => (Raise (Exception "FileNotFoundError"), w)
    end.

(** [s.endswith(suffix)] *)
Definition endswith (s suffix : pystr) : bool :=
  startswith (reverse s) (reverse suffix).

(** Whether [p] lies strictly below the directory [d]. *)
Definition below (d p : Path) : bool :=
  bool_decide (root p = root d) &&
  bool_decide (take (length (parts d)) (parts p) = parts d) &&
  (length (parts d) <? length (parts p))%nat.

(** The paths below [d] whose name ends in [suffix], in the order of the
    walk. *)
Definition listing (d : Path) (suffix : pystr) (entries : list (Path * node))
  : list Path :=
  fst <$> List.filter
    (fun e => below d (fst e) && endswith (path_name (fst e)) suffix)
    entries.

(** [list(d.rglob("*" + suffix))] *)
Definition rglob (d : Path) (suffix : pystr) : M World (list Path) :=
  fun w => (Ok (listing d suffix (fs w)), w).

(** **** process_markdown_images *)

Definition dquote : N := 34.
Definition backslash : N := 92.

(** [md_img_pattern], the Markdown image: an exclamation mark and an
    opening bracket, group 1 (the alt text, any characters but the closing
    bracket), the closing bracket and an opening parenthesis, group 2 (the
    path, one or more characters but the closing parenthesis), the closing
    parenthesis. *)
Definition md_img_pattern : regex :=
  seq_of [Lit (lit "!["); Group 1 (Star (not_chr 93)); Lit (lit "](");
          Group 2 (Plus (not_chr 41)); Lit (lit ")")].

(** [html_img_pattern], the HTML image tag: the tag name and white space,
    optionally group 1 (any characters but the closing angle, ending in
    white space), the attribute name [src], the equals sign and a double
    quote, group 2 (the path, one or more characters but the double
    quote), a double quote, group 3 (any characters but the closing angle),
    the closing angle. *)
Definition html_img_pattern : regex :=
  seq_of [Lit (lit "<img"); Plus is_space;
          Opt (Group 1 (Seq (Star (not_chr 62)) (Plus is_space)));
          Lit (lit "src=" ++ [dquote]); Group 2 (Plus (not_chr dquote));
          Lit [dquote]; Group 3 (Star (not_chr 62)); Lit (lit ">")].

(** The pattern of the [alt] attribute: the attribute name, the equals
    sign and a double quote, group 1 (any characters but the double
    quote), a double quote. *)
Definition alt_pattern : regex :=
  seq_of [Lit (lit "alt=" ++ [dquote]); Group 1 (Star (not_chr dquote));
          Lit [dquote]].

(** The upload branch of [process_image_path], inside its [try]. *)
Definition upload_image (full_image_path : Path) : M World pystr :=
  fun w =>
    if minio_client_ok env then
      let n := uuids w in
      let file_extension := path_suffix full_image_path in
      let new_filename := uuid4 env n ++ file_extension in
      let object_name := lit "images/" ++ new_filename in
      let w1 := {| fs := fs w; tasks := tasks w; objects := objects w;
                   uuids := S n |} in
      if fput_ok env n then
        let scheme := if MINIO_secure then lit "https" else lit "http" in
        (Ok (scheme ++ lit "://" ++ MINIO_endpoint env ++ lit "/"
               ++ MINIO_bucket_name env ++ lit "/" ++ object_name),
         {| fs := fs w1; tasks := tasks w1;
            objects := (MINIO_bucket_name env, object_name,
                        path_str full_image_path) :: objects w1;
            uuids := uuids w1 |})
      else (Raise (Exception "S3Error"), w1)
    else (Raise (Exception "ValueError"), w).

(** The local branch of [process_image_path], inside its [try]: [None] is
    an exception of [quote]. *)
Definition static_url (result_path image_filename : pystr) : option pystr :=
  let output_dir_str := replace_chr backslash slash (path_str (OUTPUT_DIR env)) in
  let result_path_str := replace_chr backslash slash result_path in
  if startswith result_path_str output_dir_str then
    let relative_path :=
      lstrip_chr slash (drop (length output_dir_str) result_path_str) in
    match quote relative_path [slash], quote image_filename [slash] with
    | Some encoded_relative_path, Some encoded_image_filename =>
        Some (lit "/api/v1/files/output/" ++ encoded_relative_path
                ++ lit "/images/" ++ encoded_image_filename)
    | _, _ => None
    end
  else
    match quote image_filename [slash] with
    | Some encoded_image_filename =>
        Some (lit "/api/v1/files/output/images/" ++ encoded_image_filename)
    | None => None
    end.

(** [process_image_path(image_path, alt_text)]: the new URL and the format
    type, or [(None, None)]. *)
Definition process_image_path (image_dir : Path) (result_path : pystr)
    (upload_images : bool) (image_path alt_text : pystr)
  : M World (option (pystr * string)) :=
  let image_filename := path_name (path_of image_path) in
  let full_image_path := path_join image_dir image_filename in
  (found <- exists_ full_image_path ;;
   if negb found then ret None
   else
     uploaded <-
       (if upload_images then
          try_except (url <- upload_image full_image_path ;; ret (Some url))
                     (fun _ => ret None)
        else ret None) ;;
     match uploaded with
     | Some minio_url => ret (Some (minio_url, "html"%string))
     | None =>
         match static_url result_path image_filename with
         | Some url => ret (Some (url, "markdown"%string))
         | None => ret None
         end
     end)%py.

(** [if new_url:] *)
Definition url_of (r : option (pystr * string)) : option pystr :=
  match r with
  | Some (url, _) => match url with [] => None | _ => Some url end
  | None => None
  end.

Definition replace_md_image (image_dir : Path) (result_path : pystr)
    (upload_images : bool) (m : Match) : M World pystr :=
  let alt_text := default [] (group m 1) in
  let image_path := default [] (group m 2) in
  (r <- process_image_path image_dir result_path upload_images
          image_path alt_text ;;
   match url_of r with
   | Some new_url =>
       ret (lit "![" ++ alt_text ++ lit "](" ++ new_url ++ lit ")")
   | None => ret (group0 m)
   end)%py.

Definition replace_html_image (image_dir : Path) (result_path : pystr)
    (upload_images : bool) (m : Match) : M World pystr :=
  let before_src := default [] (group m 1) in
  let image_path := default [] (group m 2) in
  let after_src := default [] (group m 3) in
  let alt_text :=
    match re_search alt_pattern (before_src ++ after_src) with
    | Some alt_match => default [] (group alt_match 1)
    | None => lit "Image"
    end in
  (r <- process_image_path image_dir result_path upload_images
          image_path alt_text ;;
   match url_of r with
   | Some new_url =>
       ret (lit "<img " ++ before_src ++ lit "src=" ++ [dquote] ++ new_url
              ++ [dquote] ++ after_src ++ lit ">")
   | None => ret (group0 m)
   end)%py.

(** The body of the [try] of [process_markdown_images]: the two
    substitutions, one after the other. *)
Definition rewrite_images (md_content : pystr) (image_dir : Path)
    (result_path : pystr) (upload_images : bool) : M World pystr :=
  (new_content <-
     re_sub md_img_pattern
       (replace_md_image image_dir result_path upload_images) md_content ;;
   re_sub html_img_pattern
     (replace_html_image image_dir result_path upload_images) new_content)%py.

(** [process_markdown_images(md_content, image_dir, result_path,
    upload_images)] *)
Definition process_markdown_images (md_content : pystr) (image_dir : Path)
    (result_path : pystr) (upload_images : bool) : M World pystr :=
  try_except (rewrite_images md_content image_dir result_path upload_images)
             (fun _ => ret md_content).

(** **** The task table

    Modelled from the spec: [task_db.TaskDB] is not among the sources.
    [get_task] returns the row of a task id or [None]; the store keeps the
    rows by task id. *)
Definition get_task (task_id : pystr) : M World (option Task.t) :=
  fun w => (Ok (tasks w !! task_id), w).

(** Modelled from the spec: [update_task_status(task_id, status)] of
    [task_db.TaskDB], which is not among the sources, sets the status
    column of the row. *)
Definition update_task_status (task_id : pystr) (st : Status)
  : M World unit :=
  modify (fun w =>
    {| fs := fs w; tasks := alter (Task.set_status st) task_id (tasks w);
       objects := objects w; uuids := uuids w |}).

(** **** GET /api/v1/tasks/{task_id} *)

(** The owner check shared by the handlers: the caller holds the
    permission [all] or the row carries the caller's user id. *)
Definition may_access (all : Permission) (current_user : User.t)
    (task : Task.t) : bool :=
  User.has_permission current_user all
  || bool_decide (Task.user_id task = Some (User.user_id current_user)).

Definition base_response (task_id : pystr) (task : Task.t) : Response.t :=
  {| Response.success := true;
     Response.task_id := task_id;
     Response.status := Task.status task;
     Response.file_name := Task.file_name task;
     Response.backend := Task.backend task;
     Response.priority := Task.priority task;
     Response.error_message := Task.error_message task;
     Response.created_at := Task.created_at task;
     Response.started_at := Task.started_at task;
     Response.completed_at := Task.completed_at task;
     Response.worker_id := Task.worker_id task;
     Response.retry_count := Task.retry_count task;
     Response.user_id := Task.user_id task;
     Response.data := None;
     Response.message := None |}.

Definition set_data (d : option Data.t) (message : option pystr)
    (r : Response.t) : Response.t :=
  {| Response.success := Response.success r;
     Response.task_id := Response.task_id r;
     Response.status := Response.status r;
     Response.file_name := Response.file_name r;
     Response.backend := Response.backend r;
     Response.priority := Response.priority r;
     Response.error_message := Response.error_message r;
     Response.created_at := Response.created_at r;
     Response.started_at := Response.started_at r;
     Response.completed_at := Response.completed_at r;
     Response.worker_id := Response.worker_id r;
     Response.retry_count := Response.retry_count r;
     Response.user_id := Response.user_id r;
     Response.data := Some d;
     Response.message := message |}.

(** The JSON files the handler considers. *)
Definition is_json_result (f : Path) : bool :=
  negb (startswith (path_name (path_parent f)) (lit "page_"))
  && (str_eqb (path_name f) (lit "content.json")
      || str_eqb (path_name f) (lit "result.json")
      || contains (path_name f) (lit "_content_list.json")).

(** The main Markdown file: the first one named [result.md], else the
    first one. *)
Definition main_md_file (md_files : list Path) : option Path :=
  match List.find (fun f => str_eqb (path_name f) (lit "result.md")) md_files with
  | Some f => Some f
  | None => head md_files
  end.

Definition fmt_in (format : pystr) (l : list string) : bool :=
  existsb (fun x => str_eqb format (lit x)) l.

(** The Markdown part of the [try] block. *)
Definition markdown_data (task_id result_path : pystr) (upload_images : bool)
    (md_file : Path) (d : Data.t) : M World Data.t :=
  let image_dir := path_join (path_parent md_file) (lit "images") in
  let cached_md_file := path_join (path_parent md_file) (lit "result_minio.md") in
  (hit <- (if upload_images then exists_ cached_md_file else ret false) ;;
   if hit then
     md_content <- read_text cached_md_file ;;
     ret {| Data.json_available := Data.json_available d;
            Data.markdown_file := Some (path_name cached_md_file);
            Data.content := Some md_content;
            Data.images_uploaded := Some true;
            Data.has_images := Data.has_images d;
            Data.from_cache := Some true;
            Data.json_file := Data.json_file d;
            Data.json_content := Data.json_content d;
            Data.message := Data.message d |}
   else
     md_content <- read_text md_file ;;
     has_dir <- exists_ image_dir ;;
     md_content <-
       (if has_dir then
          md_content <- process_markdown_images md_content image_dir
                          result_path upload_images ;;
          (if upload_images then
             try_except (write_text cached_md_file md_content)
                        (fun _ => ret tt)
           else ret tt) ;;;
          ret md_content
        else ret md_content) ;;
     has_images <-
       (if upload_images then ret None
        else b <- exists_ image_dir ;; ret (Some b)) ;;
     ret {| Data.json_available := Data.json_available d;
            Data.markdown_file := Some (path_name md_file);
            Data.content := Some md_content;
            Data.images_uploaded := Some upload_images;
            Data.has_images := Some has_images;
            Data.from_cache := Some false;
            Data.json_file := Data.json_file d;
            Data.json_content := Data.json_content d;
            Data.message := Data.message d |})%py.

(** The JSON part of the [try] block. *)
Definition json_data (format : pystr) (json_files : list Path) (d : Data.t)
  : M World Data.t :=
  match json_files with
  | json_file :: _ =>
      if fmt_in format ["json"; "both"]%string then
        try_except
          (text <- read_text json_file ;;
           if json_valid env text then
             ret {| Data.json_available := Data.json_available d;
                    Data.markdown_file := Data.markdown_file d;
                    Data.content := Data.content d;
                    Data.images_uploaded := Data.images_uploaded d;
                    Data.has_images := Data.has_images d;
                    Data.from_cache := Data.from_cache d;
                    Data.json_file := Some (path_name json_file);
                    Data.json_content := Some text;
                    Data.message := Data.message d |}
           else raise (Exception "JSONDecodeError"))%py
          (fun _ => ret d)
      else ret d
  | [] =>
      if fmt_in format ["json"]%string then
        ret {| Data.json_available := Data.json_available d;
               Data.markdown_file := Data.markdown_file d;
               Data.content := Data.content d;
               Data.images_uploaded := Data.images_uploaded d;
               Data.has_images := Data.has_images d;
               Data.from_cache := Data.from_cache d;
               Data.json_file := Data.json_file d;
               Data.json_content := Data.json_content d;
               Data.message :=
                 Some (lit "JSON format not available for this backend") |}
      else ret d
  end.

Definition empty_data (json_available : bool) : Data.t :=
  {| Data.json_available := json_available;
     Data.markdown_file := None; Data.content := None;
     Data.images_uploaded := None; Data.has_images := None;
     Data.from_cache := None; Data.json_file := None;
     Data.json_content := None; Data.message := None |}.

(** The content of a completed task whose result directory holds Markdown
    files: what becomes [response["data"]]. *)
Definition load_content (task_id result_path : pystr) (upload_images : bool)
    (format : pystr) (md_files json_files : list Path)
  : M World (option Data.t) :=
  try_except
    (let d := empty_data (match json_files with [] => false | _ => true end) in
     d <- (if fmt_in format ["markdown"; "both"]%string then
             match main_md_file md_files with
             | Some md_file =>
                 markdown_data task_id result_path upload_images md_file d
             | None => raise (Exception "IndexError")
             end
           else ret d) ;;
     d <- json_data format json_files d ;;
     ret (Some d))%py
    (fun _ => ret None).

Definition cleaned_up_message : pystr :=
  lit "Task completed but result files have been cleaned up (older than retention period)".

(** [get_task_status(task_id, upload_images, format, current_user)] *)
Definition get_task_status (task_id : pystr) (upload_images : bool)
    (format : pystr) (current_user : User.t) : M World Response.t :=
  (found <- get_task task_id ;;
   match found with
   | None => raise (HTTPException 404 (lit "Task not found"))
   | Some task =>
       if negb (User.has_permission current_user TASK_VIEW_ALL)
          && negb (bool_decide
                     (Task.user_id task = Some (User.user_id current_user)))
       then raise (HTTPException 403
                     (lit "Permission denied: You can only view your own tasks"))
       else
         let response := base_response task_id task in
         match Task.status task with
         | completed =>
             match Task.result_path task with
             | None | Some [] =>
                 ret (set_data None (Some cleaned_up_message) response)
             | Some result_path =>
                 let result_dir := path_of result_path in
                 there <- exists_ result_dir ;;
                 if there then
                   md_files <- rglob result_dir (lit ".md") ;;
                   all_json <- rglob result_dir (lit ".json") ;;
                   let json_files := List.filter is_json_result all_json in
                   match md_files with
                   | [] => ret response
                   | _ =>
                       d <- load_content task_id result_path upload_images
                              format md_files json_files ;;
                       ret (set_data d None response)
                   end
                 else ret response
             end
         | _ => ret response
         end
   end)%py.

(** **** DELETE /api/v1/tasks/{task_id} *)

Record CancelResponse := {
  cancel_success : bool;
  cancel_message : pystr
}.

(** [cancel_task(task_id, current_user)] *)
Definition cancel_task (task_id : pystr) (current_user : User.t)
  : M World CancelResponse :=
  (found <- get_task task_id ;;
   match found with
   | None => raise (HTTPException 404 (lit "Task not found"))
   | Some task =>
       if negb (User.has_permission current_user TASK_DELETE_ALL)
          && negb (bool_decide
                     (Task.user_id task = Some (User.user_id current_user)))
       then raise (HTTPException 403
                     (lit "Permission denied: You can only cancel your own tasks"))
       else
         match Task.status task with
         | pending =>
             update_task_status task_id cancelled ;;;
             let file_path := path_of (Task.file_path task) in
             there <- exists_ file_path ;;
             (if there then unlink file_path else ret tt) ;;;
             ret {| cancel_success := true;
                    cancel_message := lit "Task cancelled successfully" |}
         | st =>
             raise (HTTPException 400
                      (lit "Cannot cancel task in " ++ status_str st
                         ++ lit " status"))
         end
   end)%py.

(** **** GET /v1/files/output/{file_path:path} *)

Record FileResponse := {
  path : pystr;
  media_type : pystr;
  filename : pystr
}.

(** [serve_output_file(file_path)] *)
Definition serve_output_file (file_path : pystr) : M World FileResponse :=
  try_except
    (let decoded_path := unquote file_path in
     let full_path := path_join (OUTPUT_DIR env) decoded_path in
     full_path <-
       try_except
         (full_path <- lift (resolve env full_path) ;;
          lift (resolve env (OUTPUT_DIR env)) ;;;
          output_root <- lift (resolve env (OUTPUT_DIR env)) ;;
          if negb (startswith (path_str full_path) (path_str output_root))
          then raise (HTTPException 403 (lit "Access denied"))
          else ret full_path)
         (fun _ => raise (HTTPException 403 (lit "Invalid path"))) ;;
     there <- exists_ full_path ;;
     if negb there then raise (HTTPException 404 (lit "File not found"))
     else
       regular <- is_file full_path ;;
       if negb regular then raise (HTTPException 404 (lit "Not a file"))
       else
         ret {| path := path_str full_path;
                media_type := lit "application/octet-stream";
                filename := path_name full_path |})%py
    (fun e =>
       match e with
       | HTTPException _ _ => raise e
       | Exception _ => raise (HTTPException 500 (str_of_exn e))
       end).

End Handlers.

(** [Path.resolve] on a filesystem without symbolic links, for the working
    directory [cwd]: the path is made absolute and every double-dot
    component removes the component before it (none at the root).  A NUL
    character raises [ValueError]. *)
Definition resolve_no_symlinks (cwd : Path) (p : Path) : outcome Path :=
  if existsb (existsb (chr_eqb 0)) (parts p) then
    Raise (Exception "ValueError")
  else
    let absolute :=
      match root p with
      | [] => {| root := root cwd; parts := parts cwd ++ parts p |}
      | _ => p
      end in
    Ok {| root := root absolute;
          parts := foldl (fun acc x =>
                            if str_eqb x [dot; dot] then List.removelast acc
                            else acc ++ [x]) [] (parts absolute) |}.

(** No stat of a file of the image directory fails. *)
Definition stat_safe (image_dir : Path) (w : World) : Prop :=
  forall name, lookup_path (fs w) (path_join image_dir name) <> Some Broken.

(** Two states show the same image directory. *)
Definition same_images (image_dir : Path) (w1 w2 : World) : Prop :=
  forall name,
    lookup_path (fs w1) (path_join image_dir name)
    = lookup_path (fs w2) (path_join image_dir name).

(** The status and metadata of a response. *)
Definition metadata (r : Response.t) :=
  (Response.task_id r, Response.status r, Response.file_name r,
   Response.backend r, Response.priority r, Response.error_message r,
   Response.created_at r, Response.started_at r, Response.completed_at r,
   Response.worker_id r, Response.retry_count r, Response.user_id r).

(** [p.is_relative_to(r)]: [p] is [r] or lies below it. *)
Definition is_relative_to (p r : Path) : bool :=
  bool_decide (root p = root r) &&
  bool_decide (take (length (parts r)) (parts p) = parts r).

(** The uploads between two states: the files and the task rows are the
    same, and the object store has gained objects (latest first) of the
    configured bucket whose names start with [images/], each put from a
    path of [image_dir] that exists; an identifier was drawn for each. *)
Definition uploaded_from (env : Env) (image_dir : Path) (w w' : World)
  : Prop :=
  fs w' = fs w /\ tasks w' = tasks w /\
  exists new,
    objects w' = new ++ objects w /\
    (uuids w + length new <= uuids w')%nat /\
    Forall (fun o : pystr * pystr * pystr =>
              o.1.1 = MINIO_bucket_name env /\
              startswith o.1.2 (lit "images/") = true /\
              exists name,
                o.2 = path_str (path_join image_dir name) /\
                lookup_path (fs w) (path_join image_dir name) <> None)
           new.

(** Two states with the same files, task rows and objects. *)
Definition same_store (w1 w2 : World) : Prop :=
  fs w1 = fs w2 /\ tasks w1 = tasks w2 /\ objects w1 = objects w2.

(** The only path a call may have written: every other path names what it
    named, and the task rows are the same. *)
Definition wrote_at_most (name : pystr) (w w' : World) : Prop :=
  tasks w' = tasks w /\
  forall p, path_name p <> name ->
            lookup_path (fs w') p = lookup_path (fs w) p.

End ApiServer.

(** *** backend/start_all.py *)

Module StartAll.

(** The services of [TianshuLauncher], by the name they are given in
    [self.processes]. *)
Inductive Service : Type :=
| VLLMService | APIServer | LitServeWorkers | TaskScheduler | MCPServer.

Definition service_name (s : Service) : pystr :=
  match s with
  | VLLMService => lit "VLLM Service"
  | APIServer => lit "API Server"
  | LitServeWorkers => lit "LitServe Workers"
  | TaskScheduler => lit "Task Scheduler"
  | MCPServer => lit "MCP Server"
  end.

#[global] Instance Service_eq_dec : EqDecision Service.
Proof. solve_decision. Defined.

(** [self.devices]: a [str] or a list of [int]. *)
Inductive Devices : Type :=
| DevStr (s : pystr)
| DevList (l : list Z).

(** The value of [--devices] in the command of the workers. *)
Definition devices_arg (d : Devices) : pystr :=
  match d with
  | DevStr s => s
  | DevList l => join (lit ",") (str_of_int <$> l)
  end.

(** What [subprocess.Popen] is asked to run: the program of each service
    with the arguments and environment variables that vary. *)
Inductive Command : Type :=
| VllmCmd (model_path : pystr) (port : Z)
| ApiCmd (api_port : Z) (output_path : pystr)
| WorkerCmd (output_dir accelerator : pystr) (workers_per_device port : Z)
    (devices : pystr) (engine_enabled : bool) (api_list : list pystr)
| SchedulerCmd (litserve_url : pystr)
| McpCmd (api_base_url : pystr) (mcp_port : Z).

(** What the operating system was asked, oldest first. *)
Inductive Event : Type :=
| Spawn (pid : nat) (cmd : Command)
| Terminate (pid : nat)
| Kill (pid : nat).

(** The attributes that only [__init__] assigns. *)
Record Config := {
  output_dir : pystr;
  api_port : Z;
  worker_port : Z;
  workers_per_device : Z;
  devices : Devices;
  accelerator : pystr;
  enable_mcp : bool;
  mcp_port : Z;
  paddleocr_vl_vllm_engine_enabled : bool;
  start_local_vllm : bool;
  vllm_model_path : option pystr;
  vllm_port : Z
}.

(** The attributes that change, and the requests made so far. *)
Record Launcher := {
  paddleocr_vl_vllm_api_list : list pystr;
  processes : list (Service * nat);
  events : list Event
}.

(** The machine: whether a [Popen] succeeds, whether [poll()] finds a
    process running, the outcome of the polling loop [wait_for_vllm], and
    whether [wait(timeout=10)] returns in time; each may depend on what
    has been requested so far. *)
Record Host := {
  popen_ok : list Event -> Command -> bool;
  running : list Event -> nat -> bool;
  vllm_ready : list Event -> bool;
  stops_in_time : list Event -> nat -> bool
}.

(** How the launcher ends: [start_services] returns, or the interpreter
    exits. *)
Inductive Result : Type :=
| Returned (b : bool)
| Exited (code : Z).

Section Launch.

Variables (cfg : Config) (host : Host).

Definition request (e : Event) (w : Launcher) : Launcher :=
  {| paddleocr_vl_vllm_api_list := paddleocr_vl_vllm_api_list w;
     processes := processes w;
     events := events w ++ [e] |}.

(** [subprocess.Popen(cmd, ...)]: the handle of the new process. *)
Definition popen (cmd : Command) : M Launcher nat :=
  fun w =>
    if popen_ok host (events w) cmd then
      let pid := length (events w) in
      (Ok pid, request (Spawn pid cmd) w)
    else (Raise (Exception "OSError"), w).

(** [self.processes.append((name, proc))] *)
Definition append_process (s : Service) (pid : nat) : M Launcher unit :=
  modify (fun w =>
    {| paddleocr_vl_vllm_api_list := paddleocr_vl_vllm_api_list w;
       processes := processes w ++ [(s, pid)];
       events := events w |}).

(** [proc.poll() is None] *)
Definition poll_is_none (pid : nat) : M Launcher bool :=
  fun w => (Ok (running host (events w) pid), w).

(** [self.wait_for_vllm(port)] *)
Definition wait_for_vllm : M Launcher bool :=
  fun w => (Ok (vllm_ready host (events w)), w).

(** The steps every service but the VLLM one goes through: [Popen], the
    entry in [self.processes], a sleep, and the check that the process is
    still there. *)
Definition launch (s : Service) (cmd : Command) : M Launcher bool :=
  (pid <- popen cmd ;;
   append_process s pid ;;;
   poll_is_none pid)%py.

Definition local_vllm_url : pystr :=
  lit "http://localhost:" ++ str_of_int (vllm_port cfg) ++ lit "/v1".

Definition worker_cmd (w : Launcher) : Command :=
  WorkerCmd (output_dir cfg) (accelerator cfg) (workers_per_device cfg)
    (worker_port cfg) (devices_arg (devices cfg))
    (paddleocr_vl_vllm_engine_enabled cfg) (paddleocr_vl_vllm_api_list w).

(** Step 0 of [start_services]: [false] stands for [return False]. *)
Definition start_vllm : M Launcher bool :=
  if start_local_vllm cfg then
    match vllm_model_path cfg with
    | None | Some [] => ret false
    | Some model_path =>
        (pid <- popen (VllmCmd model_path (vllm_port cfg)) ;;
         append_process VLLMService pid ;;;
         ready <- wait_for_vllm ;;
         if negb ready then ret false
         else
           modify (fun w =>
             if bool_decide (local_vllm_url ∈ paddleocr_vl_vllm_api_list w)
             then w
             else
               {| paddleocr_vl_vllm_api_list :=
                    paddleocr_vl_vllm_api_list w ++ [local_vllm_url];
                  processes := processes w;
                  events := events w |}) ;;;
           ret true)%py
    end
  else ret true.

(** The body of the [try] of [start_services], up to [return True];
    [check_ocr_models], which only starts a background thread before
    that, is left out. *)
Definition start_all : M Launcher bool :=
  (ok <- start_vllm ;;
   if negb ok then ret false
   else
     alive <- launch APIServer (ApiCmd (api_port cfg) (output_dir cfg)) ;;
     if negb alive then ret false
     else
       w <- get ;;
       alive <- launch LitServeWorkers (worker_cmd w) ;;
       if negb alive then ret false
       else
         alive <- launch TaskScheduler
                    (SchedulerCmd (lit "http://localhost:"
                                     ++ str_of_int (worker_port cfg)
                                     ++ lit "/predict")) ;;
         if negb alive then ret false
         else if enable_mcp cfg then
           alive <- launch MCPServer
                      (McpCmd (lit "http://localhost:"
                                 ++ str_of_int (api_port cfg))
                              (mcp_port cfg)) ;;
           if negb alive then ret false else ret true
         else ret true)%py.

(** The first loop of [stop_services], over [reversed(self.processes)]. *)
Definition terminate_all (w : Launcher) : Launcher :=
  foldl (fun w (p : Service * nat) =>
           if running host (events w) p.2 then request (Terminate p.2) w
           else w)
        w (reverse (processes w)).

(** The second loop: a process that does not end in time is killed. *)
Definition wait_all (w : Launcher) : Launcher :=
  foldl (fun w (p : Service * nat) =>
           if stops_in_time host (events w) p.2 then w
           else request (Kill p.2) w)
        w (reverse (processes w)).

(** [stop_services()]: it ends in [sys.exit(0)]. *)
Definition stop_services (w : Launcher) : Result * Launcher :=
  (Exited 0, wait_all (terminate_all w)).

(** [start_services()]: an exception of the body stops the services. *)
Definition start_services (w : Launcher) : Result * Launcher :=
  match start_all w with
  | (Ok b, w') => (Returned b, w')
  | (Raise _, w') => stop_services w'
  end.

(** The services [start_services] is to launch, in its order. *)
Definition plan : list Service :=
  (if start_local_vllm cfg then [VLLMService] else [])
  ++ [APIServer; LitServeWorkers; TaskScheduler]
  ++ (if enable_mcp cfg then [MCPServer] else []).

End Launch.

(** The processes [new] were started between two states, each by one
    [Popen] and nothing else was requested. *)
Definition launched (new : list (Service * nat)) (w w' : Launcher) : Prop :=
  processes w' = processes w ++ new /\
  exists cmds,
    length cmds = length new /\
    events w' = events w ++ zip_with Spawn new.*2 cmds.

End StartAll.

(** *** Concrete inputs of the examples *)

Module Fixtures.

(** A page whose Markdown is the [str] [s]. *)
Definition str_page (s : string) : Engine.PageResult unit :=
  {| Engine.save_to_json := Some (Ok tt);
     Engine.save_to_markdown := Some (Ok tt);
     Engine.markdown := Some (Engine.MdStr (lit s));
     Engine.json := None |}.

(** A pipeline without [concatenate_markdown_pages] that recognises two
    pages. *)
Definition two_pages : Engine.Pipeline unit :=
  {| Engine.predict := fun _ => Ok [str_page "# A"; str_page "# B"];
     Engine.restructure_pages := None;
     Engine.concatenate_markdown_pages := None |}.

Definition two_pages_world : Engine.World unit :=
  snd (Engine.PaddleOCRVLVLLMEngine unit int_ascii (lit "cuda:0")
         (Some (lit "http://localhost:17300/v1")) (Engine.initial unit)).

(** A deployment: the output root [/app/output], a filesystem without
    symbolic links, a reachable object store. *)
Definition env0 : ApiServer.Env :=
  {| ApiServer.OUTPUT_DIR := path_of (lit "/app/output");
     ApiServer.MINIO_endpoint := lit "minio.example.com";
     ApiServer.MINIO_bucket_name := lit "tianshu";
     ApiServer.uuid4 := fun n => lit "uuid-" ++ str_of_int (Z.of_nat n);
     ApiServer.minio_client_ok := true;
     ApiServer.fput_ok := fun _ => true;
     ApiServer.write_ok := fun _ => true;
     ApiServer.json_valid := fun _ => true;
     ApiServer.resolve := ApiServer.resolve_no_symlinks (path_of (lit "/app")) |}.

Definition nobody (name : string) : ApiServer.User.t :=
  {| ApiServer.User.user_id := lit name;
     ApiServer.User.username := lit name;
     ApiServer.User.has_permission := fun _ => false |}.

Definition alice : ApiServer.User.t := nobody "alice".
Definition bob : ApiServer.User.t := nobody "bob".

Definition admin : ApiServer.User.t :=
  {| ApiServer.User.user_id := lit "root";
     ApiServer.User.username := lit "root";
     ApiServer.User.has_permission := fun _ => true |}.

(** A task of [alice] in the given status. *)
Definition task_of_alice (id : string) (st : ApiServer.Status)
    (result_path : option pystr) : ApiServer.Task.t :=
  {| ApiServer.Task.task_id := lit id;
     ApiServer.Task.file_name := lit "a.pdf";
     ApiServer.Task.file_path := lit "/app/uploads/u1_a.pdf";
     ApiServer.Task.backend := lit "auto";
     ApiServer.Task.priority := 0;
     ApiServer.Task.status := st;
     ApiServer.Task.error_message := None;
     ApiServer.Task.created_at := lit "2025-01-01T00:00:00";
     ApiServer.Task.started_at := None;
     ApiServer.Task.completed_at := None;
     ApiServer.Task.worker_id := None;
     ApiServer.Task.retry_count := 0;
     ApiServer.Task.user_id := Some (lit "alice");
     ApiServer.Task.result_path := result_path |}.

Definition task_T : ApiServer.Task.t :=
  task_of_alice "T" ApiServer.completed (Some (lit "/app/output/T")).
Definition task_P : ApiServer.Task.t :=
  task_of_alice "P" ApiServer.pending None.
Definition task_R : ApiServer.Task.t :=
  task_of_alice "R" ApiServer.processing None.

(** The Markdown of scenario S5: one Markdown image and one HTML image of
    the same file. *)
Definition s5_markdown : pystr :=
  lit "![cap](figs/x.png)
<img src=" ++ [ApiServer.dquote] ++ lit "figs/x.png" ++ [ApiServer.dquote]
  ++ lit " alt=" ++ [ApiServer.dquote] ++ lit "y" ++ [ApiServer.dquote]
  ++ lit ">".

Definition world0 : ApiServer.World :=
  {| ApiServer.fs :=
       [(path_of (lit "/app/output"), ApiServer.Dir);
        (path_of (lit "/app/output/T"), ApiServer.Dir);
        (path_of (lit "/app/output/T/result.md"),
         ApiServer.File (Some s5_markdown));
        (path_of (lit "/app/output/T/images"), ApiServer.Dir);
        (path_of (lit "/app/output/T/images/x.png"), ApiServer.File None);
        (path_of (lit "/app/output2"), ApiServer.Dir);
        (path_of (lit "/app/output2/secret.txt"),
         ApiServer.File (Some (lit "secret")));
        (path_of (lit "/app/uploads/u1_a.pdf"), ApiServer.File None)];
     ApiServer.tasks :=
       <[lit "T" := task_T]> (<[lit "P" := task_P]> (<[lit "R" := task_R]> ∅));
     ApiServer.objects := [];
     ApiServer.uuids := 0 |}.

Definition images_T : Path := path_of (lit "/app/output/T/images").

(** A document with a Markdown image of a file that exists, one of a file
    that is missing, and an HTML image. *)
Definition mixed_markdown : pystr :=
  lit "![m](missing.png) " ++ s5_markdown.

(** A Markdown image whose path is an HTML image tag. *)
Definition nested_markdown : pystr :=
  lit "![a](<img src=" ++ [ApiServer.dquote] ++ lit "x.png"
    ++ [ApiServer.dquote] ++ lit ">)".

(** [world0] with a name in the image directory whose [stat] fails. *)
Definition world_unreadable : ApiServer.World :=
  {| ApiServer.fs :=
       (path_of (lit "/app/output/T/images/locked.png"), ApiServer.Broken)
       :: ApiServer.fs world0;
     ApiServer.tasks := ApiServer.tasks world0;
     ApiServer.objects := ApiServer.objects world0;
     ApiServer.uuids := ApiServer.uuids world0 |}.

(** A page with JSON whose saves return, and one whose [save_to_json]
    raises. *)
Definition json_page (s : string) : Engine.PageResult unit :=
  {| Engine.save_to_json := Some (Ok tt);
     Engine.save_to_markdown := Some (Ok tt);
     Engine.markdown := Some (Engine.MdStr (lit s));
     Engine.json := Some tt |}.

Definition unsaved_page : Engine.PageResult unit :=
  {| Engine.save_to_json := Some (Raise (Exception "OSError"));
     Engine.save_to_markdown := Some (Ok tt);
     Engine.markdown := Some (Engine.MdStr (lit "# lost"));
     Engine.json := Some tt |}.

(** A pipeline that recognises three pages, the second of which cannot be
    saved. *)
Definition three_pages : Engine.Pipeline unit :=
  {| Engine.predict :=
       fun _ => Ok [json_page "# A"; unsaved_page; json_page "# C"];
     Engine.restructure_pages := None;
     Engine.concatenate_markdown_pages := None |}.

(** A pipeline whose [predict] raises. *)
Definition no_server : Engine.Pipeline unit :=
  {| Engine.predict := fun _ => Raise (Exception "ConnectionError");
     Engine.restructure_pages := None;
     Engine.concatenate_markdown_pages := None |}.

(** A launcher with every optional service, before anything is started. *)
Definition full_launch : StartAll.Config :=
  {| StartAll.output_dir := lit "/tmp/mineru_tianshu_output";
     StartAll.api_port := 8000;
     StartAll.worker_port := 8001;
     StartAll.workers_per_device := 1;
     StartAll.devices := StartAll.DevList [0; 1];
     StartAll.accelerator := lit "auto";
     StartAll.enable_mcp := true;
     StartAll.mcp_port := 8002;
     StartAll.paddleocr_vl_vllm_engine_enabled := true;
     StartAll.start_local_vllm := true;
     StartAll.vllm_model_path := Some (lit "/models/PaddleOCR-VL");
     StartAll.vllm_port := 8003 |}.

Definition idle : StartAll.Launcher :=
  {| StartAll.paddleocr_vl_vllm_api_list := [];
     StartAll.processes := [];
     StartAll.events := [] |}.

(** A machine on which everything starts and stops as asked. *)
Definition good_host : StartAll.Host :=
  {| StartAll.popen_ok := fun _ _ => true;
     StartAll.running := fun _ _ => true;
     StartAll.vllm_ready := fun _ => true;
     StartAll.stops_in_time := fun _ _ => true |}.

(** A machine on which the scheduler, the fourth process, dies at once. *)
Definition host_without_scheduler : StartAll.Host :=
  {| StartAll.popen_ok := fun _ _ => true;
     StartAll.running := fun _ pid => negb (pid =? 3)%nat;
     StartAll.vllm_ready := fun _ => true;
     StartAll.stops_in_time := fun _ _ => true |}.

(** A machine on which the program of the MCP server cannot be run. *)
Definition host_without_mcp : StartAll.Host :=
  {| StartAll.popen_ok :=
       fun _ cmd => match cmd with StartAll.McpCmd _ _ => false | _ => true end;
     StartAll.running := fun _ _ => true;
     StartAll.vllm_ready := fun _ => true;
     StartAll.stops_in_time := fun _ pid => negb (pid =? 0)%nat |}.

End Fixtures.

Import Fixtures.

(** ** Part II: properties *)

(** *** pdf_utils.split_pdf_file *)

Section SplitPdf.

Import PdfUtils.

Context {Page : Type}.
Variables (pdf_path output_dir : Path) (doc : list Page).

Local Abbreviation P := (Z.of_nat (length doc)).

Example split_five_by_two :
  option_map
    (fun r => (fun c => (start_page c, end_page c, page_count c)) <$> fst r)
    (split_pdf_file nat (path_of (lit "/u/doc.pdf")) (path_of (lit "/o/t"))
       [1; 2; 3; 4; 5]%nat 2)
  = Some [(1, 2, 2); (3, 4, 2); (5, 5, 1)].
Proof. reflexivity. Qed.

Example split_five_by_two_paths :
  option_map (fun r => path <$> fst r)
    (split_pdf_file nat (path_of (lit "/u/doc.pdf")) (path_of (lit "/o/t"))
       [1; 2; 3; 4; 5]%nat 2)
  = Some [lit "/o/t/doc_pages_1-2.pdf"; lit "/o/t/doc_pages_3-4.pdf";
          lit "/o/t/doc_pages_5-5.pdf"].
Proof. reflexivity. Qed.

Example split_five_by_two_pages :
  option_map (fun r => saved_pages nat <$> snd r)
    (split_pdf_file nat (path_of (lit "/u/doc.pdf")) (path_of (lit "/o/t"))
       [1; 2; 3; 4; 5]%nat 2)
  = Some [[1; 2]; [3; 4]; [5]]%nat.
Proof. reflexivity. Qed.

Example split_zero_chunk_size_raises :
  split_pdf_file nat (path_of (lit "/u/doc.pdf")) (path_of (lit "/o/t"))
    [1; 2; 3]%nat 0 = None.
Proof. reflexivity. Qed.

(** Number of iterations of [for i in range(0, P, C)]. *)
Lemma range_len_pos (C : Z) :
  1 <= P -> 1 <= C -> range_len 0 P C = (P - 1) / C + 1.
Proof.
  intros HP HC. unfold range_len.
  destruct (Z.ltb_spec 0 C); [|lia].
  destruct (Z.ltb_spec 0 P); [|lia].
  f_equal. f_equal. lia.
Qed.

Lemma range_len_ceil (C : Z) :
  1 <= P -> 1 <= C ->
  let n := (P - 1) / C + 1 in (n - 1) * C < P <= n * C.
Proof.
  intros HP HC n. subst n.
  pose proof (Z.div_mod (P - 1) C ltac:(lia)) as Hdm.
  pose proof (Z.mod_pos_bound (P - 1) C ltac:(lia)) as Hb.
  nia.
Qed.

(** The k-th record of the result. *)
Lemma split_pdf_file_lookup (C : Z) chunks files (k : nat) c :
  1 <= P -> 1 <= C ->
  split_pdf_file Page pdf_path output_dir doc C = Some (chunks, files) ->
  chunks !! k = Some c ->
  Z.of_nat k * C < P /\
  start_page c = Z.of_nat k * C + 1 /\
  end_page c = Z.min ((Z.of_nat k + 1) * C) P /\
  page_count c = end_page c - start_page c + 1.
Proof.
  intros HP HC Hs Hk. unfold split_pdf_file, range in Hs.
  destruct (Z.eqb_spec C 0); [lia|].
  injection Hs as <- _.
  rewrite <- !list_fmap_compose, list_lookup_fmap in Hk.
  destruct (seq 0 _ !! k) as [j|] eqn:Hj; [|discriminate].
  apply lookup_seq in Hj as [-> Hlt]. injection Hk as <-. simpl.
  rewrite range_len_pos in Hlt by lia.
  pose proof (range_len_ceil C HP HC) as Hc. simpl in Hc.
  repeat split; try lia.
  nia.
Qed.

Lemma split_pdf_file_length (C : Z) chunks files :
  1 <= P -> 1 <= C ->
  split_pdf_file Page pdf_path output_dir doc C = Some (chunks, files) ->
  Z.of_nat (length chunks) = (P - 1) / C + 1.
Proof.
  intros HP HC Hs. unfold split_pdf_file, range in Hs.
  destruct (Z.eqb_spec C 0); [lia|].
  injection Hs as <- _.
  rewrite !length_fmap, length_seq, range_len_pos by lia.
  pose proof (Z.div_pos (P - 1) C). lia.
Qed.

(** C6: for a document of [P >= 1] pages and [chunk_size = C >= 1],
    [split_pdf_file] returns a list of [ceil(P / C)] records (the length [n]
    with [(n - 1) * C < P <= n * C]); the first record starts at page 1, the
    last one ends at page [P], each record starts on the page after the end
    of its predecessor, and every record has
    [page_count = end_page - start_page + 1] with [1 <= page_count <= C]. *)
Theorem split_pdf_file_partitions (C : Z) :
  1 <= P -> 1 <= C ->
  exists chunks files,
    split_pdf_file Page pdf_path output_dir doc C = Some (chunks, files) /\
    (let n := Z.of_nat (length chunks) in (n - 1) * C < P <= n * C) /\
    start_page <$> head chunks = Some 1 /\
    end_page <$> last chunks = Some P /\
    (forall (k : nat) a b,
        chunks !! k = Some a -> chunks !! S k = Some b ->
        start_page b = end_page a + 1) /\
    Forall (fun c => page_count c = end_page c - start_page c + 1 /\
                     1 <= page_count c <= C) chunks.
Proof.
  intros HP HC.
  destruct (split_pdf_file Page pdf_path output_dir doc C)
    as [[chunks files]|] eqn:Hs.
  2: { unfold split_pdf_file, range in Hs.
       destruct (Z.eqb_spec C 0); [lia | discriminate]. }
  pose proof (split_pdf_file_length C chunks files HP HC Hs) as Hlen.
  pose proof (range_len_ceil C HP HC) as Hceil. simpl in Hceil.
  pose proof (Z.div_pos (P - 1) C ltac:(lia) ltac:(lia)) as Hq.
  pose proof (fun k c => split_pdf_file_lookup C chunks files k c HP HC Hs)
    as Hnth.
  exists chunks, files. split; [reflexivity|].
  split; [simpl; rewrite Hlen; exact Hceil|].
  split.
  { rewrite head_lookup.
    destruct (chunks !! 0%nat) as [c|] eqn:H0.
    - destruct (Hnth _ _ H0) as (_ & Hst & _). simpl. rewrite Hst.
      f_equal; lia.
    - apply lookup_ge_None in H0. lia. }
  split.
  { rewrite last_lookup.
    destruct (chunks !! pred (length chunks)) as [c|] eqn:Hl.
    - destruct (Hnth _ _ Hl) as (_ & _ & Hen & _). simpl. rewrite Hen.
      f_equal.
      assert (Z.of_nat (pred (length chunks)) = (P - 1) / C) as -> by lia.
      lia.
    - apply lookup_ge_None in Hl. lia. }
  split.
  { intros k a b Ha Hb.
    destruct (Hnth _ _ Ha) as (_ & _ & Hen & _).
    destruct (Hnth _ _ Hb) as (Hlt & Hst & _).
    rewrite Hen, Hst. rewrite Nat2Z.inj_succ in *. lia. }
  apply Forall_lookup. intros k c Hc.
  destruct (Hnth _ _ Hc) as (Hlt & Hst & Hen & Hpc).
  split; [exact Hpc|]. rewrite Hpc, Hst, Hen.
  destruct (Z.min_spec ((Z.of_nat k + 1) * C) P) as [[? ->]|[? ->]]; lia.
Qed.

End SplitPdf.

Lemma split_pdf_file_partitions_witness :
  exists chunks files,
    PdfUtils.split_pdf_file nat (path_of (lit "/u/doc.pdf"))
      (path_of (lit "/o/t")) [1; 2; 3; 4; 5]%nat 2 = Some (chunks, files) /\
    (let n := Z.of_nat (length chunks) in (n - 1) * 2 < 5 <= n * 2) /\
    PdfUtils.start_page <$> head chunks = Some 1 /\
    PdfUtils.end_page <$> last chunks = Some 5 /\
    (forall (k : nat) a b,
        chunks !! k = Some a -> chunks !! S k = Some b ->
        PdfUtils.start_page b = PdfUtils.end_page a + 1) /\
    Forall (fun c => PdfUtils.page_count c
                     = PdfUtils.end_page c - PdfUtils.start_page c + 1 /\
                     1 <= PdfUtils.page_count c <= 2) chunks.
Proof.
  apply (split_pdf_file_partitions (path_of (lit "/u/doc.pdf"))
           (path_of (lit "/o/t")) [1; 2; 3; 4; 5]%nat 2); simpl; lia.
Defined.

(** *** engine.PaddleOCRVLVLLMEngine: the singleton *)

Section EngineSingleton.

Import Engine.

Context {Json : Type}.
Variable int_ : pystr -> option Z.

Local Abbreviation World := (Engine.World Json).
Local Abbreviation construct := (PaddleOCRVLVLLMEngine Json int_).
Local Abbreviation initial := (Engine.initial Json).
Local Abbreviation run_calls := (Engine.run_calls Json int_).
Local Abbreviation settled := (Engine.settled Json).
Local Abbreviation engine_ok := (Engine.engine_ok Json).

Lemma construct_settled r w d b :
  settled r w -> construct d b w = (Ok r, w).
Proof.
  intros (Hi & (o & Ho & Hinit) & _).
  unfold PaddleOCRVLVLLMEngine, bind, new_. rewrite Hi.
  unfold init_, bind, attr. rewrite Ho, Hinit. reflexivity.
Qed.

Lemma get_engine_settled r w :
  settled r w ->
  exists w', get_engine Json int_ w = (Ok r, w') /\ settled r w' /\
             heap Json w' = heap Json w.
Proof.
  intros Hs. pose proof Hs as (Hi & Hh & [He|He]).
  - unfold get_engine. rewrite He, (construct_settled r w _ _ Hs).
    eexists. split; [reflexivity|]. split; [|reflexivity].
    split; [exact Hi|]. split; [exact Hh|]. right. reflexivity.
  - exists w. unfold get_engine. rewrite He. auto.
Qed.

Lemma run_calls_settled r cs w :
  settled r w ->
  settled r (run_calls cs w) /\
  heap Json (run_calls cs w) = heap Json w.
Proof.
  revert w. induction cs as [|c cs IH]; intros w Hs; [auto|].
  simpl. destruct c as [d b|]; simpl.
  - rewrite (construct_settled r w d b Hs). simpl. apply IH, Hs.
  - destruct (get_engine_settled r w Hs) as (w' & -> & Hs' & Hh).
    simpl. rewrite <- Hh. apply IH, Hs'.
Qed.

(** Each update of an attribute keeps [_instance] and [_engine]. *)
Lemma init_frame self d b w :
  _instance Json (snd (init_ Json int_ self d b w)) = _instance Json w /\
  _engine Json (snd (init_ Json int_ self d b w)) = _engine Json w.
Proof.
  unfold init_, bind, attr, update, modify, _check_gpu_availability, ret, raise.
  destruct (heap Json w !! self) as [o|]; [|auto].
  destruct (_initialized Json o); [auto|]. simpl.
  destruct (contains d (lit "cuda:")); [|auto].
  destruct (int_ _); auto.
Qed.

Lemma init_ok self d b w w' :
  init_ Json int_ self d b w = (Ok tt, w') ->
  exists o, heap Json w' !! self = Some o /\ _initialized Json o = true.
Proof.
  unfold init_, bind, attr, update, modify, _check_gpu_availability, ret, raise.
  destruct (heap Json w !! self) as [o|] eqn:Ho; [|discriminate].
  destruct (_initialized Json o) eqn:Hinit.
  { intros [= <-]. eauto. }
  simpl.
  destruct (contains d (lit "cuda:")).
  - destruct (int_ _) as [g|]; [|discriminate]. simpl.
    intros [= <-]. simpl. rewrite !lookup_alter_eq, Ho. simpl. eauto.
  - simpl. intros [= <-]. simpl. rewrite !lookup_alter_eq, Ho. simpl. eauto.
Qed.

Lemma engine_ok_construct d b w :
  engine_ok w -> engine_ok (snd (construct d b w)).
Proof.
  intros Hok. unfold PaddleOCRVLVLLMEngine, bind.
  destruct (new_ Json w) as [[r|e] w1] eqn:Hnew.
  2: { unfold new_ in Hnew. destruct (_instance Json w); discriminate. }
  unfold new_ in Hnew.
  destruct (_instance Json w) as [r0|] eqn:Hi.
  - injection Hnew as <- <-.
    destruct (_engine Json w) as [e|] eqn:He.
    + destruct (Hok e He) as (Hie & o & Ho & Hinit).
      assert (e = r0) as -> by congruence.
      unfold init_, bind, attr. rewrite Ho, Hinit. simpl. exact Hok.
    + pose proof (init_frame r0 d b w) as [_ Hfe].
      destruct (init_ Json int_ r0 d b w) as [[[]|ex] w2]; simpl in *;
        intros e Hee; congruence.
  - injection Hnew as <- <-.
    assert (_engine Json w = None) as He.
    { destruct (_engine Json w) as [e|] eqn:He; [|reflexivity].
      destruct (Hok e He) as (Hie & _). congruence. }
    match goal with |- context [init_ _ _ ?r _ _ ?w0] =>
      pose proof (init_frame r d b w0) as [_ Hfe];
      destruct (init_ Json int_ r d b w0) as [[[]|ex] w2] end;
      simpl in *; intros e Hee; congruence.
Qed.

Lemma construct_ok d b w r w' :
  construct d b w = (Ok r, w') ->
  _instance Json w' = Some r /\
  (exists o, heap Json w' !! r = Some o /\ _initialized Json o = true) /\
  _engine Json w' = _engine Json w.
Proof.
  unfold PaddleOCRVLVLLMEngine, bind.
  destruct (new_ Json w) as [[r0|e] w1] eqn:Hnew; [|discriminate].
  assert (_instance Json w1 = Some r0 /\ _engine Json w1 = _engine Json w)
    as [Hi He].
  { unfold new_ in Hnew. destruct (_instance Json w) eqn:Hiw;
      injection Hnew as <- <-; auto. }
  pose proof (init_frame r0 d b w1) as [Hfi Hfe].
  destruct (init_ Json int_ r0 d b w1) as [[[]|ex] w2] eqn:Hinit;
    [|discriminate].
  simpl in *. intros [= <- <-].
  split; [congruence|]. split; [|congruence].
  eapply init_ok; eauto.
Qed.

Lemma engine_ok_get_engine w :
  engine_ok w -> engine_ok (snd (get_engine Json int_ w)).
Proof.
  intros Hok. unfold get_engine.
  destruct (_engine Json w) as [e|] eqn:He; [exact Hok|].
  pose proof (engine_ok_construct default_device default_vllm_api_base w Hok)
    as Hok'.
  destruct (construct default_device default_vllm_api_base w)
    as [[r|ex] w'] eqn:Hc; [|exact Hok'].
  apply construct_ok in Hc as (Hi & Hh & _). simpl.
  intros e [= <-]. simpl. auto.
Qed.

Lemma engine_ok_run_calls cs w :
  engine_ok w -> engine_ok (run_calls cs w).
Proof.
  revert w. induction cs as [|c cs IH]; intros w Hok; [exact Hok|].
  simpl. apply IH. destruct c; simpl.
  - apply engine_ok_construct, Hok.
  - apply engine_ok_get_engine, Hok.
Qed.

Lemma engine_ok_initial : engine_ok initial.
Proof. intros e He. discriminate. Qed.

(** What a constructor call that runs [__init__] to its end assigns. *)
Lemma construct_first d b w r w' :
  (forall o0, heap Json w !! r = Some o0 -> _initialized Json o0 = false) ->
  construct d b w = (Ok r, w') ->
  exists o, heap Json w' !! r = Some o /\
    device Json o = Some d /\
    vllm_api_base Json o = Some b /\
    gpu_id Json o =
      (if contains d (lit "cuda:")
       then int_ (List.last (split_chr colon d) []) else Some 0).
Proof.
  intros Hfresh. unfold PaddleOCRVLVLLMEngine, bind.
  destruct (new_ Json w) as [[r0|e] w1] eqn:Hnew; [|discriminate].
  assert ((exists o0, heap Json w1 !! r0 = Some o0 /\
                      (r0 = r -> _initialized Json o0 = false))
          \/ heap Json w1 !! r0 = None) as Hw1.
  { unfold new_ in Hnew. destruct (_instance Json w) eqn:Hiw;
      injection Hnew as <- <-.
    - destruct (heap Json w !! n) as [o0|] eqn:Ho0; [|right; reflexivity].
      left. eexists; split; [reflexivity|]. intros ->. eauto.
    - simpl. rewrite lookup_insert_eq. left.
      eexists; split; reflexivity. }
  destruct (init_ Json int_ r0 d b w1) as [[[]|ex] w2] eqn:Hinit;
    [|discriminate].
  intros [= -> <-].
  revert Hinit.
  unfold init_, bind, attr, update, modify, _check_gpu_availability, ret, raise.
  destruct Hw1 as [(o0 & Ho0 & Hf)|Hnone]; [|rewrite Hnone; discriminate].
  rewrite Ho0, (Hf eq_refl). simpl.
  destruct (contains d (lit "cuda:")).
  - destruct (int_ _) as [g|]; [|discriminate]. simpl.
    intros [= <-]. simpl. rewrite !lookup_alter_eq, Ho0. simpl. eauto.
  - simpl. intros [= <-]. simpl. rewrite !lookup_alter_eq, Ho0. simpl. eauto.
Qed.

(** C9: in a process that has made any calls of the constructor and of
    [get_engine], once a construction has returned an object [r], every
    later construction returns the same [r] without raising and without
    changing the state, whatever [device] and [vllm_api_base] it is given;
    the object is initialised and is the same, field for field, after any
    later calls; and if that construction was the one that initialised the
    object, the fields are those of its arguments. *)
Theorem engine_singleton_keeps_first_init
    (cs1 : list call) d1 b1 (r : nat) (w1 : World) (cs2 : list call) d2 b2 :
  construct d1 b1 (run_calls cs1 initial) = (Ok r, w1) ->
  construct d2 b2 (run_calls cs2 w1) = (Ok r, run_calls cs2 w1) /\
  (exists o, heap Json w1 !! r = Some o /\ _initialized Json o = true /\
             heap Json (run_calls cs2 w1) !! r = Some o /\
             ((forall o0, heap Json (run_calls cs1 initial) !! r = Some o0 ->
                          _initialized Json o0 = false) ->
              device Json o = Some d1 /\
              vllm_api_base Json o = Some b1 /\
              gpu_id Json o =
                (if contains d1 (lit "cuda:")
                 then int_ (List.last (split_chr colon d1) []) else Some 0))).
Proof.
  intros Hc.
  pose proof (engine_ok_run_calls cs1 initial engine_ok_initial) as Hok0.
  pose proof (engine_ok_construct d1 b1 _ Hok0) as Hok1.
  rewrite Hc in Hok1. simpl in Hok1.
  pose proof (construct_ok _ _ _ _ _ Hc) as (Hi & (o & Ho & Hinit) & He).
  assert (settled r w1) as Hs.
  { split; [exact Hi|]. split; [eauto|].
    destruct (_engine Json w1) as [e|] eqn:Hee; [|auto].
    destruct (Hok1 e Hee) as (Hie & _). right. congruence. }
  destruct (run_calls_settled r cs2 w1 Hs) as [Hs2 Hh2].
  split; [apply construct_settled, Hs2|].
  exists o. split; [exact Ho|]. split; [exact Hinit|].
  split; [rewrite Hh2; exact Ho|].
  intros Hfresh.
  destruct (construct_first _ _ _ _ _ Hfresh Hc) as (o' & Ho' & Hfields).
  assert (o' = o) as -> by congruence. exact Hfields.
Qed.

End EngineSingleton.

Example engine_second_construction_keeps_device :
  let w1 := snd (Engine.PaddleOCRVLVLLMEngine unit int_ascii (lit "cuda:1")
                   (Some (lit "http://a/v1")) (Engine.initial unit)) in
  let '(r2, w2) := Engine.PaddleOCRVLVLLMEngine unit int_ascii (lit "cuda:3")
                     (Some (lit "http://b/v1")) w1 in
  r2 = Ok 0%nat /\
  (Engine.device unit <$> Engine.heap unit w2 !! 0%nat)
    = Some (Some (lit "cuda:1")) /\
  (Engine.gpu_id unit <$> Engine.heap unit w2 !! 0%nat) = Some (Some 1) /\
  (Engine.vllm_api_base unit <$> Engine.heap unit w2 !! 0%nat)
    = Some (Some (Some (lit "http://a/v1"))).
Proof. vm_compute. auto. Qed.

Example engine_failed_init_is_retried :
  let '(r1, w1) := Engine.PaddleOCRVLVLLMEngine unit int_ascii (lit "cuda:x")
                     None (Engine.initial unit) in
  let '(r2, w2) := Engine.PaddleOCRVLVLLMEngine unit int_ascii (lit "cuda:2")
                     None w1 in
  r1 = Raise (Exception "ValueError") /\ r2 = Ok 0%nat /\
  (Engine.device unit <$> Engine.heap unit w1 !! 0%nat)
    = Some (Some (lit "cuda:x")) /\
  (Engine.device unit <$> Engine.heap unit w2 !! 0%nat)
    = Some (Some (lit "cuda:2")).
Proof. vm_compute. auto. Qed.

Lemma engine_singleton_keeps_first_init_witness :
  let w1 := snd (Engine.PaddleOCRVLVLLMEngine unit int_ascii (lit "cuda:1")
                   (Some (lit "http://a/v1")) (Engine.initial unit)) in
  let w2 := Engine.run_calls unit int_ascii [Engine.GetEngine] w1 in
  Engine.PaddleOCRVLVLLMEngine unit int_ascii (lit "cuda:3")
    (Some (lit "http://b/v1")) w2 = (Ok 0%nat, w2).
Proof.
  intros w1 w2.
  apply (engine_singleton_keeps_first_init (Json := unit) int_ascii []
           (lit "cuda:1") (Some (lit "http://a/v1")) 0%nat w1 [Engine.GetEngine]
           (lit "cuda:3") (Some (lit "http://b/v1"))).
  vm_compute. reflexivity.
Defined.

(** *** engine.parse: the merged Markdown *)

Section EngineParse.

Import Engine.

Context {Json : Type}.
Variable PaddleOCRVL : pystr -> outcome (Pipeline Json).

Local Abbreviation World := (Engine.World Json).
Local Abbreviation parse := (Engine.parse Json PaddleOCRVL).
Local Abbreviation page_markdown := (Engine.page_markdown Json).

Lemma collect_markdown_from (result : list (PageResult Json)) acc :
  fst (foldl (collect_page Json) acc result)
  = fst acc ++ omap page_markdown result.
Proof.
  revert acc. induction result as [|res result IH]; intros acc; simpl.
  { rewrite app_nil_r. reflexivity. }
  rewrite IH. unfold collect_page, page_markdown.
  destruct (page_saved Json res); [|reflexivity].
  destruct (markdown Json res); simpl; [|reflexivity].
  rewrite <- app_assoc. reflexivity.
Qed.

(** The list being merged holds the Markdown of the saved pages, in page
    order. *)
Lemma collect_markdown (result : list (PageResult Json)) :
  fst (collect Json result) = omap page_markdown result.
Proof. apply collect_markdown_from. Qed.

Lemma comprehension_Forall2 {A B} (f : A -> outcome B) l ys :
  Forall2 (fun x y => f x = Ok y) l ys -> comprehension f l = Ok ys.
Proof.
  induction 1 as [|x y l ys Hxy _ IH]; simpl; [reflexivity|].
  rewrite Hxy, IH. reflexivity.
Qed.

Lemma merge_fallback (pipeline : Pipeline Json) markdown_list texts :
  concatenate_markdown_pages Json pipeline = None ->
  Forall2 (fun md t => md_text md = Ok t) markdown_list texts ->
  merge_markdown Json pipeline markdown_list = Ok (join separator texts).
Proof.
  intros Hnone Htexts. unfold merge_markdown.
  rewrite Hnone, (comprehension_Forall2 _ _ _ Htexts). reflexivity.
Qed.

(** Once the pipeline is loaded and [predict] has returned, [parse] returns
    and writes to [result.md] whatever the merge returned. *)
Lemma parse_writes_merge self file_path output_path kwargs
    (w w1 : World) pipeline pages text :
  _load_pipeline Json PaddleOCRVL self w = (Ok pipeline, w1) ->
  predict Json pipeline (predict_params (path_of file_path) kwargs)
    = Ok pages ->
  merge_markdown Json pipeline
    (omap page_markdown (restructure Json pipeline kwargs pages)) = Ok text ->
  exists res w2,
    parse self file_path output_path kwargs w = (Ok res, w2) /\
    markdown_text Json res = text /\
    exists later,
      written Json w2
      = later ++ (path_join (path_of output_path) (lit "result.md"), Text Json text)
              :: written Json w1.
Proof.
  intros Hload Hpredict Hmerge.
  unfold Engine.parse, bind, try_finally, cleanup, lift, write, modify, ret.
  rewrite Hload, Hpredict.
  destruct (collect Json (restructure Json pipeline kwargs pages))
    as [markdown_list json_list] eqn:Hcollect.
  assert (markdown_list
          = omap page_markdown (restructure Json pipeline kwargs pages)) as ->.
  { rewrite <- collect_markdown, Hcollect. reflexivity. }
  rewrite Hmerge. simpl.
  destruct json_list as [|j json_list]; simpl.
  - eexists _, _. split; [reflexivity|]. split; [reflexivity|].
    exists []. reflexivity.
  - eexists _, _. split; [reflexivity|]. split; [reflexivity|].
    eexists [_]. reflexivity.
Qed.

(** C7: with the pipeline loaded and [predict] returned, let
    [markdown_list] be the Markdown of the saved pages in page order.  If
    the pipeline has no [concatenate_markdown_pages], [parse] writes to
    [result.md] (and returns as ["markdown"]) the texts of [markdown_list]
    joined with the separator of two newlines, three dashes and two
    newlines; if it has one, [parse] writes what that method returns. *)
Theorem parse_merges_markdown self file_path output_path kwargs
    (w w1 : World) pipeline pages :
  _load_pipeline Json PaddleOCRVL self w = (Ok pipeline, w1) ->
  predict Json pipeline (predict_params (path_of file_path) kwargs)
    = Ok pages ->
  let markdown_list :=
    omap page_markdown (restructure Json pipeline kwargs pages) in
  let result_md := path_join (path_of output_path) (lit "result.md") in
  (concatenate_markdown_pages Json pipeline = None ->
   forall texts,
     Forall2 (fun md t => md_text md = Ok t) markdown_list texts ->
     exists res w2 later,
       parse self file_path output_path kwargs w = (Ok res, w2) /\
       markdown_text Json res = join (lit "

---

") texts /\
       written Json w2
       = later ++ (result_md, Text Json (join (lit "

---

") texts))
               :: written Json w1) /\
  (forall concat text,
     concatenate_markdown_pages Json pipeline = Some concat ->
     concat markdown_list = Ok text ->
     exists res w2 later,
       parse self file_path output_path kwargs w = (Ok res, w2) /\
       markdown_text Json res = text /\
       written Json w2 = later ++ (result_md, Text Json text) :: written Json w1).
Proof.
  intros Hload Hpredict markdown_list result_md. split.
  - intros Hnone texts Htexts.
    destruct (parse_writes_merge self file_path output_path kwargs w w1
                pipeline pages (join separator texts) Hload Hpredict)
      as (res & w2 & Hp & Hm & later & Hw).
    { apply merge_fallback; assumption. }
    exists res, w2, later. auto.
  - intros concat text Hsome Hconcat.
    destruct (parse_writes_merge self file_path output_path kwargs w w1
                pipeline pages text Hload Hpredict)
      as (res & w2 & Hp & Hm & later & Hw).
    { unfold merge_markdown. rewrite Hsome. exact Hconcat. }
    exists res, w2, later. auto.
Qed.

End EngineParse.

Example parse_two_pages :
  let '(r, w) := Engine.parse unit (fun _ => Ok two_pages) 0%nat
                   (lit "/in/a.pdf") (lit "/out/t") ∅ two_pages_world in
  (match r with
   | Ok res => Some (Engine.markdown_text unit res) | Raise _ => None
   end) = Some (lit "# A

---

# B") /\
  Engine.written unit w
  = [(path_of (lit "/out/t/result.md"), Engine.Text unit (lit "# A

---

# B"))].
Proof. vm_compute. auto. Qed.

Lemma parse_merges_markdown_witness :
  exists res w2 later,
    Engine.parse unit (fun _ => Ok two_pages) 0%nat
      (lit "/in/a.pdf") (lit "/out/t") ∅ two_pages_world = (Ok res, w2) /\
    Engine.markdown_text unit res = lit "# A

---

# B" /\
    Engine.written unit w2
    = later ++ (path_join (path_of (lit "/out/t")) (lit "result.md"),
                Engine.Text unit (lit "# A

---

# B")) :: [].
Proof.
  pose proof (parse_merges_markdown (Json := unit) (fun _ => Ok two_pages)
                0%nat (lit "/in/a.pdf") (lit "/out/t") ∅ two_pages_world
                (snd (Engine._load_pipeline unit (fun _ => Ok two_pages)
                        0%nat two_pages_world))
                two_pages [str_page "# A"; str_page "# B"]) as H.
  destruct H as [H _]; [vm_compute; reflexivity | reflexivity |].
  exact (H eq_refl [lit "# A"; lit "# B"] ltac:(repeat constructor)).
Defined.

(** *** api_server: authorization of the status endpoint *)

Section StatusAuthorization.

Import ApiServer.

Variable env : Env.

Lemma set_data_metadata d m r : metadata (set_data d m r) = metadata r.
Proof. reflexivity. Qed.



End StatusAuthorization.


Example get_task_status_owner_and_admin :
  (exists r w, ApiServer.get_task_status env0 (lit "T") false (lit "markdown")
                 alice world0 = (Ok r, w)
               /\ ApiServer.Response.status r = ApiServer.completed) /\
  (exists r w, ApiServer.get_task_status env0 (lit "T") false (lit "markdown")
                 admin world0 = (Ok r, w)
               /\ ApiServer.Response.status r = ApiServer.completed).
Proof. split; eexists _, _; (split; [vm_compute; reflexivity | reflexivity]). Qed.

(** *** api_server: cancellation *)

Section Cancel.

Import ApiServer.

Variable env : Env.

Lemma unlink_tasks p w : tasks (snd (unlink env p w)) = tasks w.
Proof.
  unfold unlink. destruct (lookup_path (fs w) p) as [[content| |]|];
    try reflexivity.
  destruct (write_ok env p); reflexivity.
Qed.

(** C2, as amended: an authorized caller who cancels a task that is not
    pending gets HTTP 400 and the state is untouched; a pending task is
    set to cancelled. *)
Theorem cancel_task_only_pending
    task_id (current_user : User.t) (w : World) (task : Task.t) :
  tasks w !! task_id = Some task ->
  User.has_permission current_user TASK_DELETE_ALL = true \/
  Task.user_id task = Some (User.user_id current_user) ->
  (Task.status task <> pending ->
   cancel_task env task_id current_user w
   = (Raise (HTTPException 400
        (lit "Cannot cancel task in " ++ status_str (Task.status task)
           ++ lit " status")), w)) /\
  (Task.status task = pending ->
   tasks (snd (cancel_task env task_id current_user w)) !! task_id
   = Some (Task.set_status cancelled task)).
Proof.
  intros Htask Hauth.
  assert (negb (User.has_permission current_user TASK_DELETE_ALL)
          && negb (bool_decide
                     (Task.user_id task = Some (User.user_id current_user)))
          = false) as Hgate.
  { destruct Hauth as [-> | ->]; [reflexivity|].
    rewrite bool_decide_eq_true_2 by reflexivity. apply andb_false_r. }
  split; intros Hst.
  - unfold cancel_task, bind, get_task. rewrite Htask, Hgate.
    destruct (Task.status task); try reflexivity. contradiction.
  - unfold cancel_task, bind, get_task. rewrite Htask, Hgate, Hst.
    unfold update_task_status, modify, exists_. simpl.
    assert (alter (Task.set_status cancelled) task_id (tasks w) !! task_id
            = Some (Task.set_status cancelled task)) as Hrow.
    { rewrite lookup_alter_eq, Htask. reflexivity. }
    destruct (lookup_path (fs w) (path_of (Task.file_path task)))
      as [[content| |]|]; simpl; try exact Hrow.
    all: match goal with |- context [unlink env ?p ?w1] =>
           pose proof (unlink_tasks p w1) as Hu;
           destruct (unlink env p w1) as [[[]|e] w2] end;
         simpl in *; rewrite Hu; exact Hrow.
Qed.

End Cancel.

Lemma cancel_task_only_pending_witness :
  ApiServer.cancel_task env0 (lit "R") alice world0
  = (Raise (HTTPException 400 (lit "Cannot cancel task in processing status")),
     world0).
Proof.
  apply (cancel_task_only_pending env0 (lit "R") alice world0 task_R).
  - vm_compute. reflexivity.
  - right. reflexivity.
  - vm_compute. discriminate.
Defined.

Example cancel_pending_task :
  let '(r, w) := ApiServer.cancel_task env0 (lit "P") alice world0 in
  (ApiServer.cancel_success <$>
     match r with Ok c => Some c | Raise _ => None end) = Some true /\
  (ApiServer.Task.status <$> ApiServer.tasks w !! lit "P")
    = Some ApiServer.cancelled /\
  ApiServer.lookup_path (ApiServer.fs w) (path_of (lit "/app/uploads/u1_a.pdf"))
    = None.
Proof. vm_compute. auto. Qed.

(** C2 as stated fails: the owner who cancels a task that is being
    processed does not get HTTP 409. *)
Lemma cancel_non_pending_not_409 :
  ~ (forall env task_id (u : ApiServer.User.t) (w : ApiServer.World)
            (task : ApiServer.Task.t),
        ApiServer.tasks w !! task_id = Some task ->
        ApiServer.Task.status task <> ApiServer.pending ->
        ApiServer.User.has_permission u ApiServer.TASK_DELETE_ALL = true \/
        ApiServer.Task.user_id task = Some (ApiServer.User.user_id u) ->
        exists detail,
          ApiServer.cancel_task env task_id u w
          = (Raise (HTTPException 409 detail), w)).
Proof.
  intros H.
  destruct (H env0 (lit "R") alice world0 task_R) as [detail Hd].
  - vm_compute. reflexivity.
  - vm_compute. discriminate.
  - right. reflexivity.
  - vm_compute in Hd. discriminate.
Qed.

(** *** api_server: the static file service *)

Section ServeOutput.

Import ApiServer.

Variable env : Env.

(** What the check of the handler rejects: a resolved path whose string
    does not start with the string of the resolved output root. *)
Lemma serve_output_file_rejects_non_prefix file_path (w : World) p r :
  resolve env (path_join (OUTPUT_DIR env) (unquote file_path)) = Ok p ->
  resolve env (OUTPUT_DIR env) = Ok r ->
  startswith (path_str p) (path_str r) = false ->
  serve_output_file env file_path w
  = (Raise (HTTPException 403 (lit "Invalid path")), w).
Proof.
  intros Hp Hr Hprefix.
  unfold serve_output_file, try_except, bind, lift.
  rewrite Hp, Hr, Hprefix. reflexivity.
Qed.

(** A path that cannot be resolved is rejected as well. *)
Lemma serve_output_file_rejects_unresolved file_path (w : World) e :
  resolve env (path_join (OUTPUT_DIR env) (unquote file_path)) = Raise e ->
  serve_output_file env file_path w
  = (Raise (HTTPException 403 (lit "Invalid path")), w).
Proof.
  intros Hp. unfold serve_output_file, try_except, bind, lift.
  rewrite Hp. reflexivity.
Qed.

End ServeOutput.

Example serve_output_file_image :
  ApiServer.serve_output_file env0 (lit "T/images/x.png") world0
  = (Ok {| ApiServer.path := lit "/app/output/T/images/x.png";
           ApiServer.media_type := lit "application/octet-stream";
           ApiServer.filename := lit "x.png" |}, world0).
Proof. vm_compute. reflexivity. Qed.

Example serve_output_file_parent_rejected :
  ApiServer.serve_output_file env0 (lit "../uploads/u1_a.pdf") world0
  = (Raise (HTTPException 403 (lit "Invalid path")), world0).
Proof. vm_compute. reflexivity. Qed.

(** C1 fails on the code: with the output root [/app/output], the request
    path [%2e%2e/output2/secret.txt] resolves to [/app/output2/secret.txt],
    which is not below the resolved root, and the file is served. *)
Theorem serve_output_file_serves_sibling_of_root :
  let request := lit "%2e%2e/output2/secret.txt" in
  exists p r,
    ApiServer.resolve env0
      (path_join (ApiServer.OUTPUT_DIR env0) (unquote request)) = Ok p /\
    ApiServer.resolve env0 (ApiServer.OUTPUT_DIR env0) = Ok r /\
    path_str p = lit "/app/output2/secret.txt" /\
    path_str r = lit "/app/output" /\
    ApiServer.is_relative_to p r = false /\
    ApiServer.serve_output_file env0 request world0
    = (Ok {| ApiServer.path := lit "/app/output2/secret.txt";
             ApiServer.media_type := lit "application/octet-stream";
             ApiServer.filename := lit "secret.txt" |}, world0).
Proof.
  eexists _, _. split; [vm_compute; reflexivity|].
  split; [vm_compute; reflexivity|].
  repeat split; vm_compute; reflexivity.
Qed.

(** *** api_server: Markdown image rewriting *)

Section Strings.

Lemma chr_eqb_eq (a b : N) : chr_eqb a b = true <-> a = b.
Proof. apply N.eqb_eq. Qed.


Lemma startswith_prefix (p rest : pystr) : startswith (p ++ rest) p = true.
Proof.
  induction p as [|c p IH]; [reflexivity|]. simpl.
  rewrite IH, andb_true_r. apply chr_eqb_eq. reflexivity.
Qed.


Lemma replace_chr_length a b (s : pystr) :
  length (replace_chr a b s) = length s.
Proof. apply List.length_map. Qed.


Lemma utf8_encode_app (a b : pystr) :
  utf8_encode (a ++ b)
  = match utf8_encode a, utf8_encode b with
    | Some x, Some y => Some (x ++ y)
    | _, _ => None
    end.
Proof.
  induction a as [|c a IH]; simpl.
  - destruct (utf8_encode b); reflexivity.
  - rewrite IH. destruct (utf8_encode_chr c) as [bc|]; [|reflexivity].
    destruct (utf8_encode a) as [x|]; [|reflexivity].
    destruct (utf8_encode b) as [y|]; [|reflexivity].
    rewrite app_assoc. reflexivity.
Qed.


End Strings.

Section Matching.

Local Abbreviation result := (gmap nat pystr * pystr)%type.









Lemma match_at_inv r s m rest :
  match_at r s = Some (m, rest) ->
  (groups m, rest) ∈ run r ∅ s /\
  group0 m = take (length s - length rest) s.
Proof.
  unfold match_at. destruct (run r ∅ s) as [|[caps rest'] l]; [discriminate|].
  intros [= <- <-]. simpl. split; [left|reflexivity].
Qed.



End Matching.

Section Substitution.

Context {S : Type}.
Variables (r : regex) (repl : Match -> M S pystr).

(** A replacement function that keeps an invariant of the state and does
    not raise makes the substitution do the same. *)
Lemma re_sub_from_returns (I : S -> Prop) :
  (forall m w, I w -> exists out w', repl m w = (Ok out, w') /\ I w') ->
  forall s skip w, I w ->
    exists out w', re_sub_from r repl skip s w = (Ok out, w') /\ I w'.
Proof.
  intros Hrepl s.
  induction s as [|c s IH]; intros skip w Hw.
  - destruct skip; simpl; [|unfold ret; eauto].
    destruct (match_at r []) as [[m rest]|]; [|unfold ret; eauto].
    unfold bind. destruct (Hrepl m w Hw) as (out & w' & -> & Hw').
    unfold ret; eauto.
  - destruct skip as [|k]; simpl; [|apply IH, Hw].
    destruct (match_at r (c :: s)) as [[m rest]|].
    + unfold bind at 1. destruct (Hrepl m w Hw) as (out & w' & -> & Hw').
      destruct (length (group0 m)) as [|k]; unfold bind;
        [destruct (IH O w' Hw') as (tail & w'' & -> & Hw'')
        |destruct (IH k w' Hw') as (tail & w'' & -> & Hw'')];
        unfold ret; eauto.
    + unfold bind. destruct (IH O w Hw) as (tail & w' & -> & Hw').
      unfold ret; eauto.
Qed.

(** A replacement function that keeps a part [part] of the state makes
    the substitution keep it, whether it returns or raises. *)
Lemma re_sub_from_keeps {X} (part : S -> X) :
  (forall m w, part (snd (repl m w)) = part w) ->
  forall s skip w, part (snd (re_sub_from r repl skip s w)) = part w.
Proof.
  intros Hrepl s.
  induction s as [|c s IH]; intros skip w.
  - destruct skip; simpl; [|reflexivity].
    destruct (match_at r []) as [[m rest]|]; [|reflexivity].
    unfold bind. pose proof (Hrepl m w) as Hm.
    destruct (repl m w) as [[out|e] w']; simpl in *; exact Hm.
  - destruct skip as [|k]; simpl; [|apply IH].
    destruct (match_at r (c :: s)) as [[m rest]|].
    + unfold bind. pose proof (Hrepl m w) as Hm.
      destruct (repl m w) as [[out|e] w']; simpl in *; [|exact Hm].
      rewrite <- Hm.
      destruct (length (group0 m)) as [|k];
        [pose proof (IH O w') as Ht; destruct (re_sub_from r repl O s w')
           as [[tail|e] w'']
        |pose proof (IH k w') as Ht; destruct (re_sub_from r repl k s w')
           as [[tail|e] w'']]; simpl in *; exact Ht.
    + unfold bind. pose proof (IH O w) as Ht.
      destruct (re_sub_from r repl O s w) as [[tail|e] w']; simpl in *;
        exact Ht.
Qed.

(** A replacement function that leaves the state alone makes the
    substitution leave it alone, whether it returns or raises. *)
Lemma re_sub_from_frame :
  (forall m w, snd (repl m w) = w) ->
  forall s skip w, snd (re_sub_from r repl skip s w) = w.
Proof.
  intros Hrepl s.
  induction s as [|c s IH]; intros skip w.
  - destruct skip; simpl; [|reflexivity].
    destruct (match_at r []) as [[m rest]|]; [|reflexivity].
    unfold bind. pose proof (Hrepl m w) as Hm.
    destruct (repl m w) as [[out|e] w']; simpl in *; exact Hm.
  - destruct skip as [|k]; simpl; [|apply IH].
    destruct (match_at r (c :: s)) as [[m rest]|].
    + unfold bind at 1. pose proof (Hrepl m w) as Hm.
      destruct (repl m w) as [[out|e] w']; simpl in *; [|exact Hm]. subst w'.
      destruct (length (group0 m)) as [|k]; unfold bind;
        [pose proof (IH O w) as Ht; destruct (re_sub_from r repl O s w)
           as [[tail|e] w'']
        |pose proof (IH k w) as Ht; destruct (re_sub_from r repl k s w)
           as [[tail|e] w'']]; simpl in *; exact Ht.
    + unfold bind. pose proof (IH O w) as Ht.
      destruct (re_sub_from r repl O s w) as [[tail|e] w']; simpl in *;
        exact Ht.
Qed.

(** In two states that a replacement function leaves alone and in which it
    answers alike, the substitution answers alike. *)
Lemma re_sub_from_agree (w1 w2 : S) :
  (forall m, snd (repl m w1) = w1) ->
  (forall m, snd (repl m w2) = w2) ->
  (forall m, fst (repl m w1) = fst (repl m w2)) ->
  forall s skip,
    fst (re_sub_from r repl skip s w1) = fst (re_sub_from r repl skip s w2).
Proof.
  intros H1 H2 H12 s.
  induction s as [|c s IH]; intros skip.
  - destruct skip; simpl; [|reflexivity].
    destruct (match_at r []) as [[m rest]|]; [|reflexivity].
    unfold bind. pose proof (H1 m) as Hm1. pose proof (H2 m) as Hm2.
    pose proof (H12 m) as Hm.
    destruct (repl m w1) as [[out1|e1] w1'], (repl m w2) as [[out2|e2] w2'];
      unfold ret in *; simpl in *; congruence.
  - destruct skip as [|k]; simpl; [|apply IH].
    destruct (match_at r (c :: s)) as [[m rest]|].
    + unfold bind. pose proof (H1 m) as Hm1. pose proof (H2 m) as Hm2.
      pose proof (H12 m) as Hm.
      destruct (repl m w1) as [[out1|e1] w1'], (repl m w2) as [[out2|e2] w2'];
        unfold ret in *; simpl in *; try congruence. subst w1' w2'.
      injection Hm as ->.
      destruct (length (group0 m)) as [|k];
        [pose proof (IH O) as Ht | pose proof (IH k) as Ht];
        match type of Ht with fst ?a = fst ?b =>
          destruct a as [[t1|e1] w1'], b as [[t2|e2] w2'] end;
        simpl in *; congruence.
    + unfold bind. pose proof (IH O) as Ht.
      match type of Ht with fst ?a = fst ?b =>
        destruct a as [[t1|e1] w1'], b as [[t2|e2] w2'] end;
      unfold ret in *; simpl in *; congruence.
Qed.


End Substitution.

Section Shapes.

Import ApiServer.





End Shapes.

Section Rewriting.

Import ApiServer.

Variable env : Env.
Variables (image_dir : Path) (result_path : pystr).

(** The file an image path refers to. *)
Local Abbreviation target image_path :=
  (path_join image_dir (path_name (path_of image_path))).

Lemma upload_image_fs p (w : World) :
  fs (snd (upload_image env p w)) = fs w.
Proof.
  unfold upload_image. destruct (minio_client_ok env); [|reflexivity].
  destruct (fput_ok env (uuids w)); reflexivity.
Qed.

(** The local strategy: what [process_image_path] does without upload. *)
Lemma process_image_path_local image_path alt_text (w : World) :
  process_image_path env image_dir result_path false image_path alt_text w
  = (match lookup_path (fs w) (target image_path) with
     | None => Ok None
     | Some Broken => Raise (Exception "OSError")
     | Some _ =>
         Ok ((fun url => (url, "markdown"%string))
               <$> static_url env result_path (path_name (path_of image_path)))
     end, w).
Proof.
  unfold process_image_path, bind, exists_.
  destruct (lookup_path (fs w) (target image_path)) as [[content| |]|];
    simpl; try reflexivity;
    destruct (static_url env result_path _); reflexivity.
Qed.

(** With or without upload, [process_image_path] raises only when the stat
    of the file fails, and never touches the filesystem. *)
Lemma process_image_path_outcome up image_path alt_text (w : World) :
  fs (snd (process_image_path env image_dir result_path up image_path
             alt_text w)) = fs w /\
  (lookup_path (fs w) (target image_path) <> Some Broken ->
   exists res, fst (process_image_path env image_dir result_path up
                      image_path alt_text w) = Ok res).
Proof.
  destruct up; [|rewrite process_image_path_local; split; [reflexivity|];
    intros Hok; destruct (lookup_path (fs w) (target image_path))
      as [[content| |]|]; simpl; eauto; contradiction].
  unfold process_image_path, bind, exists_, try_except.
  destruct (lookup_path (fs w) (target image_path)) as [[content| |]|];
    simpl; try (split; [reflexivity|]; intros Hok; eauto; contradiction).
  all: pose proof (upload_image_fs (target image_path) w) as Hfs;
    destruct (upload_image env (target image_path) w) as [[url|e] w'];
    simpl in *; unfold ret;
    try destruct (static_url env result_path _); simpl; eauto.
Qed.

Lemma replace_md_image_outcome up m (w : World) :
  fs (snd (replace_md_image env image_dir result_path up m w)) = fs w /\
  (lookup_path (fs w) (target (default [] (group m 2))) <> Some Broken ->
   exists out, fst (replace_md_image env image_dir result_path up m w)
               = Ok out).
Proof.
  unfold replace_md_image, bind.
  pose proof (process_image_path_outcome up (default [] (group m 2))
                (default [] (group m 1)) w) as [Hfs Hok].
  destruct (process_image_path env image_dir result_path up _ _ w)
    as [[res|e] w']; simpl in *.
  - split; [destruct (url_of res); exact Hfs|].
    intros _. destruct (url_of res); simpl; eauto.
  - split; [exact Hfs|]. intros Hb. destruct (Hok Hb) as [res Hres].
    discriminate.
Qed.

Lemma replace_html_image_outcome up m (w : World) :
  fs (snd (replace_html_image env image_dir result_path up m w)) = fs w /\
  (lookup_path (fs w) (target (default [] (group m 2))) <> Some Broken ->
   exists out, fst (replace_html_image env image_dir result_path up m w)
               = Ok out).
Proof.
  unfold replace_html_image, bind.
  match goal with |- context [process_image_path env _ _ up ?ip ?alt w] =>
    pose proof (process_image_path_outcome up ip alt w) as [Hfs Hok];
    destruct (process_image_path env image_dir result_path up ip alt w)
      as [[res|e] w'] end; simpl in *.
  - split; [destruct (url_of res); exact Hfs|].
    intros _. destruct (url_of res); simpl; eauto.
  - split; [exact Hfs|]. intros Hb. destruct (Hok Hb) as [res Hres].
    discriminate.
Qed.

Local Abbreviation stat_safe := (ApiServer.stat_safe image_dir).

Lemma rewrite_images_returns md_content up (w : World) :
  stat_safe w ->
  exists out w',
    rewrite_images env md_content image_dir result_path up w = (Ok out, w').
Proof.
  intros Hsafe. unfold rewrite_images, bind, re_sub.
  destruct (re_sub_from_returns md_img_pattern
              (replace_md_image env image_dir result_path up) stat_safe)
    with (s := md_content) (skip := O) (w := w)
    as (out1 & w1 & -> & Hsafe1); [|exact Hsafe|].
  { intros m w0 Hw0.
    pose proof (replace_md_image_outcome up m w0) as [Hfs Hok].
    destruct (Hok (Hw0 _)) as [out Hout].
    destruct (replace_md_image env image_dir result_path up m w0)
      as [o w0'] eqn:Hr. simpl in *. subst o.
    exists out, w0'. split; [reflexivity|].
    intros name. rewrite Hfs. apply Hw0. }
  destruct (re_sub_from_returns html_img_pattern
              (replace_html_image env image_dir result_path up) stat_safe)
    with (s := out1) (skip := O) (w := w1)
    as (out2 & w2 & -> & Hsafe2); [|exact Hsafe1|eauto].
  intros m w0 Hw0.
  pose proof (replace_html_image_outcome up m w0) as [Hfs Hok].
  destruct (Hok (Hw0 _)) as [out Hout].
  destruct (replace_html_image env image_dir result_path up m w0)
    as [o w0'] eqn:Hr. simpl in *. subst o.
  exists out, w0'. split; [reflexivity|].
  intros name. rewrite Hfs. apply Hw0.
Qed.

Lemma replace_md_image_local_frame m (w : World) :
  snd (replace_md_image env image_dir result_path false m w) = w.
Proof.
  unfold replace_md_image, bind. rewrite process_image_path_local.
  destruct (lookup_path (fs w) _) as [[content| |]|]; simpl;
    try reflexivity;
    destruct (static_url env result_path _) as [[|c url]|]; reflexivity.
Qed.

Lemma replace_html_image_local_frame m (w : World) :
  snd (replace_html_image env image_dir result_path false m w) = w.
Proof.
  unfold replace_html_image, bind. rewrite process_image_path_local.
  destruct (lookup_path (fs w) _) as [[content| |]|]; simpl;
    try reflexivity;
    destruct (static_url env result_path _) as [[|c url]|]; reflexivity.
Qed.

Lemma rewrite_images_local_frame md_content (w : World) :
  snd (rewrite_images env md_content image_dir result_path false w) = w.
Proof.
  unfold rewrite_images, bind, re_sub.
  pose proof (re_sub_from_frame md_img_pattern
                (replace_md_image env image_dir result_path false)
                replace_md_image_local_frame md_content O w) as H1.
  destruct (re_sub_from md_img_pattern _ O md_content w) as [[out1|e] w1];
    simpl in *; subst w1; [|reflexivity].
  apply (re_sub_from_frame html_img_pattern
           (replace_html_image env image_dir result_path false)
           replace_html_image_local_frame).
Qed.

Lemma process_markdown_images_local_returns md_content (w : World) :
  exists out,
    process_markdown_images env md_content image_dir result_path false w
    = (Ok out, w).
Proof.
  unfold process_markdown_images, try_except.
  pose proof (rewrite_images_local_frame md_content w) as Hframe.
  destruct (rewrite_images env md_content image_dir result_path false w)
    as [[out|e] w']; simpl in *; subst w'; unfold ret; eauto.
Qed.

Lemma replace_md_image_local_agree m (w1 w2 : World) :
  same_images image_dir w1 w2 ->
  fst (replace_md_image env image_dir result_path false m w1)
  = fst (replace_md_image env image_dir result_path false m w2).
Proof.
  intros Hsame. unfold replace_md_image, bind.
  rewrite !process_image_path_local, Hsame.
  destruct (lookup_path (fs w2) _) as [[content| |]|]; simpl;
    try reflexivity;
    destruct (static_url env result_path _) as [[|c url]|]; reflexivity.
Qed.

Lemma replace_html_image_local_agree m (w1 w2 : World) :
  same_images image_dir w1 w2 ->
  fst (replace_html_image env image_dir result_path false m w1)
  = fst (replace_html_image env image_dir result_path false m w2).
Proof.
  intros Hsame. unfold replace_html_image, bind.
  rewrite !process_image_path_local, Hsame.
  destruct (lookup_path (fs w2) _) as [[content| |]|]; simpl;
    try reflexivity;
    destruct (static_url env result_path _) as [[|c url]|]; reflexivity.
Qed.

Lemma rewrite_images_local_agree md_content (w1 w2 : World) :
  same_images image_dir w1 w2 ->
  fst (rewrite_images env md_content image_dir result_path false w1)
  = fst (rewrite_images env md_content image_dir result_path false w2).
Proof.
  intros Hsame. unfold rewrite_images, bind, re_sub.
  pose proof (re_sub_from_agree md_img_pattern
                (replace_md_image env image_dir result_path false) w1 w2
                (fun m => replace_md_image_local_frame m w1)
                (fun m => replace_md_image_local_frame m w2)
                (fun m => replace_md_image_local_agree m w1 w2 Hsame)
                md_content O) as Hfst.
  pose proof (re_sub_from_frame md_img_pattern
                (replace_md_image env image_dir result_path false)
                replace_md_image_local_frame md_content O w1) as Hw1.
  pose proof (re_sub_from_frame md_img_pattern
                (replace_md_image env image_dir result_path false)
                replace_md_image_local_frame md_content O w2) as Hw2.
  destruct (re_sub_from md_img_pattern _ O md_content w1) as [[o1|e1] w1'],
           (re_sub_from md_img_pattern _ O md_content w2) as [[o2|e2] w2'];
    simpl in *; try congruence.
  subst w1' w2'. injection Hfst as ->.
  apply (re_sub_from_agree html_img_pattern
           (replace_html_image env image_dir result_path false) w1 w2
           (fun m => replace_html_image_local_frame m w1)
           (fun m => replace_html_image_local_frame m w2)
           (fun m => replace_html_image_local_agree m w1 w2 Hsame)).
Qed.

(** C5: with [upload_images=False], [process_markdown_images] returns a
    string and leaves the whole state as it found it (no file or directory,
    no task row and no object of the store is changed), and the string it
    returns depends on the state only through the files of [image_dir]. *)
Theorem process_markdown_images_local_is_pure md_content (w : World) :
  (exists out,
     process_markdown_images env md_content image_dir result_path false w
     = (Ok out, w)) /\
  (forall w2 : World,
     (forall name,
        lookup_path (fs w) (path_join image_dir name)
        = lookup_path (fs w2) (path_join image_dir name)) ->
     fst (process_markdown_images env md_content image_dir result_path false w)
     = fst (process_markdown_images env md_content image_dir result_path
              false w2)).
Proof.
  split; [apply process_markdown_images_local_returns|].
  intros w2 Hsame. unfold process_markdown_images, try_except.
  pose proof (rewrite_images_local_agree md_content w w2 Hsame) as Hfst.
  destruct (rewrite_images env md_content image_dir result_path false w)
    as [[o1|e1] w1'],
    (rewrite_images env md_content image_dir result_path false w2)
    as [[o2|e2] w2']; simpl in *; congruence.
Qed.









(** A reference fails when its file is missing, or when its URL cannot be
    built after no upload or a failed one. *)
Local Abbreviation fails up w0 image_path :=
  (lookup_path (fs w0) (target image_path) = None \/
   (static_url env result_path (path_name (path_of image_path)) = None /\
    (up = false \/ minio_client_ok env = false \/
     fput_ok env (uuids w0) = false))).





End Rewriting.

Example s5_rewritten_locally :
  ApiServer.process_markdown_images env0 s5_markdown images_T
    (lit "/app/output/T") false world0
  = (Ok (lit "![cap](/api/v1/files/output/T/images/x.png)
<img src=" ++ [ApiServer.dquote]
         ++ lit "/api/v1/files/output/T/images/x.png" ++ [ApiServer.dquote]
         ++ lit " alt=" ++ [ApiServer.dquote] ++ lit "y"
         ++ [ApiServer.dquote] ++ lit ">"), world0).
Proof. vm_compute. reflexivity. Qed.

Example s5_rewritten_with_upload :
  fst (ApiServer.process_markdown_images env0 s5_markdown images_T
         (lit "/app/output/T") true world0)
  = Ok (lit "![cap](https://minio.example.com/tianshu/images/uuid-0.png)
<img src=" ++ [ApiServer.dquote]
         ++ lit "https://minio.example.com/tianshu/images/uuid-1.png"
         ++ [ApiServer.dquote]
         ++ lit " alt=" ++ [ApiServer.dquote] ++ lit "y"
         ++ [ApiServer.dquote] ++ lit ">").
Proof. vm_compute. reflexivity. Qed.

Example missing_reference_left_alone :
  fst (ApiServer.process_markdown_images env0 mixed_markdown images_T
         (lit "/app/output/T") false world0)
  = Ok (lit "![m](missing.png) ![cap](/api/v1/files/output/T/images/x.png)
<img src=" ++ [ApiServer.dquote]
         ++ lit "/api/v1/files/output/T/images/x.png" ++ [ApiServer.dquote]
         ++ lit " alt=" ++ [ApiServer.dquote] ++ lit "y"
         ++ [ApiServer.dquote] ++ lit ">").
Proof. vm_compute. reflexivity. Qed.

Example missing_reference_left_alone_with_upload :
  fst (ApiServer.process_markdown_images env0 mixed_markdown images_T
         (lit "/app/output/T") true world0)
  = Ok (lit "![m](missing.png) ![cap](https://minio.example.com/tianshu/images/uuid-0.png)
<img src=" ++ [ApiServer.dquote]
         ++ lit "https://minio.example.com/tianshu/images/uuid-1.png"
         ++ [ApiServer.dquote]
         ++ lit " alt=" ++ [ApiServer.dquote] ++ lit "y"
         ++ [ApiServer.dquote] ++ lit ">").
Proof. vm_compute. reflexivity. Qed.

(** A stat that fails is an exception of the rewriting: the document comes
    back as it was, after the upload of the image before it. *)
Example failed_stat_returns_document :
  let md_content := lit "![cap](figs/x.png) ![l](locked.png)" in
  let r := ApiServer.process_markdown_images env0 md_content images_T
             (lit "/app/output/T") true world_unreadable in
  fst r = Ok md_content /\ length (ApiServer.objects (snd r)) = 1%nat.
Proof. vm_compute. split; reflexivity. Qed.

(** The second pass reads what the first one gave: a tag inside a Markdown
    image that the first pass copied is rewritten by the second. *)
Example tag_inside_markdown_image :
  fst (ApiServer.process_markdown_images env0 nested_markdown images_T
         (lit "/app/output/T") false world0)
  = Ok (lit "![a](<img src=" ++ [ApiServer.dquote]
          ++ lit "/api/v1/files/output/T/images/x.png"
          ++ [ApiServer.dquote] ++ lit ">)").
Proof. vm_compute. reflexivity. Qed.

Example quote_percent_encodes :
  quote (lit "my task/a b.png") [slash] = Some (lit "my%20task/a%20b.png").
Proof. vm_compute. reflexivity. Qed.


Lemma process_markdown_images_local_is_pure_witness :
  snd (ApiServer.process_markdown_images env0 s5_markdown images_T
         (lit "/app/output/T") false world0) = world0.
Proof.
  destruct (proj1 (process_markdown_images_local_is_pure env0 images_T
                     (lit "/app/output/T") s5_markdown world0)) as [out ->].
  reflexivity.
Defined.


(** *** api_server: the cache of the rewritten Markdown *)

Section Cache.

Import ApiServer.

Variable env : Env.

(** The part of the state that the rewriting never touches. *)
Local Abbreviation kept w := (fs w, tasks w).

Lemma upload_image_keeps p (w : World) :
  kept (snd (upload_image env p w)) = kept w.
Proof.
  unfold upload_image. destruct (minio_client_ok env); [|reflexivity].
  destruct (fput_ok env (uuids w)); reflexivity.
Qed.

Lemma process_image_path_keeps d rp up ip alt (w : World) :
  kept (snd (process_image_path env d rp up ip alt w)) = kept w.
Proof.
  unfold process_image_path, bind, exists_, try_except.
  destruct (lookup_path (fs w) _) as [[content| |]|]; simpl;
    try reflexivity.
  all: destruct up; simpl;
    [pose proof (upload_image_keeps
                   (path_join d (path_name (path_of ip))) w) as Hk;
     destruct (upload_image env _ w) as [[url|e] w']; simpl in *
    |]; unfold ret; try destruct (static_url env rp _); simpl;
    first [exact Hk | reflexivity].
Qed.

Lemma replace_md_image_keeps d rp up m (w : World) :
  kept (snd (replace_md_image env d rp up m w)) = kept w.
Proof.
  unfold replace_md_image, bind.
  match goal with |- context [process_image_path env d rp up ?ip ?alt w] =>
    pose proof (process_image_path_keeps d rp up ip alt w) as Hk;
    destruct (process_image_path env d rp up ip alt w) as [[res|e] w'] end;
    simpl in *; [destruct (url_of res)|]; exact Hk.
Qed.

Lemma replace_html_image_keeps d rp up m (w : World) :
  kept (snd (replace_html_image env d rp up m w)) = kept w.
Proof.
  unfold replace_html_image, bind.
  match goal with |- context [process_image_path env d rp up ?ip ?alt w] =>
    pose proof (process_image_path_keeps d rp up ip alt w) as Hk;
    destruct (process_image_path env d rp up ip alt w) as [[res|e] w'] end;
    simpl in *; [destruct (url_of res)|]; exact Hk.
Qed.

(** Whatever the flag, [process_markdown_images] returns and keeps the
    files and the task rows. *)
Lemma process_markdown_images_keeps md d rp up (w : World) :
  exists out w',
    process_markdown_images env md d rp up w = (Ok out, w') /\
    fs w' = fs w /\ tasks w' = tasks w.
Proof.
  assert (kept (snd (rewrite_images env md d rp up w)) = kept w) as Hk.
  { unfold rewrite_images, bind, re_sub.
    pose proof (re_sub_from_keeps md_img_pattern
                  (replace_md_image env d rp up) (fun w => kept w)
                  (replace_md_image_keeps d rp up) md O w) as H1.
    destruct (re_sub_from md_img_pattern _ O md w) as [[out1|e] w1];
      simpl in *; [|exact H1].
    rewrite <- H1.
    apply (re_sub_from_keeps html_img_pattern
             (replace_html_image env d rp up) (fun w => kept w)
             (replace_html_image_keeps d rp up)). }
  unfold process_markdown_images, try_except.
  destruct (rewrite_images env md d rp up w) as [[out|e] w'];
    simpl in Hk; injection Hk as Hfs Htasks; unfold ret; eauto.
Qed.

Lemma lookup_store p c entries q :
  lookup_path (store p c entries) q
  = if decide (q = p) then Some (File (Some c)) else lookup_path entries q.
Proof.
  unfold lookup_path.
  induction entries as [|[p0 n0] entries IH]; simpl.
  - destruct (decide (q = p)) as [->|Hne].
    + rewrite bool_decide_eq_true_2 by reflexivity. reflexivity.
    + rewrite bool_decide_eq_false_2 by congruence. reflexivity.
  - destruct (decide (p0 = p)) as [->|Hp0].
    + rewrite bool_decide_eq_true_2 by reflexivity. simpl.
      destruct (decide (q = p)) as [->|Hne].
      * rewrite bool_decide_eq_true_2 by reflexivity. reflexivity.
      * rewrite (bool_decide_eq_false_2 (p = q)) by congruence. reflexivity.
    + rewrite bool_decide_eq_false_2 by exact Hp0. simpl.
      destruct (decide (p0 = q)) as [->|Hq].
      * rewrite bool_decide_eq_true_2 by reflexivity. simpl.
        destruct (decide (q = p)); [contradiction|reflexivity].
      * rewrite bool_decide_eq_false_2 by exact Hq. exact IH.
Qed.

Lemma store_fresh p c entries :
  lookup_path entries p = None ->
  store p c entries = entries ++ [(p, File (Some c))].
Proof.
  unfold lookup_path.
  induction entries as [|[p0 n0] entries IH]; simpl; [reflexivity|].
  destruct (decide (p0 = p)) as [->|Hp0].
  - rewrite bool_decide_eq_true_2 by reflexivity. discriminate.
  - rewrite bool_decide_eq_false_2 by exact Hp0. intros Hnone.
    rewrite IH by exact Hnone. reflexivity.
Qed.

Lemma path_name_join p (key : string) :
  parse_root (lit key) = [] -> parse_parts (lit key) = [lit key] ->
  path_name (path_join p (lit key)) = lit key.
Proof.
  intros Hroot Hparts. unfold path_join, path_name. rewrite Hroot, Hparts.
  simpl. apply List.last_last.
Qed.

(** A new file named [result_minio.md] at the end of the walk does not
    change the main Markdown file. *)
Lemma main_md_file_after_cache md_files cached md_file :
  path_name cached = lit "result_minio.md" ->
  main_md_file md_files = Some md_file ->
  main_md_file (md_files ++ [cached]) = Some md_file /\
  main_md_file (md_files ++ []) = Some md_file.
Proof.
  intros Hname Hmain. rewrite app_nil_r. split; [|exact Hmain].
  unfold main_md_file in *.
  destruct (List.find _ md_files) as [f|] eqn:Hfind.
  - injection Hmain as <-.
    assert (List.find (fun f => str_eqb (path_name f) (lit "result.md"))
              (md_files ++ [cached]) = Some f) as ->; [|reflexivity].
    clear -Hfind. induction md_files as [|g l IH]; [discriminate|].
    simpl in *. destruct (str_eqb (path_name g) (lit "result.md"));
      [exact Hfind|apply IH, Hfind].
  - assert (List.find (fun f => str_eqb (path_name f) (lit "result.md"))
              (md_files ++ [cached]) = None) as ->.
    { clear -Hfind Hname. induction md_files as [|g l IH]; simpl in *.
      - rewrite Hname. reflexivity.
      - destruct (str_eqb (path_name g) (lit "result.md"));
          [discriminate|apply IH, Hfind]. }
    destruct md_files; [discriminate|exact Hmain].
Qed.

Lemma listing_after_cache d suffix entries cached c :
  lookup_path entries cached = None ->
  listing d suffix (store cached c entries) = listing d suffix entries ++ [cached]
  \/ listing d suffix (store cached c entries) = listing d suffix entries ++ [].
Proof.
  intros Hnone. rewrite (store_fresh _ _ _ Hnone). unfold listing.
  rewrite List.filter_app, fmap_app. simpl.
  destruct (below d cached && endswith (path_name cached) suffix); auto.
Qed.

(** The JSON part reads only, and keeps what the Markdown part set. *)
Lemma json_data_keeps format json_files d (w : World) :
  exists d',
    json_data env format json_files d w = (Ok d', w) /\
    Data.content d' = Data.content d /\
    Data.from_cache d' = Data.from_cache d /\
    Data.markdown_file d' = Data.markdown_file d /\
    Data.images_uploaded d' = Data.images_uploaded d.
Proof.
  unfold json_data.
  destruct json_files as [|json_file json_files].
  - destruct (fmt_in format _); unfold ret; eexists; repeat split.
  - destruct (fmt_in format _); [|unfold ret; eexists; repeat split].
    unfold try_except, bind, read_text.
    destruct (lookup_path (fs w) json_file) as [[[text|]| |]|];
      unfold ret, raise; try (eexists; repeat split; fail).
    destruct (json_valid env text); eexists; repeat split.
Qed.

(** The cache file of a Markdown file. *)
Local Abbreviation cache_of md_file :=
  (path_join (path_parent md_file) (lit "result_minio.md")).

Lemma cache_name md_file : path_name (cache_of md_file) = lit "result_minio.md".
Proof. apply path_name_join; reflexivity. Qed.

Lemma markdown_data_hit task_id rp md_file d (w : World) c :
  lookup_path (fs w) (cache_of md_file) = Some (File (Some c)) ->
  exists d',
    markdown_data env task_id rp true md_file d w = (Ok d', w) /\
    Data.content d' = Some c /\ Data.from_cache d' = Some true /\
    Data.markdown_file d' = Some (lit "result_minio.md") /\
    Data.images_uploaded d' = Some true.
Proof.
  intros Hc. unfold markdown_data, bind, exists_, read_text.
  rewrite Hc. cbn beta iota. rewrite Hc. unfold ret.
  eexists. split; [reflexivity|]. simpl.
  rewrite cache_name. auto.
Qed.

(** The guarded write of the cache file. *)
Lemma write_cache_outcome p c (w : World) :
  lookup_path (fs w) p = None ->
  exists w',
    try_except (write_text env p c) (fun _ => ret tt) w = (Ok tt, w') /\
    tasks w' = tasks w /\
    (fs w' = fs w \/ fs w' = store p c (fs w)).
Proof.
  intros Hnone. unfold try_except, write_text, ret.
  destruct (utf8_encode c) as [bytes|]; [|eauto].
  destruct (write_ok env p); [|eauto].
  rewrite Hnone. eexists. split; [reflexivity|]. simpl. auto.
Qed.

(** Without a cache file, the Markdown part keeps the task rows, and it
    changes the files only by writing what it returns to the cache file. *)
Lemma markdown_data_miss task_id rp md_file d (w : World) :
  lookup_path (fs w) (cache_of md_file) = None ->
  exists o w',
    markdown_data env task_id rp true md_file d w = (o, w') /\
    tasks w' = tasks w /\
    (fs w' = fs w \/
     exists c d',
       o = Ok d' /\ Data.content d' = Some c /\
       Data.from_cache d' = Some false /\
       fs w' = store (cache_of md_file) c (fs w)).
Proof.
  intros Hnone. unfold markdown_data, bind, exists_ at 1.
  rewrite Hnone. unfold read_text.
  destruct (lookup_path (fs w) md_file) as [[[md_content|]| |]|];
    try (eexists _, _; split; [reflexivity|]; split; [reflexivity|];
         left; reflexivity).
  unfold exists_.
  destruct (lookup_path (fs w) (path_join (path_parent md_file) (lit "images")))
    as [[content| |]|];
    try (eexists _, _; split; [reflexivity|]; split; [reflexivity|];
         left; reflexivity).
  all: destruct (process_markdown_images_keeps md_content
                   (path_join (path_parent md_file) (lit "images")) rp true w)
         as (out & wp & -> & Hfs & Htasks);
       destruct (write_cache_outcome (cache_of md_file) out wp)
         as (w' & -> & Htasks' & Hfs'); [rewrite Hfs; exact Hnone|];
       unfold ret; eexists _, _; (split; [reflexivity|]);
       (split; [congruence|]);
       destruct Hfs' as [Hfs'|Hfs']; [left; congruence|];
       right; eexists _, _; rewrite <- Hfs; repeat split; exact Hfs'.
Qed.

Lemma load_content_hit task_id rp format md_files json_files md_file
    (w : World) c :
  fmt_in format ["markdown"; "both"]%string = true ->
  main_md_file md_files = Some md_file ->
  lookup_path (fs w) (cache_of md_file) = Some (File (Some c)) ->
  exists d,
    load_content env task_id rp true format md_files json_files w
    = (Ok (Some d), w) /\
    Data.content d = Some c /\ Data.from_cache d = Some true /\
    Data.markdown_file d = Some (lit "result_minio.md").
Proof.
  intros Hfmt Hmain Hc. unfold load_content, try_except, bind.
  rewrite Hfmt, Hmain.
  destruct (markdown_data_hit task_id rp md_file
              (empty_data (match json_files with [] => false | _ => true end))
              w c Hc) as (d1 & -> & Hcontent & Hcache & Hfile & _).
  destruct (json_data_keeps format json_files d1 w)
    as (d2 & -> & Hc2 & Hf2 & Hm2 & _).
  unfold ret. exists d2. split; [reflexivity|]. split; [congruence|].
  split; congruence.
Qed.

Lemma load_content_miss task_id rp format md_files json_files md_file
    (w : World) :
  fmt_in format ["markdown"; "both"]%string = true ->
  main_md_file md_files = Some md_file ->
  lookup_path (fs w) (cache_of md_file) = None ->
  exists o w',
    load_content env task_id rp true format md_files json_files w
    = (Ok o, w') /\
    tasks w' = tasks w /\
    (fs w' = fs w \/
     exists c d,
       o = Some d /\ Data.content d = Some c /\
       Data.from_cache d = Some false /\
       fs w' = store (cache_of md_file) c (fs w)).
Proof.
  intros Hfmt Hmain Hnone. unfold load_content, try_except, bind.
  rewrite Hfmt, Hmain.
  destruct (markdown_data_miss task_id rp md_file
              (empty_data (match json_files with [] => false | _ => true end))
              w Hnone) as (o & w' & -> & Htasks & Hfs).
  destruct o as [d1|e].
  - destruct (json_data_keeps format json_files d1 w')
      as (d2 & -> & Hc2 & Hf2 & _).
    unfold ret. eexists _, _. split; [reflexivity|]. split; [exact Htasks|].
    destruct Hfs as [Hfs|(c & d' & [= <-] & Hc & Hf & Hfs)]; [left; exact Hfs|].
    right. exists c, d2. repeat split; congruence.
  - unfold ret. eexists _, _. split; [reflexivity|]. split; [exact Htasks|].
    destruct Hfs as [Hfs|(c & d' & Hd & _)]; [left; exact Hfs|discriminate].
Qed.

(** The handler on a completed task whose result directory holds a
    Markdown file: the response carries what [load_content] returns. *)
Lemma get_task_status_completed task_id up format (u : User.t) (w : World)
    (task : Task.t) rp md_file :
  tasks w !! task_id = Some task ->
  User.has_permission u TASK_VIEW_ALL = true \/
  Task.user_id task = Some (User.user_id u) ->
  Task.status task = completed ->
  Task.result_path task = Some rp -> rp <> [] ->
  (exists n, lookup_path (fs w) (path_of rp) = Some n /\ n <> Broken) ->
  main_md_file (listing (path_of rp) (lit ".md") (fs w)) = Some md_file ->
  get_task_status env task_id up format u w
  = (let (o, w') :=
       load_content env task_id rp up format
         (listing (path_of rp) (lit ".md") (fs w))
         (List.filter is_json_result (listing (path_of rp) (lit ".json") (fs w)))
         w in
     match o with
     | Ok d => (Ok (set_data d None (base_response task_id task)), w')
     | Raise e => (Raise e, w')
     end).
Proof.
  intros Htask Hauth Hst Hrp Hne (n & Hdir & Hok) Hmain.
  unfold get_task_status, bind, get_task. rewrite Htask.
  assert (negb (User.has_permission u TASK_VIEW_ALL)
          && negb (bool_decide (Task.user_id task = Some (User.user_id u)))
          = false) as ->.
  { destruct Hauth as [-> | ->]; [reflexivity|].
    rewrite bool_decide_eq_true_2 by reflexivity. apply andb_false_r. }
  rewrite Hst, Hrp. destruct rp as [|c rp]; [contradiction|].
  unfold exists_. rewrite Hdir. unfold rglob.
  destruct n; [| |contradiction]; cbn beta iota;
    (destruct (listing (path_of (c :: rp)) (lit ".md") (fs w))
       as [|f md_files]; [discriminate|reflexivity]).
Qed.

Lemma cache_hit task_id format (u : User.t) (w : World) (task : Task.t)
    rp md_file c :
  tasks w !! task_id = Some task ->
  User.has_permission u TASK_VIEW_ALL = true \/
  Task.user_id task = Some (User.user_id u) ->
  Task.status task = completed ->
  Task.result_path task = Some rp -> rp <> [] ->
  (exists n, lookup_path (fs w) (path_of rp) = Some n /\ n <> Broken) ->
  main_md_file (listing (path_of rp) (lit ".md") (fs w)) = Some md_file ->
  fmt_in format ["markdown"; "both"]%string = true ->
  lookup_path (fs w) (cache_of md_file) = Some (File (Some c)) ->
  exists r d,
    get_task_status env task_id true format u w = (Ok r, w) /\
    Response.data r = Some (Some d) /\
    Data.content d = Some c /\ Data.from_cache d = Some true /\
    Data.markdown_file d = Some (lit "result_minio.md").
Proof.
  intros Htask Hauth Hst Hrp Hne Hdir Hmain Hfmt Hc.
  rewrite (get_task_status_completed task_id true format u w task rp md_file
             Htask Hauth Hst Hrp Hne Hdir Hmain).
  destruct (load_content_hit task_id rp format
              (listing (path_of rp) (lit ".md") (fs w))
              (List.filter is_json_result
                 (listing (path_of rp) (lit ".json") (fs w)))
              md_file w c Hfmt Hmain Hc) as (d & -> & Hcontent & Hcache & Hfile).
  eexists _, d. split; [reflexivity|]. auto.
Qed.

(** C4: for a completed task with a Markdown result and a request with
    [upload_images=true] for the Markdown: if the cache file
    [result_minio.md] next to the main Markdown file exists, the response
    carries its content with [from_cache=true] and nothing is changed (no
    image is uploaded again); and if there was no cache file and the
    request has written one, the same request again returns the same
    content, now from the cache. *)
Theorem get_task_status_minio_cache task_id format (u : User.t) (w : World)
    (task : Task.t) rp md_file :
  tasks w !! task_id = Some task ->
  User.has_permission u TASK_VIEW_ALL = true \/
  Task.user_id task = Some (User.user_id u) ->
  Task.status task = completed ->
  Task.result_path task = Some rp -> rp <> [] ->
  (exists n, lookup_path (fs w) (path_of rp) = Some n /\ n <> Broken) ->
  main_md_file (listing (path_of rp) (lit ".md") (fs w)) = Some md_file ->
  fmt_in format ["markdown"; "both"]%string = true ->
  (forall c,
     lookup_path (fs w) (cache_of md_file) = Some (File (Some c)) ->
     exists r d,
       get_task_status env task_id true format u w = (Ok r, w) /\
       Response.data r = Some (Some d) /\
       Data.content d = Some c /\ Data.from_cache d = Some true /\
       Data.markdown_file d = Some (lit "result_minio.md")) /\
  (forall r1 w1,
     lookup_path (fs w) (cache_of md_file) = None ->
     get_task_status env task_id true format u w = (Ok r1, w1) ->
     is_Some (lookup_path (fs w1) (cache_of md_file)) ->
     exists d1 r2 d2 c,
       Response.data r1 = Some (Some d1) /\
       Data.from_cache d1 = Some false /\ Data.content d1 = Some c /\
       get_task_status env task_id true format u w1 = (Ok r2, w1) /\
       Response.data r2 = Some (Some d2) /\
       Data.from_cache d2 = Some true /\ Data.content d2 = Some c).
Proof.
  intros Htask Hauth Hst Hrp Hne Hdir Hmain Hfmt. split.
  - intros c Hc. eapply cache_hit; eauto.
  - intros r1 w1 Hnone Hfirst Hwritten.
    rewrite (get_task_status_completed task_id true format u w task rp md_file
               Htask Hauth Hst Hrp Hne Hdir Hmain) in Hfirst.
    destruct (load_content_miss task_id rp format
                (listing (path_of rp) (lit ".md") (fs w))
                (List.filter is_json_result
                   (listing (path_of rp) (lit ".json") (fs w)))
                md_file w Hfmt Hmain Hnone) as (o & w' & Hload & Htasks & Hfs).
    rewrite Hload in Hfirst. injection Hfirst as <- <-.
    destruct Hfs as [Hfs|(c & d1 & -> & Hcontent & Hcache & Hfs)].
    { rewrite Hfs, Hnone in Hwritten. destruct Hwritten as [x Hx].
      discriminate. }
    assert (lookup_path (fs w') (cache_of md_file) = Some (File (Some c)))
      as Hc.
    { rewrite Hfs, lookup_store. destruct (decide _); [reflexivity|].
      contradiction. }
    destruct (cache_hit task_id format u w' task rp md_file c) as
      (r2 & d2 & Hsecond & Hdata2 & Hcontent2 & Hcache2 & _); auto.
    + rewrite Htasks. exact Htask.
    + destruct Hdir as (n & Hn & Hok). rewrite Hfs, lookup_store.
      destruct (decide _); [eexists; split; [reflexivity|discriminate]|].
      eauto.
    + rewrite Hfs.
      destruct (listing_after_cache (path_of rp) (lit ".md") (fs w)
                  (cache_of md_file) c Hnone) as [-> | ->];
        apply (main_md_file_after_cache _ _ _ (cache_name md_file) Hmain).
    + exists d1, r2, d2, c. repeat split; auto.
Qed.

End Cache.

Lemma get_task_status_minio_cache_witness :
  exists r1 w1 d1 r2 d2 c,
    ApiServer.get_task_status env0 (lit "T") true (lit "markdown") alice world0
    = (Ok r1, w1) /\
    ApiServer.Response.data r1 = Some (Some d1) /\
    ApiServer.Data.from_cache d1 = Some false /\
    ApiServer.Data.content d1 = Some c /\
    ApiServer.get_task_status env0 (lit "T") true (lit "markdown") alice w1
    = (Ok r2, w1) /\
    ApiServer.Response.data r2 = Some (Some d2) /\
    ApiServer.Data.from_cache d2 = Some true /\
    ApiServer.Data.content d2 = Some c.
Proof.
  destruct (get_task_status_minio_cache env0 (lit "T") (lit "markdown") alice
              world0 task_T (lit "/app/output/T")
              (path_of (lit "/app/output/T/result.md"))) as [_ H].
  - vm_compute. reflexivity.
  - right. reflexivity.
  - reflexivity.
  - reflexivity.
  - discriminate.
  - exists ApiServer.Dir. split; [vm_compute; reflexivity | discriminate].
  - vm_compute. reflexivity.
  - vm_compute. reflexivity.
  - destruct (ApiServer.get_task_status env0 (lit "T") true (lit "markdown")
                alice world0) as [[r1|e] w1] eqn:H1;
      [|vm_compute in H1; discriminate].
    assert (w1 = snd (ApiServer.get_task_status env0 (lit "T") true
                        (lit "markdown") alice world0)) as Hw1.
    { rewrite H1. reflexivity. }
    destruct (H r1 w1) as (d1 & r2 & d2 & c & Hd1 & Hf1 & Hc1 & H2 & Hd2 & Hf2 & Hc2).
    + vm_compute. reflexivity.
    + reflexivity.
    + rewrite Hw1. vm_compute. eexists. reflexivity.
    + exists r1, w1, d1, r2, d2, c. repeat split; assumption.
Defined.

Example second_upload_request_reads_cache :
  let '(r1, w1) := ApiServer.get_task_status env0 (lit "T") true
                     (lit "markdown") alice world0 in
  let '(r2, w2) := ApiServer.get_task_status env0 (lit "T") true
                     (lit "markdown") alice w1 in
  let content (r : outcome ApiServer.Response.t) :=
    match r with
    | Ok r =>
        match ApiServer.Response.data r with
        | Some (Some d) =>
            Some (ApiServer.Data.content d, ApiServer.Data.from_cache d)
        | _ => None
        end
    | Raise _ => None
    end in
  exists c,
    content r1 = Some (Some c, Some false) /\
    content r2 = Some (Some c, Some true) /\
    ApiServer.uuids w1 = 2%nat /\ w2 = w1.
Proof. vm_compute. eexists. repeat split. Qed.

(** ** Part III: further properties of the modelled code *)

(** *** pdf_utils.split_pdf_file: the pages of the chunks *)

Section SplitPdfPages.

Import PdfUtils.

Context {Page : Type}.
Variables (pdf_path output_dir : Path) (doc : list Page).

Local Abbreviation P := (Z.of_nat (length doc)).

(** The pages copied for the loop variable [k * C]: at most [C] pages from
    page [k * C] on. *)
Lemma insert_pdf_window (C : Z) (k : nat) :
  1 <= C ->
  insert_pdf Page doc (Z.of_nat k * C)
    (Z.min (Z.of_nat k * C + C) P - 1)
  = take (Z.to_nat C) (drop (k * Z.to_nat C) doc).
Proof.
  intros HC. unfold insert_pdf.
  replace (Z.to_nat (Z.of_nat k * C)) with (k * Z.to_nat C)%nat by nia.
  destruct (Z.le_gt_cases (Z.of_nat k * C + C) P) as [Hfull|Hlast].
  - f_equal. lia.
  - rewrite (take_ge _ (Z.to_nat C)) by (rewrite length_drop; nia).
    apply take_ge. rewrite length_drop. nia.
Qed.

Lemma windows_concat (c n : nat) :
  concat ((fun k => take c (drop (k * c) doc)) <$> seq 0 n)
  = take (n * c) doc.
Proof.
  induction n as [|n IH]; [reflexivity|].
  rewrite seq_S, fmap_app, concat_app, IH. simpl.
  rewrite app_nil_r, take_take_drop. f_equal. lia.
Qed.

Lemma Forall2_fst_snd {A B C} (R : A -> B -> Prop) (l : list C)
    (f : C -> A) (g : C -> B) :
  Forall (fun x => R (f x) (g x)) l -> Forall2 R (f <$> l) (g <$> l).
Proof. induction 1; constructor; auto. Qed.

(** X1: for [chunk_size = C >= 1] and a document of any length,
    [split_pdf_file] returns, and the sub-documents it saves hold the pages
    of the document, each page once and in order; every record names the
    path of its sub-document and its [page_count] is the number of pages
    saved there. *)
Theorem split_pdf_file_saves_every_page (C : Z) :
  1 <= C ->
  exists chunks files,
    split_pdf_file Page pdf_path output_dir doc C = Some (chunks, files) /\
    concat (saved_pages Page <$> files) = doc /\
    Forall2 (fun c f =>
               path c = path_str (saved_path Page f) /\
               page_count c = Z.of_nat (length (saved_pages Page f)))
            chunks files.
Proof.
  intros HC. unfold split_pdf_file, range.
  destruct (Z.eqb_spec C 0) as [|_]; [lia|].
  set (n := Z.to_nat (range_len 0 P C)).
  assert (forall k : nat, (k < n)%nat -> Z.of_nat k * C < P) as Hlt.
  { intros k Hk. subst n. destruct (Z.le_gt_cases 1 P) as [HP|HP].
    - rewrite (range_len_pos doc C HP HC) in Hk.
      pose proof (range_len_ceil doc C HP HC) as Hc. simpl in Hc. nia.
    - unfold range_len in Hk.
      destruct (Z.ltb_spec 0 C); [|lia].
      destruct (Z.ltb_spec 0 P); [lia|]. simpl in Hk. lia. }
  assert (P <= Z.of_nat n * C) as Hge.
  { subst n. destruct (Z.le_gt_cases 1 P) as [HP|HP].
    - rewrite (range_len_pos doc C HP HC).
      pose proof (range_len_ceil doc C HP HC) as Hc. simpl in Hc.
      pose proof (Z.div_pos (P - 1) C ltac:(lia) ltac:(lia)). nia.
    - lia. }
  eexists _, _. split; [reflexivity|]. split.
  - rewrite <- !list_fmap_compose.
    rewrite (list_fmap_ext _
               (fun k => take (Z.to_nat C) (drop (k * Z.to_nat C) doc))
               (seq 0 n)).
    + rewrite windows_concat. apply take_ge. nia.
    + intros i k Hk. simpl.
      replace (0 + Z.of_nat k * C) with (Z.of_nat k * C) by lia.
      apply insert_pdf_window, HC.
  - apply Forall2_fst_snd. apply Forall_fmap, Forall_fmap.
    apply Forall_forall. intros k Hk. apply elem_of_seq in Hk as [_ Hk].
    simpl. split; [reflexivity|].
    replace (0 + Z.of_nat k * C) with (Z.of_nat k * C) by lia.
    rewrite insert_pdf_window by exact HC.
    rewrite length_take, length_drop. specialize (Hlt k Hk). nia.
Qed.

(** X2: the edges of the loop of [split_pdf_file]: a chunk size of zero
    raises (the [ValueError] of [range]); a negative chunk size or an empty
    document gives an empty list and saves nothing. *)
Theorem split_pdf_file_edges (C : Z) :
  (C = 0 -> split_pdf_file Page pdf_path output_dir doc C = None) /\
  (C < 0 -> split_pdf_file Page pdf_path output_dir doc C = Some ([], [])) /\
  (C <> 0 -> doc = [] ->
   split_pdf_file Page pdf_path output_dir doc C = Some ([], [])).
Proof.
  unfold split_pdf_file, range, range_len. repeat split.
  - intros ->. reflexivity.
  - intros HC. destruct (Z.eqb_spec C 0); [lia|].
    destruct (Z.ltb_spec 0 C); [lia|].
    destruct (Z.ltb_spec C 0); [|lia].
    destruct (Z.ltb_spec P 0); [lia|]. reflexivity.
  - intros HC ->. destruct (Z.eqb_spec C 0); [lia|]. simpl.
    destruct (Z.ltb_spec 0 C); [reflexivity|].
    destruct (Z.ltb_spec C 0); reflexivity.
Qed.

End SplitPdfPages.

Lemma split_pdf_file_saves_every_page_witness :
  exists chunks files,
    PdfUtils.split_pdf_file nat (path_of (lit "/u/doc.pdf"))
      (path_of (lit "/o/t")) [1; 2; 3; 4; 5]%nat 2 = Some (chunks, files) /\
    concat (PdfUtils.saved_pages nat <$> files) = [1; 2; 3; 4; 5]%nat /\
    Forall2 (fun c f =>
               PdfUtils.path c = path_str (PdfUtils.saved_path nat f) /\
               PdfUtils.page_count c
               = Z.of_nat (length (PdfUtils.saved_pages nat f)))
            chunks files.
Proof.
  apply (split_pdf_file_saves_every_page (path_of (lit "/u/doc.pdf"))
           (path_of (lit "/o/t")) [1; 2; 3; 4; 5]%nat 2). lia.
Defined.

Lemma split_pdf_file_edges_witness :
  PdfUtils.split_pdf_file nat (path_of (lit "/u/doc.pdf"))
    (path_of (lit "/o/t")) [1; 2; 3]%nat (-2) = Some ([], []).
Proof.
  apply (proj1 (proj2 (split_pdf_file_edges (path_of (lit "/u/doc.pdf"))
                         (path_of (lit "/o/t")) [1; 2; 3]%nat (-2)))). lia.
Defined.

(** *** engine.PaddleOCRVLVLLMEngine: failed initialisation, get_engine *)

Section EngineRecovery.

Import Engine.

Context {Json : Type}.
Variable int_ : pystr -> option Z.

Local Abbreviation World := (Engine.World Json).
Local Abbreviation construct := (PaddleOCRVLVLLMEngine Json int_).
Local Abbreviation initial := (Engine.initial Json).
Local Abbreviation run_calls := (Engine.run_calls Json int_).
Local Abbreviation allocated := (Engine.allocated Json).
Local Abbreviation gpu_of := (Engine.gpu_of int_).

(** [__init__] on an object that is not initialised yet. *)
Lemma init_uninitialised self d b w o :
  heap Json w !! self = Some o -> _initialized Json o = false ->
  init_ Json int_ self d b w
  = match gpu_of d with
    | Some g =>
        (Ok tt,
         set_heap Json
           (<[self := {| device := Some d; vllm_api_base := Some b;
                         gpu_id := Some g; _initialized := true;
                         _pipeline := _pipeline Json o |}]> (heap Json w)) w)
    | None =>
        (Raise (Exception "ValueError"),
         set_heap Json
           (<[self := {| device := Some d; vllm_api_base := Some b;
                         gpu_id := gpu_id Json o; _initialized := false;
                         _pipeline := _pipeline Json o |}]> (heap Json w)) w)
    end.
Proof.
  intros Ho Hinit.
  unfold init_, bind, attr, update, modify, _check_gpu_availability, ret, raise,
    Engine.gpu_of.
  rewrite Ho, Hinit. simpl.
  destruct (contains d (lit "cuda:")); [destruct (int_ _) as [g|]|];
    simpl; f_equal; unfold set_heap; simpl; f_equal;
    apply map_eq; intros i; destruct (decide (i = self)) as [->|Hne];
    rewrite ?lookup_alter_eq, ?lookup_insert_eq, ?Ho;
    rewrite ?lookup_alter_ne, ?lookup_insert_ne by congruence;
    try reflexivity; simpl; rewrite ?Hinit; reflexivity.
Qed.

Lemma new_allocates w :
  allocated w ->
  exists r w1, new_ Json w = (Ok r, w1) /\ _instance Json w1 = Some r /\
    is_Some (heap Json w1 !! r) /\ _engine Json w1 = _engine Json w /\
    written Json w1 = written Json w /\
    (forall o, heap Json w1 !! r = Some o -> _initialized Json o = true ->
               w1 = w).
Proof.
  intros Hal. unfold new_. destruct (_instance Json w) as [r|] eqn:Hi.
  - exists r, w. auto 10.
  - eexists _, _. split; [reflexivity|]. simpl. rewrite lookup_insert_eq.
    repeat split; eauto. intros o [= <-]. discriminate.
Qed.

Lemma init_allocated self d b w :
  _instance Json w = Some self ->
  allocated w -> allocated (snd (init_ Json int_ self d b w)).
Proof.
  intros Hi Hal. destruct (Hal self Hi) as [o Ho].
  destruct (_initialized Json o) eqn:Hinit.
  - unfold init_, bind, attr. rewrite Ho, Hinit. exact Hal.
  - rewrite (init_uninitialised self d b w o Ho Hinit).
    destruct (gpu_of d); simpl; intros r Hr; simpl in *;
      assert (r = self) as -> by congruence;
      rewrite lookup_insert_eq; eauto.
Qed.

Lemma construct_allocated d b w :
  allocated w -> allocated (snd (construct d b w)).
Proof.
  intros Hal. unfold PaddleOCRVLVLLMEngine, bind.
  assert (exists r w1, new_ Json w = (Ok r, w1) /\ _instance Json w1 = Some r
                       /\ allocated w1) as (r & w1 & -> & Hi & Hal1).
  { unfold new_. destruct (_instance Json w) as [r|] eqn:Hi.
    - exists r, w. auto.
    - eexists _, _. split; [reflexivity|]. split; [reflexivity|].
      intros r [= <-]. simpl. rewrite lookup_insert_eq. eauto. }
  pose proof (init_allocated r d b w1 Hi Hal1) as Hal2.
  destruct (init_ Json int_ r d b w1) as [[[]|e] w2]; exact Hal2.
Qed.

Lemma get_engine_allocated w :
  allocated w -> allocated (snd (get_engine Json int_ w)).
Proof.
  intros Hal. unfold get_engine. destruct (_engine Json w); [exact Hal|].
  pose proof (construct_allocated default_device default_vllm_api_base w Hal)
    as Hal'.
  destruct (construct default_device default_vllm_api_base w)
    as [[r|e] w']; exact Hal'.
Qed.

Lemma run_calls_allocated cs w : allocated w -> allocated (run_calls cs w).
Proof.
  revert w. induction cs as [|c cs IH]; intros w Hal; [exact Hal|].
  simpl. apply IH. destruct c; simpl.
  - apply construct_allocated, Hal.
  - apply get_engine_allocated, Hal.
Qed.

(** X3: a construction that fails with the [ValueError] of [int] leaves the
    singleton allocated, holding the [device] and [vllm_api_base] of the
    failed call, but not initialised; the next construction whose device
    gives a GPU id returns that same object, now initialised with its own
    arguments. *)
Theorem construct_retries_failed_init d1 b1 (w w1 : World) d2 b2 g :
  construct d1 b1 w = (Raise (Exception "ValueError"), w1) ->
  gpu_of d2 = Some g ->
  exists r o1 w2 o2,
    _instance Json w1 = Some r /\
    heap Json w1 !! r = Some o1 /\
    _initialized Json o1 = false /\
    device Json o1 = Some d1 /\ vllm_api_base Json o1 = Some b1 /\
    construct d2 b2 w1 = (Ok r, w2) /\
    _instance Json w2 = Some r /\
    heap Json w2 !! r = Some o2 /\
    _initialized Json o2 = true /\
    device Json o2 = Some d2 /\ vllm_api_base Json o2 = Some b2 /\
    gpu_id Json o2 = Some g.
Proof.
  intros Hfail Hg. unfold PaddleOCRVLVLLMEngine, bind in Hfail.
  destruct (new_ Json w) as [[r|e] w0] eqn:Hnew.
  2: { unfold new_ in Hnew. destruct (_instance Json w); discriminate. }
  assert (_instance Json w0 = Some r) as Hi.
  { unfold new_ in Hnew. destruct (_instance Json w) eqn:Hiw;
      injection Hnew as <- <-; auto. }
  destruct (heap Json w0 !! r) as [o|] eqn:Ho.
  2: { unfold init_, bind, attr in Hfail. rewrite Ho in Hfail. discriminate. }
  destruct (_initialized Json o) eqn:Hinit.
  { unfold init_, bind, attr in Hfail. rewrite Ho, Hinit in Hfail.
    discriminate. }
  rewrite (init_uninitialised r d1 b1 w0 o Ho Hinit) in Hfail.
  destruct (gpu_of d1) as [g1|]; [discriminate|].
  injection Hfail as <-.
  eexists r, _, _, _.
  split; [exact Hi|]. split; [simpl; apply lookup_insert_eq|].
  split; [reflexivity|]. split; [reflexivity|]. split; [reflexivity|].
  split.
  - unfold PaddleOCRVLVLLMEngine, bind, new_. simpl. rewrite Hi.
    erewrite init_uninitialised;
      [|simpl; apply lookup_insert_eq|reflexivity].
    rewrite Hg. reflexivity.
  - simpl. rewrite lookup_insert_eq. auto 10.
Qed.

(** X4: in a process that has made any calls of the constructor and of
    [get_engine], failed ones included, [get_engine] returns (given that
    [int] reads the digit zero): its default device always parses.  The
    object it returns is the initialised singleton, and a further
    [get_engine] returns it again without changing anything. *)
Theorem get_engine_always_returns (cs : list call) :
  int_ (lit "0") = Some 0 ->
  exists r w' o,
    get_engine Json int_ (run_calls cs initial) = (Ok r, w') /\
    _engine Json w' = Some r /\ _instance Json w' = Some r /\
    heap Json w' !! r = Some o /\ _initialized Json o = true /\
    get_engine Json int_ w' = (Ok r, w').
Proof.
  intros Hint.
  pose proof (run_calls_allocated cs initial) as Hal.
  pose proof (engine_ok_run_calls int_ cs initial (engine_ok_initial (Json := Json)))
    as Hok.
  set (w := run_calls cs initial) in *.
  assert (allocated w) as Halw by (apply Hal; intros r Hr; discriminate).
  clear Hal. unfold get_engine at 1.
  destruct (_engine Json w) as [e|] eqn:He.
  - destruct (Hok e He) as (Hi & o & Ho & Hinit).
    exists e, w, o. unfold get_engine. rewrite He. auto 10.
  - unfold PaddleOCRVLVLLMEngine, bind.
    destruct (new_allocates w Halw)
      as (r & w1 & -> & Hi1 & [o Ho] & He1 & _ & _).
    assert (gpu_of default_device = Some 0) as Hg.
    { unfold Engine.gpu_of. simpl. exact Hint. }
    destruct (_initialized Json o) eqn:Hinit.
    + unfold init_, bind, attr. rewrite Ho, Hinit. simpl.
      eexists r, _, o. split; [reflexivity|]. simpl.
      unfold get_engine. simpl. auto 10.
    + rewrite (init_uninitialised r _ _ w1 o Ho Hinit), Hg. simpl.
      eexists r, _, _. split; [reflexivity|]. simpl.
      rewrite lookup_insert_eq. unfold get_engine. simpl. auto 10.
Qed.

End EngineRecovery.

Lemma construct_retries_failed_init_witness :
  exists r o1 w2 o2,
    let w1 := snd (Engine.PaddleOCRVLVLLMEngine unit int_ascii (lit "cuda:x")
                     None (Engine.initial unit)) in
    Engine._instance unit w1 = Some r /\
    Engine.heap unit w1 !! r = Some o1 /\
    Engine._initialized unit o1 = false /\
    Engine.device unit o1 = Some (lit "cuda:x") /\
    Engine.vllm_api_base unit o1 = Some None /\
    Engine.PaddleOCRVLVLLMEngine unit int_ascii (lit "cuda:2")
      (Some (lit "http://a/v1")) w1 = (Ok r, w2) /\
    Engine._instance unit w2 = Some r /\
    Engine.heap unit w2 !! r = Some o2 /\
    Engine._initialized unit o2 = true /\
    Engine.device unit o2 = Some (lit "cuda:2") /\
    Engine.vllm_api_base unit o2 = Some (Some (lit "http://a/v1")) /\
    Engine.gpu_id unit o2 = Some 2.
Proof.
  apply (construct_retries_failed_init (Json := unit) int_ascii (lit "cuda:x")
           None (Engine.initial unit) _ (lit "cuda:2")
           (Some (lit "http://a/v1")) 2);
    vm_compute; reflexivity.
Defined.

Lemma get_engine_always_returns_witness :
  exists r w' o,
    Engine.get_engine unit int_ascii
      (Engine.run_calls unit int_ascii
         [Engine.Construct (lit "cuda:x") None] (Engine.initial unit))
    = (Ok r, w') /\
    Engine._engine unit w' = Some r /\ Engine._instance unit w' = Some r /\
    Engine.heap unit w' !! r = Some o /\
    Engine._initialized unit o = true /\
    Engine.get_engine unit int_ascii w' = (Ok r, w').
Proof.
  apply (get_engine_always_returns (Json := unit) int_ascii
           [Engine.Construct (lit "cuda:x") None]).
  vm_compute. reflexivity.
Defined.

(** *** engine: loading the pipeline, failures of parse, result.json *)

Section EngineParseOutcome.

Import Engine.

Context {Json : Type}.

Local Abbreviation World := (Engine.World Json).
Local Abbreviation page_markdown := (Engine.page_markdown Json).
Local Abbreviation page_json := (Engine.page_json Json).

Lemma load_pipeline_written PaddleOCRVL self (w w1 : World) r :
  _load_pipeline Json PaddleOCRVL self w = (r, w1) ->
  written Json w1 = written Json w /\
  (forall e, r = Raise e -> w1 = w).
Proof.
  unfold _load_pipeline, bind, attr, lift, update, modify, ret, raise.
  destruct (heap Json w !! self) as [o|] eqn:Ho;
    [|intros [= <- <-]; auto].
  destruct (_pipeline Json o); [intros [= <- <-]; split; [auto|discriminate]|].
  cbn beta iota. rewrite Ho.
  destruct (vllm_api_base Json o) as [[url|]|].
  - destruct (PaddleOCRVL url); simpl; intros [= <- <-]; simpl; auto.
    split; [reflexivity|]. discriminate.
  - intros [= <- <-]; auto.
  - intros [= <- <-]; auto.
Qed.

(** X5: the pipeline is built once: after [_load_pipeline] has returned a
    pipeline, every later call returns that same pipeline and changes
    nothing, without calling the [PaddleOCRVL] constructor (whatever that
    constructor would do now). *)
Theorem load_pipeline_is_cached PaddleOCRVL self (w w1 : World) p :
  _load_pipeline Json PaddleOCRVL self w = (Ok p, w1) ->
  forall PaddleOCRVL',
    _load_pipeline Json PaddleOCRVL' self w1 = (Ok p, w1).
Proof.
  unfold _load_pipeline, bind, attr, lift, update, modify, ret, raise.
  destruct (heap Json w !! self) as [o|] eqn:Ho; [|discriminate].
  destruct (_pipeline Json o) as [p0|] eqn:Hp.
  { intros [= <- <-] F. rewrite Ho, Hp. reflexivity. }
  cbn beta iota. rewrite Ho.
  destruct (vllm_api_base Json o) as [[url|]|]; try discriminate.
  destruct (PaddleOCRVL url) as [p1|e]; [|discriminate].
  intros [= <- <-] F. simpl. rewrite lookup_alter_eq, Ho. reflexivity.
Qed.

Lemma collect_json_from (result : list (PageResult Json)) acc :
  snd (foldl (collect_page Json) acc result)
  = snd acc ++ omap page_json result.
Proof.
  revert acc. induction result as [|res result IH]; intros acc; simpl.
  { rewrite app_nil_r. reflexivity. }
  rewrite IH. unfold collect_page, Engine.page_json.
  destruct (page_saved Json res); [|reflexivity].
  destruct (json Json res); simpl; [|reflexivity].
  rewrite <- app_assoc. reflexivity.
Qed.

Lemma collect_pages (result : list (PageResult Json)) :
  collect Json result = (omap page_markdown result, omap page_json result).
Proof.
  unfold collect.
  rewrite (surjective_pairing (foldl _ _ _)).
  rewrite collect_markdown_from, collect_json_from. reflexivity.
Qed.

Variable PaddleOCRVL : pystr -> outcome (Pipeline Json).

Local Abbreviation parse := (Engine.parse Json PaddleOCRVL).

(** X6: with the pipeline loaded, an exception of [predict], or of the
    merge of the collected Markdown (that of [concatenate_markdown_pages],
    or the [AttributeError] of the fallback join on a page whose Markdown
    is neither a [str] nor a mapping), is the exception [parse] raises;
    [parse] has written neither [result.md] nor [result.json] then (the
    pages' own [save_to_json] and [save_to_markdown] may have run). *)
Theorem parse_failure_writes_nothing self file_path output_path kwargs
    (w w1 : World) pipeline e :
  _load_pipeline Json PaddleOCRVL self w = (Ok pipeline, w1) ->
  (predict Json pipeline (predict_params (path_of file_path) kwargs) = Raise e
   \/ exists pages,
        predict Json pipeline (predict_params (path_of file_path) kwargs)
        = Ok pages /\
        merge_markdown Json pipeline
          (omap page_markdown (restructure Json pipeline kwargs pages))
        = Raise e) ->
  parse self file_path output_path kwargs w = (Raise e, w1) /\
  written Json w1 = written Json w.
Proof.
  intros Hload Hfail.
  split; [|eapply load_pipeline_written, Hload].
  unfold Engine.parse, bind, try_finally, cleanup, lift, write, modify, ret.
  rewrite Hload.
  destruct Hfail as [Hpredict|(pages & Hpredict & Hmerge)];
    rewrite Hpredict; [reflexivity|].
  rewrite collect_pages, Hmerge. reflexivity.
Qed.

(** X7: when [predict] and the merge return, [parse] returns the (possibly
    restructured) pages as ["result"].  It writes [result.json] exactly when
    some saved page carries JSON: the file then holds the JSON of the saved
    pages in page order, and its [total_pages] is the number of all pages
    of the result, skipped ones included; otherwise ["json_file"] is
    [None] and [result.md] is the only file written. *)
Theorem parse_json_file self file_path output_path kwargs
    (w w1 : World) pipeline pages text :
  _load_pipeline Json PaddleOCRVL self w = (Ok pipeline, w1) ->
  predict Json pipeline (predict_params (path_of file_path) kwargs)
    = Ok pages ->
  merge_markdown Json pipeline
    (omap page_markdown (restructure Json pipeline kwargs pages)) = Ok text ->
  let pages' := restructure Json pipeline kwargs pages in
  let result_md := path_join (path_of output_path) (lit "result.md") in
  let result_json := path_join (path_of output_path) (lit "result.json") in
  exists res w2,
    parse self file_path output_path kwargs w = (Ok res, w2) /\
    result Json res = pages' /\
    match omap page_json pages' with
    | [] =>
        json_file Json res = None /\
        written Json w2 = (result_md, Text Json text) :: written Json w
    | json_list =>
        json_file Json res = Some (path_str result_json) /\
        written Json w2
        = (result_json, JsonDump Json json_list (Z.of_nat (length pages')))
          :: (result_md, Text Json text) :: written Json w
    end.
Proof.
  intros Hload Hpredict Hmerge pages' result_md result_json.
  destruct (load_pipeline_written _ _ _ _ _ Hload) as [Hw _].
  unfold Engine.parse, bind, try_finally, cleanup, lift, write, modify, ret.
  rewrite Hload, Hpredict, collect_pages. fold pages'.
  subst pages'. rewrite Hmerge. simpl.
  destruct (omap page_json (restructure Json pipeline kwargs pages))
    as [|j json_list]; simpl; rewrite Hw;
    eexists _, _; (split; [reflexivity|]); auto.
Qed.

End EngineParseOutcome.

Lemma load_pipeline_is_cached_witness :
  let w1 := snd (Engine._load_pipeline unit (fun _ => Ok two_pages) 0%nat
                   two_pages_world) in
  Engine._load_pipeline unit (fun _ => Raise (Exception "ImportError")) 0%nat w1
  = (Ok two_pages, w1).
Proof.
  intros w1.
  apply (load_pipeline_is_cached (Json := unit) (fun _ => Ok two_pages) 0%nat
           two_pages_world w1 two_pages).
  vm_compute. reflexivity.
Defined.

Lemma parse_failure_writes_nothing_witness :
  let w1 := snd (Engine._load_pipeline unit (fun _ => Ok no_server) 0%nat
                   two_pages_world) in
  Engine.parse unit (fun _ => Ok no_server) 0%nat (lit "/in/a.pdf")
    (lit "/out/t") ∅ two_pages_world
  = (Raise (Exception "ConnectionError"), w1) /\
  Engine.written unit w1 = Engine.written unit two_pages_world.
Proof.
  intros w1.
  apply (parse_failure_writes_nothing (Json := unit) (fun _ => Ok no_server)
           0%nat (lit "/in/a.pdf") (lit "/out/t") ∅ two_pages_world w1
           no_server (Exception "ConnectionError")).
  - vm_compute. reflexivity.
  - left. reflexivity.
Defined.

Lemma parse_json_file_witness :
  exists res w2,
    Engine.parse unit (fun _ => Ok three_pages) 0%nat (lit "/in/a.pdf")
      (lit "/out/t") ∅ two_pages_world = (Ok res, w2) /\
    Engine.result unit res = [json_page "# A"; unsaved_page; json_page "# C"] /\
    Engine.json_file unit res = Some (lit "/out/t/result.json") /\
    Engine.written unit w2
    = [(path_of (lit "/out/t/result.json"), Engine.JsonDump unit [tt; tt] 3);
       (path_of (lit "/out/t/result.md"),
        Engine.Text unit (lit "# A

---

# C"))].
Proof.
  exact (parse_json_file (Json := unit) (fun _ => Ok three_pages) 0%nat
           (lit "/in/a.pdf") (lit "/out/t") ∅ two_pages_world
           (snd (Engine._load_pipeline unit (fun _ => Ok three_pages) 0%nat
                   two_pages_world))
           three_pages [json_page "# A"; unsaved_page; json_page "# C"]
           (lit "# A

---

# C") eq_refl eq_refl eq_refl).
Defined.

(** *** api_server.cancel_task: refusals, and cancelling twice *)

Section CancelOutcome.

Import ApiServer.

Variable env : Env.

Lemma lookup_path_removed p (entries : list (Path * node)) q :
  lookup_path (List.filter (fun e => negb (bool_decide (fst e = p))) entries) q
  = if decide (q = p) then None else lookup_path entries q.
Proof.
  unfold lookup_path. induction entries as [|[p0 n0] entries IH]; simpl.
  { destruct (decide (q = p)); reflexivity. }
  destruct (decide (p0 = p)) as [->|Hne].
  - rewrite bool_decide_eq_true_2 by reflexivity. simpl. rewrite IH.
    destruct (decide (q = p)) as [->|Hq]; [reflexivity|].
    rewrite bool_decide_eq_false_2 by congruence. reflexivity.
  - rewrite bool_decide_eq_false_2 by exact Hne. simpl.
    destruct (decide (p0 = q)) as [->|Hq].
    + rewrite bool_decide_eq_true_2 by reflexivity.
      destruct (decide (q = p)); [contradiction|reflexivity].
    + rewrite bool_decide_eq_false_2 by exact Hq. exact IH.
Qed.

(** X8: a caller without [TASK_DELETE_ALL] who does not own the task (a
    task without a user id is owned by nobody) cannot cancel it, whatever
    its status: the answer is 404 when there is no such task and 403
    otherwise, and nothing is changed. *)
Theorem cancel_task_denied task_id (current_user : User.t) (w : World) :
  User.has_permission current_user TASK_DELETE_ALL = false ->
  (forall task, tasks w !! task_id = Some task ->
                Task.user_id task <> Some (User.user_id current_user)) ->
  cancel_task env task_id current_user w
  = (Raise (match tasks w !! task_id with
            | None => HTTPException 404 (lit "Task not found")
            | Some _ =>
                HTTPException 403
                  (lit "Permission denied: You can only cancel your own tasks")
            end), w).
Proof.
  intros Hperm Hother. unfold cancel_task, bind, get_task.
  destruct (tasks w !! task_id) as [task|] eqn:Htask; [|reflexivity].
  rewrite Hperm, bool_decide_eq_false_2 by (apply Hother; reflexivity).
  reflexivity.
Qed.

(** X9: cancelling a pending task whose uploaded file is absent, or is a
    regular file that may be removed, succeeds: that row becomes
    [cancelled] and no other row changes, the uploaded file is gone and no
    other path changes, the object store is untouched.  Cancelling the same
    task again is refused with 400 and changes nothing. *)
Theorem cancel_task_then_again
    task_id (current_user : User.t) (w : World) (task : Task.t) :
  tasks w !! task_id = Some task ->
  Task.status task = pending ->
  User.has_permission current_user TASK_DELETE_ALL = true \/
  Task.user_id task = Some (User.user_id current_user) ->
  lookup_path (fs w) (path_of (Task.file_path task)) = None \/
  ((exists c, lookup_path (fs w) (path_of (Task.file_path task))
              = Some (File c)) /\
   write_ok env (path_of (Task.file_path task)) = true) ->
  exists w',
    cancel_task env task_id current_user w
    = (Ok {| cancel_success := true;
             cancel_message := lit "Task cancelled successfully" |}, w') /\
    (forall id, tasks w' !! id
                = if decide (id = task_id)
                  then Some (Task.set_status cancelled task)
                  else tasks w !! id) /\
    (forall p, lookup_path (fs w') p
               = if decide (p = path_of (Task.file_path task)) then None
                 else lookup_path (fs w) p) /\
    objects w' = objects w /\
    cancel_task env task_id current_user w'
    = (Raise (HTTPException 400
                (lit "Cannot cancel task in cancelled status")), w').
Proof.
  intros Htask Hst Hauth Hfile.
  assert (negb (User.has_permission current_user TASK_DELETE_ALL)
          && negb (bool_decide
                     (Task.user_id task = Some (User.user_id current_user)))
          = false) as Hgate.
  { destruct Hauth as [-> | ->]; [reflexivity|].
    rewrite bool_decide_eq_true_2 by reflexivity. apply andb_false_r. }
  assert (forall id,
            alter (Task.set_status cancelled) task_id (tasks w) !! id
            = if decide (id = task_id)
              then Some (Task.set_status cancelled task)
              else tasks w !! id) as Hrows.
  { intros id. destruct (decide (id = task_id)) as [->|Hne].
    - rewrite lookup_alter_eq, Htask. reflexivity.
    - rewrite lookup_alter_ne by congruence. reflexivity. }
  assert (forall w' : World,
            (forall id, tasks w' !! id
                        = if decide (id = task_id)
                          then Some (Task.set_status cancelled task)
                          else tasks w !! id) ->
            cancel_task env task_id current_user w'
            = (Raise (HTTPException 400
                        (lit "Cannot cancel task in cancelled status")), w'))
    as Hagain.
  { intros w' Hw'. unfold cancel_task, bind, get_task.
    rewrite Hw'. destruct (decide (task_id = task_id)); [|contradiction].
    simpl. rewrite Hgate. reflexivity. }
  unfold cancel_task at 1, bind, get_task. rewrite Htask, Hgate, Hst.
  unfold update_task_status, modify, exists_, unlink. simpl.
  destruct Hfile as [Habsent|[[c Hc] Hwrite]].
  - rewrite Habsent. simpl. eexists. split; [reflexivity|]. simpl.
    split; [exact Hrows|]. split.
    { intros p. destruct (decide (p = path_of (Task.file_path task)))
        as [->|]; [exact Habsent|reflexivity]. }
    split; [reflexivity|]. apply Hagain. simpl. exact Hrows.
  - rewrite Hc. simpl. rewrite Hc, Hwrite. simpl.
    eexists. split; [reflexivity|]. simpl.
    split; [exact Hrows|]. split; [apply lookup_path_removed|].
    split; [reflexivity|]. apply Hagain. simpl. exact Hrows.
Qed.

End CancelOutcome.

Lemma cancel_task_denied_witness :
  ApiServer.cancel_task env0 (lit "P") bob world0
  = (Raise (HTTPException 403
              (lit "Permission denied: You can only cancel your own tasks")),
     world0).
Proof.
  apply (cancel_task_denied env0 (lit "P") bob world0).
  - reflexivity.
  - vm_compute. intros task [= <-]. discriminate.
Defined.

Lemma cancel_task_then_again_witness :
  exists w',
    ApiServer.cancel_task env0 (lit "P") alice world0
    = (Ok {| ApiServer.cancel_success := true;
             ApiServer.cancel_message := lit "Task cancelled successfully" |},
       w') /\
    ApiServer.cancel_task env0 (lit "P") alice w'
    = (Raise (HTTPException 400
                (lit "Cannot cancel task in cancelled status")), w').
Proof.
  destruct (cancel_task_then_again env0 (lit "P") alice world0 task_P)
    as (w' & H1 & _ & _ & _ & H2).
  - vm_compute. reflexivity.
  - reflexivity.
  - right. reflexivity.
  - right. split; [exists None; vm_compute; reflexivity | reflexivity].
  - exists w'. split; assumption.
Defined.

(** *** api_server.serve_output_file: what it answers *)

Section ServeOutcome.

Import ApiServer.

Variable env : Env.

Lemma join_app_prefix (sep : pystr) (a b : list pystr) :
  exists t, join sep (a ++ b) = join sep a ++ t.
Proof.
  induction a as [|x a IH]; [exists (join sep b); reflexivity|].
  destruct a as [|y a].
  - destruct b as [|z b]; [exists []; simpl; rewrite app_nil_r; reflexivity|].
    exists (sep ++ join sep (z :: b)). reflexivity.
  - destruct IH as [t Ht].
    exists t. change (join sep ((x :: y :: a) ++ b))
      with (x ++ sep ++ join sep ((y :: a) ++ b)).
    rewrite Ht. change (join sep (x :: y :: a))
      with (x ++ sep ++ join sep (y :: a)).
    rewrite <- !app_assoc. reflexivity.
Qed.

(** A path at or below an absolute directory starts, as a string, with
    the string of the directory. *)
Lemma is_relative_to_startswith (p r : Path) :
  root r <> [] -> is_relative_to p r = true ->
  startswith (path_str p) (path_str r) = true.
Proof.
  intros Habs Hrel. unfold is_relative_to in Hrel.
  apply andb_true_iff in Hrel as [Hroot Hparts].
  apply bool_decide_eq_true_1 in Hroot, Hparts.
  assert (forall q, root q <> [] ->
                    path_str q = root q ++ join [slash] (parts q)) as Hstr.
  { intros q Hq. unfold path_str. destruct (root q); [contradiction|].
    reflexivity. }
  rewrite (Hstr r Habs), (Hstr p) by congruence.
  rewrite Hroot, <- (take_drop (length (parts r)) (parts p)), Hparts.
  destruct (join_app_prefix [slash] (parts r)
              (drop (length (parts r)) (parts p))) as [t ->].
  rewrite app_assoc. apply startswith_prefix.
Qed.

(** X10: whatever the request, [serve_output_file] changes nothing, and it
    either raises an [HTTPException] with status 403, 404 or 500, or
    answers with a regular file: the resolved request path, whose string
    starts with the string of the resolved output root, with the media
    type [application/octet-stream] and the last component as file name. *)
Theorem serve_output_file_outcomes file_path (w : World) r w' :
  serve_output_file env file_path w = (r, w') ->
  w' = w /\
  match r with
  | Ok response =>
      exists p output_root c,
        resolve env (path_join (OUTPUT_DIR env) (unquote file_path)) = Ok p /\
        resolve env (OUTPUT_DIR env) = Ok output_root /\
        startswith (path_str p) (path_str output_root) = true /\
        lookup_path (fs w) p = Some (File c) /\
        response = {| path := path_str p;
                      media_type := lit "application/octet-stream";
                      filename := path_name p |}
  | Raise (HTTPException status_code _) =>
      status_code = 403 \/ status_code = 404 \/ status_code = 500
  | Raise (Exception _) => False
  end.
Proof.
  unfold serve_output_file, try_except, bind, lift, exists_, is_file, raise,
    ret.
  destruct (resolve env (path_join (OUTPUT_DIR env) (unquote file_path)))
    as [p|e] eqn:Hp; [|intros [= <- <-]; auto].
  destruct (resolve env (OUTPUT_DIR env)) as [output_root|e] eqn:Hr;
    [|intros [= <- <-]; auto].
  destruct (startswith (path_str p) (path_str output_root)) eqn:Hprefix;
    [|intros [= <- <-]; auto].
  simpl.
  destruct (lookup_path (fs w) p) as [[c| |]|] eqn:Hnode; simpl;
    try rewrite Hnode; simpl; intros [= <- <-]; auto 10.
  split; [reflexivity|]. exists p, output_root, c. auto.
Qed.

(** X11: no false refusal: when the request path resolves to a regular
    file at or below the resolved output root (component by component),
    the file is served. *)
Theorem serve_output_file_serves_below_root
    file_path (w : World) p output_root c :
  resolve env (path_join (OUTPUT_DIR env) (unquote file_path)) = Ok p ->
  resolve env (OUTPUT_DIR env) = Ok output_root ->
  root output_root <> [] ->
  is_relative_to p output_root = true ->
  lookup_path (fs w) p = Some (File c) ->
  serve_output_file env file_path w
  = (Ok {| path := path_str p;
           media_type := lit "application/octet-stream";
           filename := path_name p |}, w).
Proof.
  intros Hp Hr Habs Hrel Hnode.
  unfold serve_output_file, try_except, bind, lift, exists_, is_file, raise,
    ret.
  rewrite Hp, Hr, (is_relative_to_startswith p output_root Habs Hrel).
  simpl. rewrite Hnode. simpl. rewrite Hnode. reflexivity.
Qed.

End ServeOutcome.

Lemma serve_output_file_outcomes_witness :
  world0 = world0 /\
  exists p output_root c,
    ApiServer.resolve env0
      (path_join (ApiServer.OUTPUT_DIR env0) (unquote (lit "T/images/x.png")))
    = Ok p /\
    ApiServer.resolve env0 (ApiServer.OUTPUT_DIR env0) = Ok output_root /\
    startswith (path_str p) (path_str output_root) = true /\
    ApiServer.lookup_path (ApiServer.fs world0) p = Some (ApiServer.File c) /\
    {| ApiServer.path := lit "/app/output/T/images/x.png";
       ApiServer.media_type := lit "application/octet-stream";
       ApiServer.filename := lit "x.png" |}
    = {| ApiServer.path := path_str p;
         ApiServer.media_type := lit "application/octet-stream";
         ApiServer.filename := path_name p |}.
Proof.
  apply (serve_output_file_outcomes env0 (lit "T/images/x.png") world0
           (Ok {| ApiServer.path := lit "/app/output/T/images/x.png";
                  ApiServer.media_type := lit "application/octet-stream";
                  ApiServer.filename := lit "x.png" |}) world0).
  vm_compute. reflexivity.
Defined.

Lemma serve_output_file_serves_below_root_witness :
  ApiServer.serve_output_file env0 (lit "T/./images/../images/x.png") world0
  = (Ok {| ApiServer.path := lit "/app/output/T/images/x.png";
           ApiServer.media_type := lit "application/octet-stream";
           ApiServer.filename := lit "x.png" |}, world0).
Proof.
  apply (serve_output_file_serves_below_root env0
           (lit "T/./images/../images/x.png") world0
           (path_of (lit "/app/output/T/images/x.png"))
           (path_of (lit "/app/output")) None).
  - vm_compute. reflexivity.
  - vm_compute. reflexivity.
  - vm_compute. discriminate.
  - vm_compute. reflexivity.
  - vm_compute. reflexivity.
Defined.

(** *** The percent-encoding of the image links decodes to the path *)

Section Codec.

Import ApiServer.

Local Open Scope N_scope.

Local Ltac nlia := zify; Z.to_euclidean_division_equations; lia.

(** Decides the comparisons of the goal from the hypotheses. *)
Local Ltac tests :=
  repeat first
    [ match goal with
      | |- context [N.ltb ?a ?b] =>
          destruct (N.ltb_spec a b); try (exfalso; lia)
      end
    | match goal with
      | |- context [N.leb ?a ?b] =>
          destruct (N.leb_spec a b); try (exfalso; lia)
      end
    | match goal with
      | |- context [N.eqb ?a ?b] =>
          destruct (N.eqb_spec a b); try (exfalso; lia)
      end
    | progress cbn [andb orb negb] ].

(** The digits of a code point in base 64. *)
Lemma base64_2 c :
  c = 64 * (c / 64) + c mod 64 /\ c mod 64 < 64.
Proof. nlia. Qed.

Lemma base64_3 c :
  c = 4096 * (c / 4096) + 64 * ((c / 64) mod 64) + c mod 64 /\
  (c / 64) mod 64 < 64 /\ c mod 64 < 64.
Proof. nlia. Qed.

Lemma base64_4 c :
  c = 262144 * (c / 262144) + 4096 * ((c / 4096) mod 64)
      + 64 * ((c / 64) mod 64) + c mod 64 /\
  (c / 4096) mod 64 < 64 /\ (c / 64) mod 64 < 64 /\ c mod 64 < 64.
Proof. nlia. Qed.

Lemma utf8_encode_chr_bytes c b :
  utf8_encode_chr c = Some b -> Forall (fun x => x < 256) b.
Proof.
  unfold utf8_encode_chr.
  destruct (N.ltb_spec c 128); [intros [= <-]; repeat constructor; lia|].
  destruct (N.ltb_spec c 2048); [intros [= <-]; repeat constructor; nlia|].
  destruct (N.ltb_spec c 65536).
  { destruct ((55296 <=? c) && (c <=? 57343)); [discriminate|].
    intros [= <-]; repeat constructor; nlia. }
  destruct (N.ltb_spec c 1114112); [|discriminate].
  intros [= <-]; repeat constructor; nlia.
Qed.

Lemma utf8_encode_bytes s bs :
  utf8_encode s = Some bs -> Forall (fun x => x < 256) bs.
Proof.
  revert bs. induction s as [|c s IH]; simpl; intros bs.
  { intros [= <-]. constructor. }
  destruct (utf8_encode_chr c) as [b|] eqn:Hc; [|discriminate].
  destruct (utf8_encode s) as [bs'|]; [|discriminate].
  intros [= <-]. apply Forall_app. split; [|apply IH; reflexivity].
  eapply utf8_encode_chr_bytes, Hc.
Qed.

(** One step of the decoder on a well-formed sequence. *)
Lemma utf8_decode_1 b rest :
  b < 128 -> utf8_decode_replace (b :: rest) = b :: utf8_decode_replace rest.
Proof.
  intros Hb. cbn [utf8_decode_replace].
  rewrite (proj2 (N.ltb_lt b 128)) by exact Hb. reflexivity.
Qed.

Lemma utf8_decode_2 b c1 rest :
  194 <= b <= 223 -> is_cont c1 = true ->
  utf8_decode_replace (b :: c1 :: rest)
  = ((b - 192) * 64 + (c1 - 128)) :: utf8_decode_replace rest.
Proof.
  intros Hb H1. remember (c1 :: rest) as tl eqn:Htl.
  cbn [utf8_decode_replace].
  rewrite (proj2 (N.ltb_ge b 128)) by lia.
  rewrite (proj2 (N.leb_le 194 b)), (proj2 (N.leb_le b 223)) by lia.
  subst tl. cbn [andb]. rewrite H1. reflexivity.
Qed.

Lemma utf8_decode_3 b c1 c2 rest :
  224 <= b <= 239 -> second_ok b c1 = true -> is_cont c2 = true ->
  utf8_decode_replace (b :: c1 :: c2 :: rest)
  = ((b - 224) * 4096 + (c1 - 128) * 64 + (c2 - 128))
      :: utf8_decode_replace rest.
Proof.
  intros Hb H1 H2. remember (c1 :: c2 :: rest) as tl eqn:Htl.
  cbn [utf8_decode_replace].
  rewrite (proj2 (N.ltb_ge b 128)) by lia.
  rewrite (proj2 (N.leb_gt b 223)) by lia.
  rewrite (proj2 (N.leb_le 224 b)), (proj2 (N.leb_le b 239)) by lia.
  subst tl. rewrite andb_false_r. cbn [andb]. rewrite H1, H2. reflexivity.
Qed.

Lemma utf8_decode_4 b c1 c2 c3 rest :
  240 <= b <= 244 -> second_ok b c1 = true -> is_cont c2 = true ->
  is_cont c3 = true ->
  utf8_decode_replace (b :: c1 :: c2 :: c3 :: rest)
  = ((b - 240) * 262144 + (c1 - 128) * 4096 + (c2 - 128) * 64 + (c3 - 128))
      :: utf8_decode_replace rest.
Proof.
  intros Hb H1 H2 H3. remember (c1 :: c2 :: c3 :: rest) as tl eqn:Htl.
  cbn [utf8_decode_replace].
  rewrite (proj2 (N.ltb_ge b 128)) by lia.
  rewrite (proj2 (N.leb_gt b 223)) by lia.
  rewrite (proj2 (N.leb_gt b 239)) by lia.
  rewrite (proj2 (N.leb_le 240 b)), (proj2 (N.leb_le b 244)) by lia.
  subst tl. rewrite !andb_false_r. cbn [andb]. rewrite H1, H2, H3.
  reflexivity.
Qed.

(** Decoding reads back the bytes of one encoded character. *)
Lemma utf8_decode_encode_chr c b rest :
  utf8_encode_chr c = Some b ->
  utf8_decode_replace (b ++ rest) = c :: utf8_decode_replace rest.
Proof.
  unfold utf8_encode_chr.
  destruct (N.ltb_spec c 128).
  { intros [= <-]. apply utf8_decode_1. assumption. }
  destruct (N.ltb_spec c 2048).
  { intros [= <-]. destruct (base64_2 c) as (Hc & Hd).
    revert Hc Hd. generalize (c / 64) (c mod 64). intros a d Hc Hd.
    cbn [app]. rewrite utf8_decode_2.
    - f_equal. lia.
    - lia.
    - unfold is_cont. tests. reflexivity. }
  destruct (N.ltb_spec c 65536).
  { intros Hsome.
    assert (~ 55296 <= c <= 57343 /\
            Some [224 + c / 4096; 128 + (c / 64) mod 64; 128 + c mod 64]
            = Some b) as [Hsur Hb].
    { destruct (N.leb_spec 55296 c); cbn [andb] in Hsome;
        [destruct (N.leb_spec c 57343); [discriminate|]|];
        (split; [lia|exact Hsome]). }
    injection Hb as <-. clear Hsome.
    destruct (base64_3 c) as (Hc & Hb & Hd). revert Hc Hb Hd.
    generalize (c / 4096) ((c / 64) mod 64) (c mod 64).
    intros a b d Hc Hb Hd.
    cbn [app]. rewrite utf8_decode_3.
    - f_equal. lia.
    - lia.
    - unfold second_ok, is_cont. tests; reflexivity.
    - unfold is_cont. tests. reflexivity. }
  destruct (N.ltb_spec c 1114112); [|discriminate].
  intros [= <-]. destruct (base64_4 c) as (Hc & Hb & He & Hd).
  revert Hc Hb He Hd.
  generalize (c / 262144) ((c / 4096) mod 64) ((c / 64) mod 64) (c mod 64).
  intros a b e d Hc Hb He Hd.
  cbn [app]. rewrite utf8_decode_4.
  - f_equal. lia.
  - lia.
  - unfold second_ok, is_cont. tests; reflexivity.
  - unfold is_cont. tests. reflexivity.
  - unfold is_cont. tests. reflexivity.
Qed.

Lemma utf8_decode_encode s bs :
  utf8_encode s = Some bs -> utf8_decode_replace bs = s.
Proof.
  revert bs. induction s as [|c s IH]; simpl; intros bs.
  { intros [= <-]. reflexivity. }
  destruct (utf8_encode_chr c) as [b|] eqn:Hc; [|discriminate].
  destruct (utf8_encode s) as [bs'|]; [|discriminate].
  intros [= <-]. rewrite (utf8_decode_encode_chr c b bs' Hc).
  f_equal. apply IH. reflexivity.
Qed.

Lemma utf8_decode_ascii (s : pystr) :
  Forall (fun c => c < 128) s -> utf8_decode_replace s = s.
Proof.
  induction 1 as [|c s Hc _ IH]; [reflexivity|].
  rewrite utf8_decode_1, IH by exact Hc. reflexivity.
Qed.

Lemma hex_value_upper n : n < 16 -> hex_value (hex_upper n) = Some n.
Proof.
  intros Hn. unfold hex_value, hex_upper. tests; f_equal; lia.
Qed.

Lemma hex_value_not_percent h a : hex_value h = Some a -> h <> percent.
Proof. intros Hh ->. discriminate. Qed.

Lemma split_chr_cons c (s : pystr) : exists w ws, split_chr c s = w :: ws.
Proof.
  induction s as [|d s (w & ws & IH)]; simpl; [eauto|].
  destruct (chr_eqb d c); [eauto|]. rewrite IH. eauto.
Qed.

Lemma unquote_to_bytes_plain b (s : pystr) :
  b <> percent -> unquote_to_bytes (b :: s) = b :: unquote_to_bytes s.
Proof.
  intros Hb. unfold unquote_to_bytes. simpl.
  assert (chr_eqb b percent = false) as ->.
  { apply N.eqb_neq, Hb. }
  destruct (split_chr_cons percent s) as (w & ws & ->). reflexivity.
Qed.

Lemma unquote_to_bytes_escape h l a b (s : pystr) :
  hex_value h = Some a -> hex_value l = Some b ->
  unquote_to_bytes (percent :: h :: l :: s) = (a * 16 + b) :: unquote_to_bytes s.
Proof.
  intros Hh Hl. unfold unquote_to_bytes.
  change (split_chr percent (percent :: h :: l :: s))
    with ([] :: split_chr percent (h :: l :: s)).
  simpl split_chr.
  assert (chr_eqb h percent = false) as ->
    by (apply N.eqb_neq; eapply hex_value_not_percent, Hh).
  assert (chr_eqb l percent = false) as ->
    by (apply N.eqb_neq; eapply hex_value_not_percent, Hl).
  destruct (split_chr_cons percent s) as (w & ws & ->).
  cbn [fmap list_fmap concat app unquote_item]. rewrite Hh, Hl. reflexivity.
Qed.

Lemma safe_byte b :
  always_safe b || existsb (chr_eqb b) [slash] = true ->
  b < 128 /\ b <> percent.
Proof.
  unfold always_safe, chr_eqb, slash, percent. cbn [existsb].
  rewrite !orb_true_iff, !andb_true_iff, !N.leb_le, !N.eqb_eq. lia.
Qed.

(** Undoing the escapes gives back the bytes that were quoted. *)
Lemma unquote_to_bytes_quote (bs : list N) :
  Forall (fun b => b < 256) bs ->
  unquote_to_bytes (concat (quote_byte [slash] <$> bs)) = bs.
Proof.
  induction 1 as [|b bs Hb _ IH]; [reflexivity|].
  cbn [fmap list_fmap concat]. unfold quote_byte at 1.
  destruct (always_safe b || existsb (chr_eqb b) [slash]) eqn:Hsafe.
  - apply safe_byte in Hsafe as [_ Hne]. cbn [app].
    rewrite unquote_to_bytes_plain by exact Hne. rewrite IH. reflexivity.
  - cbn [app].
    rewrite (unquote_to_bytes_escape _ _ (b / 16) (b mod 16))
      by (apply hex_value_upper; nlia).
    rewrite IH. f_equal. nlia.
Qed.

Lemma quote_ascii (bs : list N) :
  Forall (fun b => b < 256) bs ->
  Forall (fun c => c < 128) (concat (quote_byte [slash] <$> bs)).
Proof.
  induction 1 as [|b bs Hb _ IH]; [constructor|].
  cbn [fmap list_fmap concat]. apply Forall_app. split; [|exact IH].
  unfold quote_byte.
  destruct (always_safe b || existsb (chr_eqb b) [slash]) eqn:Hsafe.
  - apply safe_byte in Hsafe as [Hlt _]. repeat constructor. exact Hlt.
  - unfold hex_upper, percent.
    assert (b / 16 < 16 /\ b mod 16 < 16) as [Hh Hl] by nlia.
    revert Hh Hl. generalize (b / 16) (b mod 16). intros h l Hh Hl.
    repeat constructor; tests; lia.
Qed.

Lemma ascii_runs_ascii (s : pystr) :
  s <> [] -> Forall (fun c => c < 128) s -> ascii_runs s = [(true, s)].
Proof.
  intros Hne Hs. induction Hs as [|c s Hc Hs IH]; [contradiction|].
  cbn [ascii_runs]. apply N.ltb_lt in Hc. rewrite Hc.
  destruct s as [|d s]; [reflexivity|].
  rewrite IH by discriminate. reflexivity.
Qed.

Lemma split_chr_absent c (s : pystr) :
  existsb (chr_eqb c) s = false -> split_chr c s = [s].
Proof.
  induction s as [|d s IH]; [reflexivity|]. simpl.
  intros H. apply orb_false_iff in H as [Hd Hs].
  unfold chr_eqb in *. rewrite N.eqb_sym, Hd, (IH Hs). reflexivity.
Qed.

(** [unquote] undoes [quote] with [safe="/"]. *)
Lemma unquote_quote (s q : pystr) :
  quote s [slash] = Some q -> unquote q = s.
Proof.
  unfold quote. destruct (utf8_encode s) as [bs|] eqn:Hbs; [|discriminate].
  intros [= <-].
  pose proof (utf8_encode_bytes s bs Hbs) as Hbytes.
  pose proof (quote_ascii bs Hbytes) as Hascii.
  pose proof (unquote_to_bytes_quote bs Hbytes) as Hback.
  pose proof (utf8_decode_encode s bs Hbs) as Hdecode.
  set (q := concat (quote_byte [slash] <$> bs)) in *.
  unfold unquote. destruct (existsb (chr_eqb percent) q) eqn:Hpercent.
  - destruct q as [|c q']; [discriminate|].
    rewrite ascii_runs_ascii by (discriminate || exact Hascii).
    cbn [fmap list_fmap concat fst snd]. rewrite app_nil_r, Hback.
    exact Hdecode.
  - rewrite <- Hdecode, <- Hback. unfold unquote_to_bytes.
    rewrite (split_chr_absent _ _ Hpercent). cbn [fmap list_fmap concat].
    rewrite app_nil_r. symmetry. apply utf8_decode_ascii, Hascii.
Qed.

Lemma quote_app (a b safe : pystr) :
  quote (a ++ b) safe
  = match quote a safe, quote b safe with
    | Some x, Some y => Some (x ++ y)
    | _, _ => None
    end.
Proof.
  unfold quote. rewrite utf8_encode_app.
  destruct (utf8_encode a) as [x|]; [|reflexivity].
  destruct (utf8_encode b) as [y|]; [|reflexivity].
  rewrite fmap_app, concat_app. reflexivity.
Qed.

Variable env : Env.

(** X12: the link that [process_image_path] builds for the static file
    service is the prefix [/api/v1/files/output/] followed by a
    percent-encoded path; decoded as [serve_output_file] decodes its
    argument, that path is the result directory relative to the output
    root, then [images], then the file name of the image (or [images] and
    the file name when the result path is not under the output root). *)
Theorem static_url_decodes (result_path image_filename url : pystr) :
  static_url env result_path image_filename = Some url ->
  exists encoded,
    url = lit "/api/v1/files/output/" ++ encoded /\
    unquote encoded
    = let output_dir_str :=
        replace_chr backslash slash (path_str (OUTPUT_DIR env)) in
      let result_path_str := replace_chr backslash slash result_path in
      if startswith result_path_str output_dir_str
      then lstrip_chr slash (drop (length output_dir_str) result_path_str)
             ++ lit "/images/" ++ image_filename
      else lit "images/" ++ image_filename.
Proof.
  unfold static_url. cbv zeta.
  destruct (startswith _ _).
  - set (rel := lstrip_chr slash _).
    destruct (quote rel [slash]) as [er|] eqn:Hrel; [|discriminate].
    destruct (quote image_filename [slash]) as [en|] eqn:Hname;
      [|discriminate].
    intros [= <-]. exists (er ++ lit "/images/" ++ en).
    split; [reflexivity|]. apply unquote_quote.
    rewrite !quote_app, Hrel, Hname. reflexivity.
  - destruct (quote image_filename [slash]) as [en|] eqn:Hname;
      [|discriminate].
    intros [= <-]. exists (lit "images/" ++ en).
    split; [reflexivity|].
    apply unquote_quote. rewrite quote_app, Hname. reflexivity.
Qed.

End Codec.

Lemma static_url_decodes_witness :
  exists encoded,
    lit "/api/v1/files/output/my%20task/images/a%20b%25.png"
    = lit "/api/v1/files/output/" ++ encoded /\
    unquote encoded = lit "my task/images/a b%.png".
Proof.
  apply (static_url_decodes env0 (lit "/app/output/my task") (lit "a b%.png")
           (lit "/api/v1/files/output/my%20task/images/a%20b%25.png")).
  vm_compute. reflexivity.
Defined.

(** *** Substitution with a callback: identity, simulation, invariants *)

Section SubstitutionMore.

Variable r : regex.

(** A callback that returns the match itself makes the substitution the
    identity. *)
Lemma re_sub_from_identity {St} (repl : Match -> M St pystr) (w : St) :
  (forall m, repl m w = (Ok (group0 m), w)) ->
  forall s skip, re_sub_from r repl skip s w = (Ok (drop skip s), w).
Proof.
  intros Hrepl s. induction s as [|c s IH]; intros skip.
  - destruct skip; simpl; [|reflexivity].
    destruct (match_at r []) as [[m rest]|] eqn:Hm; [|reflexivity].
    unfold bind. rewrite Hrepl. unfold ret.
    apply match_at_inv in Hm as [_ Hg]. rewrite Hg, take_nil. reflexivity.
  - destruct skip as [|k]; simpl; [|apply IH].
    destruct (match_at r (c :: s)) as [[m rest]|] eqn:Hm.
    + unfold bind at 1. rewrite Hrepl.
      apply match_at_inv in Hm as [_ Hg].
      destruct (length (group0 m)) as [|k] eqn:Hlen.
      * unfold bind. rewrite IH. unfold ret. simpl.
        destruct (group0 m); [reflexivity|discriminate].
      * unfold bind. rewrite IH. unfold ret. f_equal. f_equal.
        rewrite Hg in *.
        set (n := (length (c :: s) - length rest)%nat) in *.
        assert (take n (c :: s) = take (S k) (c :: s)) as ->.
        { rewrite length_take in Hlen.
          destruct (decide (n <= length (c :: s))%nat).
          - replace n with (S k) by lia. reflexivity.
          - rewrite !take_ge by lia. reflexivity. }
        simpl. f_equal. apply take_drop.
    + unfold bind. rewrite IH. reflexivity.
Qed.

Lemma bind_sim {St1 St2 A B} (c1 : M St1 A) (c2 : M St2 A)
    (k1 : A -> M St1 B) (k2 : A -> M St2 B) (R : St1 -> St2 -> Prop) w1 w2 :
  fst (c1 w1) = fst (c2 w2) /\ R (snd (c1 w1)) (snd (c2 w2)) ->
  (forall a w1' w2', R w1' w2' ->
     fst (k1 a w1') = fst (k2 a w2') /\
     R (snd (k1 a w1')) (snd (k2 a w2'))) ->
  fst (bind c1 k1 w1) = fst (bind c2 k2 w2) /\
  R (snd (bind c1 k1 w1)) (snd (bind c2 k2 w2)).
Proof.
  intros [Hf HR] Hk. unfold bind.
  destruct (c1 w1) as [[a1|e1] s1], (c2 w2) as [[a2|e2] s2];
    simpl in *; try discriminate; injection Hf as ->; [|auto].
  apply Hk, HR.
Qed.

(** Two callbacks that answer alike in related states, and keep the states
    related, make the substitutions answer alike. *)
Lemma re_sub_from_sim {St1 St2} (repl1 : Match -> M St1 pystr)
    (repl2 : Match -> M St2 pystr) (R : St1 -> St2 -> Prop) :
  (forall m w1 w2, R w1 w2 ->
     fst (repl1 m w1) = fst (repl2 m w2) /\
     R (snd (repl1 m w1)) (snd (repl2 m w2))) ->
  forall s skip w1 w2, R w1 w2 ->
    fst (re_sub_from r repl1 skip s w1) = fst (re_sub_from r repl2 skip s w2) /\
    R (snd (re_sub_from r repl1 skip s w1))
      (snd (re_sub_from r repl2 skip s w2)).
Proof.
  intros Hrepl s. induction s as [|c s IH]; intros skip w1 w2 HR.
  - destruct skip; simpl; [|auto].
    destruct (match_at r []) as [[m rest]|]; [|auto].
    apply bind_sim; [apply Hrepl, HR|]. intros out w1' w2' HR'. auto.
  - destruct skip as [|k]; simpl; [|apply IH, HR].
    destruct (match_at r (c :: s)) as [[m rest]|].
    + apply bind_sim; [apply Hrepl, HR|]. intros out w1' w2' HR'.
      destruct (length (group0 m)) as [|k];
        (apply bind_sim; [apply IH, HR'|]); intros tail v1 v2 HR''; auto.
    + apply bind_sim; [apply IH, HR|]. intros tail v1 v2 HR''. auto.
Qed.

(** A reflexive and transitive relation between the state before and
    after each call of the callback holds between the state before and
    after the substitution, whether it returns or raises. *)
Lemma re_sub_from_steps {St} (repl : Match -> M St pystr)
    (R : St -> St -> Prop) :
  (forall w, R w w) ->
  (forall a b c, R a b -> R b c -> R a c) ->
  (forall m w, R w (snd (repl m w))) ->
  forall s skip w, R w (snd (re_sub_from r repl skip s w)).
Proof.
  intros Hrefl Htrans Hrepl s.
  induction s as [|c s IH]; intros skip w.
  - destruct skip; simpl; [|apply Hrefl].
    destruct (match_at r []) as [[m rest]|]; [|apply Hrefl].
    unfold bind. pose proof (Hrepl m w) as Hm.
    destruct (repl m w) as [[out|e] w']; simpl in *; exact Hm.
  - destruct skip as [|k]; simpl; [|apply IH].
    destruct (match_at r (c :: s)) as [[m rest]|].
    + unfold bind at 1. pose proof (Hrepl m w) as Hm.
      destruct (repl m w) as [[out|e] w']; simpl in *; [|exact Hm].
      destruct (length (group0 m)) as [|k]; unfold bind;
        [pose proof (IH O w') as Ht; destruct (re_sub_from r repl O s w')
           as [[tail|e] w'']
        |pose proof (IH k w') as Ht; destruct (re_sub_from r repl k s w')
           as [[tail|e] w'']]; simpl in *; eapply Htrans; eassumption.
    + unfold bind. pose proof (IH O w) as Ht.
      destruct (re_sub_from r repl O s w) as [[tail|e] w']; simpl in *;
        exact Ht.
Qed.

End SubstitutionMore.

(** *** api_server.process_markdown_images: nothing to rewrite, no object
    store, what is uploaded *)

Section RewritingOutcome.

Import ApiServer.

Variable env : Env.
Variables (image_dir : Path) (result_path : pystr).

Local Abbreviation target image_path :=
  (path_join image_dir (path_name (path_of image_path))).

Lemma split_chr_no_sep c (s x : pystr) :
  In x (split_chr c s) -> existsb (chr_eqb c) x = false.
Proof.
  revert x. induction s as [|d s IH]; simpl; intros x.
  { intros [<-|[]]. reflexivity. }
  destruct (chr_eqb d c) eqn:Hd.
  - intros [<-|Hin]; [reflexivity|apply IH, Hin].
  - destruct (split_chr c s) as [|w ws]; simpl.
    + intros [<-|[]]. simpl. unfold chr_eqb in *.
      rewrite N.eqb_sym, Hd. reflexivity.
    + intros [<-|Hin]; [|apply IH; right; exact Hin].
      simpl. unfold chr_eqb in *. rewrite N.eqb_sym, Hd. simpl.
      apply IH. left. reflexivity.
Qed.

(** The file name of a link is one component: joining it to a directory
    never leaves the directory for an absolute path. *)
Lemma path_name_relative (image_path : pystr) :
  parse_root (path_name (path_of image_path)) = [].
Proof.
  unfold path_name, path_of, parse_parts. simpl.
  set (l := List.filter keep_part (split_chr slash image_path)).
  destruct (decide (l = [])) as [->|Hne]; [reflexivity|].
  destruct (exists_last Hne) as (l' & x & Hl).
  assert (In x (split_chr slash image_path)) as Hin.
  { assert (In x l) as Hx by (rewrite Hl; apply in_or_app; right; left;
                               reflexivity).
    apply filter_In in Hx as [Hx _]. exact Hx. }
  rewrite Hl, List.last_last.
  apply split_chr_no_sep in Hin. destruct x as [|a x]; [reflexivity|].
  cbn [existsb] in Hin. apply orb_false_iff in Hin as [Ha _].
  unfold chr_eqb in Ha. apply N.eqb_neq in Ha.
  unfold parse_root. replace (chr_eqb a slash) with false; [reflexivity|].
  symmetry. apply N.eqb_neq. congruence.
Qed.

(** X13: when no relative name joined to [image_dir] names anything (the
    directory does not exist), [process_markdown_images]
    returns the Markdown as it is and changes nothing, with or without
    [upload_images]: no link is rewritten and nothing is uploaded. *)
Theorem process_markdown_images_without_images md_content up (w : World) :
  (forall name, parse_root name = [] ->
                lookup_path (fs w) (path_join image_dir name) = None) ->
  process_markdown_images env md_content image_dir result_path up w
  = (Ok md_content, w).
Proof.
  intros Hnone.
  assert (forall image_path alt_text,
            process_image_path env image_dir result_path up image_path
              alt_text w = (Ok None, w)) as Hpath.
  { intros image_path alt_text.
    unfold process_image_path, bind, exists_.
    rewrite Hnone by apply path_name_relative. reflexivity. }
  unfold process_markdown_images, try_except, rewrite_images, bind, re_sub.
  rewrite (re_sub_from_identity md_img_pattern
             (replace_md_image env image_dir result_path up) w).
  2: { intros m. unfold replace_md_image, bind. rewrite Hpath. reflexivity. }
  rewrite (re_sub_from_identity html_img_pattern
             (replace_html_image env image_dir result_path up) w).
  2: { intros m. unfold replace_html_image, bind. rewrite Hpath.
       reflexivity. }
  reflexivity.
Qed.

Local Abbreviation unavailable :=
  (minio_client_ok env = false \/ forall n, fput_ok env n = false).

Lemma process_image_path_fallback image_path alt_text (w1 w2 : World) :
  unavailable -> same_store w1 w2 ->
  fst (process_image_path env image_dir result_path true image_path
         alt_text w1)
  = fst (process_image_path env image_dir result_path false image_path
           alt_text w2) /\
  same_store
    (snd (process_image_path env image_dir result_path true image_path
            alt_text w1))
    (snd (process_image_path env image_dir result_path false image_path
            alt_text w2)).
Proof.
  intros Hun (Hfs & Ht & Ho).
  unfold process_image_path, bind, exists_, try_except, upload_image, ret.
  rewrite Hfs.
  assert (same_store w1 w2) as HR by (repeat split; assumption).
  destruct (lookup_path (fs w2) (target image_path)) as [[c| |]|];
    simpl; auto.
  all: destruct Hun as [Hc|Hf];
    [rewrite Hc
    |destruct (minio_client_ok env); [rewrite Hf|]];
    simpl;
    destruct (static_url env result_path (path_name (path_of image_path)));
    simpl; auto; repeat split; assumption.
Qed.

Lemma replace_md_image_fallback m (w1 w2 : World) :
  unavailable -> same_store w1 w2 ->
  fst (replace_md_image env image_dir result_path true m w1)
  = fst (replace_md_image env image_dir result_path false m w2) /\
  same_store (snd (replace_md_image env image_dir result_path true m w1))
             (snd (replace_md_image env image_dir result_path false m w2)).
Proof.
  intros Hun HR. unfold replace_md_image.
  apply bind_sim; [apply process_image_path_fallback; assumption|].
  intros res v1 v2 HR'. destruct (url_of res); unfold ret; simpl; auto.
Qed.

Lemma replace_html_image_fallback m (w1 w2 : World) :
  unavailable -> same_store w1 w2 ->
  fst (replace_html_image env image_dir result_path true m w1)
  = fst (replace_html_image env image_dir result_path false m w2) /\
  same_store (snd (replace_html_image env image_dir result_path true m w1))
             (snd (replace_html_image env image_dir result_path false m w2)).
Proof.
  intros Hun HR. unfold replace_html_image.
  apply bind_sim; [apply process_image_path_fallback; assumption|].
  intros res v1 v2 HR'. destruct (url_of res); unfold ret; simpl; auto.
Qed.

(** X14: when the object store cannot be used (the client cannot be built,
    or every upload fails), [process_markdown_images] with
    [upload_images=True] returns the Markdown that it returns with
    [upload_images=False] (the links of the static file service) and
    stores no object; the files and the task rows are untouched. *)
Theorem process_markdown_images_upload_fallback md_content (w : World) :
  minio_client_ok env = false \/ (forall n, fput_ok env n = false) ->
  let with_upload :=
    process_markdown_images env md_content image_dir result_path true w in
  fst with_upload
  = fst (process_markdown_images env md_content image_dir result_path false w)
  /\ fs (snd with_upload) = fs w
  /\ tasks (snd with_upload) = tasks w
  /\ objects (snd with_upload) = objects w.
Proof.
  intros Hun with_upload.
  assert (same_store w w) as HR by (repeat split).
  assert (fst (rewrite_images env md_content image_dir result_path true w)
          = fst (rewrite_images env md_content image_dir result_path false w)
          /\ same_store
               (snd (rewrite_images env md_content image_dir result_path
                       true w))
               (snd (rewrite_images env md_content image_dir result_path
                       false w))) as [Hf Hs].
  { unfold rewrite_images, re_sub. apply bind_sim.
    - apply re_sub_from_sim; [|exact HR].
      intros m w1 w2 HR'. apply replace_md_image_fallback; assumption.
    - intros new_content w1 w2 HR'. apply re_sub_from_sim; [|exact HR'].
      intros m v1 v2 HR''. apply replace_html_image_fallback; assumption. }
  pose proof (rewrite_images_local_frame env image_dir result_path
                md_content w) as Hframe.
  subst with_upload. unfold process_markdown_images, try_except.
  destruct (rewrite_images env md_content image_dir result_path true w)
    as [[o1|e1] w1],
    (rewrite_images env md_content image_dir result_path false w)
    as [[o2|e2] w2];
    simpl in *; try discriminate; subst w2;
    destruct Hs as (H1 & H2 & H3); auto.
Qed.

Local Abbreviation uploaded := (uploaded_from env image_dir).

Lemma uploaded_refl (w : World) : uploaded w w.
Proof.
  split; [reflexivity|]. split; [reflexivity|].
  exists []. split; [reflexivity|]. split; [simpl; lia|constructor].
Qed.

Lemma uploaded_trans (a b c : World) :
  uploaded a b -> uploaded b c -> uploaded a c.
Proof.
  intros (Hfs1 & Ht1 & new1 & Ho1 & Hu1 & Hg1)
         (Hfs2 & Ht2 & new2 & Ho2 & Hu2 & Hg2).
  split; [congruence|]. split; [congruence|].
  exists (new2 ++ new1). split; [rewrite Ho2, Ho1, app_assoc; reflexivity|].
  split; [rewrite length_app; lia|].
  apply Forall_app. split; [|exact Hg1].
  rewrite Hfs1 in Hg2. exact Hg2.
Qed.

Lemma process_image_path_uploaded up image_path alt_text (w : World) :
  uploaded w
    (snd (process_image_path env image_dir result_path up image_path
            alt_text w)).
Proof.
  unfold process_image_path, bind, exists_, try_except, upload_image, ret.
  destruct (lookup_path (fs w) (target image_path)) as [n|] eqn:Hn;
    [|apply uploaded_refl].
  assert (uploaded w
            {| fs := fs w; tasks := tasks w; objects := objects w;
               uuids := S (uuids w) |}) as Hdrawn.
  { split; [reflexivity|]. split; [reflexivity|].
    exists []. split; [reflexivity|]. split; [simpl; lia|constructor]. }
  assert (uploaded w
            {| fs := fs w; tasks := tasks w;
               objects :=
                 (MINIO_bucket_name env,
                  lit "images/" ++ uuid4 env (uuids w)
                    ++ path_suffix (target image_path),
                  path_str (target image_path)) :: objects w;
               uuids := S (uuids w) |}) as Hput.
  { split; [reflexivity|]. split; [reflexivity|].
    eexists [_]. split; [reflexivity|]. split; [simpl; lia|].
    constructor; [|constructor]. simpl.
    split; [reflexivity|]. split; [reflexivity|].
    exists (path_name (path_of image_path)). split; [reflexivity|].
    rewrite Hn. discriminate. }
  destruct n as [c| |]; simpl; try apply uploaded_refl.
  all: destruct up; simpl;
    [destruct (minio_client_ok env); simpl;
       [destruct (fput_ok env (uuids w)); simpl|]|];
    destruct (static_url env result_path (path_name (path_of image_path)));
    simpl; first [exact Hput | exact Hdrawn | apply uploaded_refl].
Qed.

Lemma replace_md_image_uploaded up m (w : World) :
  uploaded w (snd (replace_md_image env image_dir result_path up m w)).
Proof.
  unfold replace_md_image, bind.
  pose proof (process_image_path_uploaded up (default [] (group m 2))
                (default [] (group m 1)) w) as H.
  destruct (process_image_path env image_dir result_path up _ _ w)
    as [[r|e] w']; simpl in *; [|exact H].
  destruct (url_of r); exact H.
Qed.

Lemma replace_html_image_uploaded up m (w : World) :
  uploaded w (snd (replace_html_image env image_dir result_path up m w)).
Proof.
  unfold replace_html_image, bind.
  match goal with |- context [process_image_path _ _ _ up ?ip ?alt w] =>
    pose proof (process_image_path_uploaded up ip alt w) as H;
    destruct (process_image_path env image_dir result_path up ip alt w)
      as [[r|e] w'] end; simpl in *; [|exact H].
  destruct (url_of r); exact H.
Qed.

(** X15: all that [process_markdown_images] ever changes is the object
    store, and only by adding: every object it puts goes into the
    configured bucket under a name that starts with [images/], and comes
    from a path of [image_dir] that exists; the files and the task rows
    are as before. *)
Theorem process_markdown_images_only_uploads md_content up (w : World) :
  uploaded_from env image_dir w
    (snd (process_markdown_images env md_content image_dir result_path up w)).
Proof.
  assert (uploaded w
            (snd (rewrite_images env md_content image_dir result_path up w)))
    as H.
  { unfold rewrite_images, bind, re_sub.
    pose proof (re_sub_from_steps md_img_pattern
                  (replace_md_image env image_dir result_path up) uploaded
                  uploaded_refl uploaded_trans
                  (replace_md_image_uploaded up) md_content O w) as H1.
    destruct (re_sub_from md_img_pattern _ O md_content w) as [[o1|e] w1];
      simpl in *; [|exact H1].
    eapply uploaded_trans; [exact H1|].
    apply (re_sub_from_steps html_img_pattern
             (replace_html_image env image_dir result_path up) uploaded
             uploaded_refl uploaded_trans (replace_html_image_uploaded up)). }
  unfold process_markdown_images, try_except.
  destruct (rewrite_images env md_content image_dir result_path up w)
    as [[out|e] w']; exact H.
Qed.

End RewritingOutcome.

Lemma process_markdown_images_without_images_witness :
  ApiServer.process_markdown_images env0 s5_markdown
    (path_of (lit "/app/output/Q/images")) (lit "/app/output/Q") true world0
  = (Ok s5_markdown, world0).
Proof.
  apply (process_markdown_images_without_images env0
           (path_of (lit "/app/output/Q/images")) (lit "/app/output/Q")
           s5_markdown true world0).
  intros name Hrel. unfold ApiServer.lookup_path.
  destruct (List.find _ _) as [e|] eqn:Hfind; [|reflexivity].
  apply find_some in Hfind as [Hin Heq]. exfalso.
  apply bool_decide_eq_true_1 in Heq.
  assert (take 4 (parts (fst e))
          = [lit "app"; lit "output"; lit "Q"; lit "images"]) as Hparts.
  { rewrite Heq. unfold path_join. rewrite Hrel. reflexivity. }
  simpl in Hin.
  repeat (destruct Hin as [<-|Hin]; [vm_compute in Hparts; discriminate|]).
  exact Hin.
Defined.

Lemma process_markdown_images_upload_fallback_witness :
  let env1 :=
    {| ApiServer.OUTPUT_DIR := ApiServer.OUTPUT_DIR env0;
       ApiServer.MINIO_endpoint := ApiServer.MINIO_endpoint env0;
       ApiServer.MINIO_bucket_name := ApiServer.MINIO_bucket_name env0;
       ApiServer.uuid4 := ApiServer.uuid4 env0;
       ApiServer.minio_client_ok := false;
       ApiServer.fput_ok := ApiServer.fput_ok env0;
       ApiServer.write_ok := ApiServer.write_ok env0;
       ApiServer.json_valid := ApiServer.json_valid env0;
       ApiServer.resolve := ApiServer.resolve env0 |} in
  fst (ApiServer.process_markdown_images env1 s5_markdown images_T
         (lit "/app/output/T") true world0)
  = fst (ApiServer.process_markdown_images env1 s5_markdown images_T
           (lit "/app/output/T") false world0).
Proof.
  intros env1.
  apply (process_markdown_images_upload_fallback env1 images_T
           (lit "/app/output/T") s5_markdown world0).
  left. reflexivity.
Defined.

(** *** api_server.get_task_status: what a query may change *)

Section StatusEffects.

Import ApiServer.

Variable env : Env.

Lemma bind_steps {St A B} (c : M St A) (k : A -> M St B)
    (R : St -> St -> Prop) (w : St) :
  (forall a b c, R a b -> R b c -> R a c) ->
  R w (snd (c w)) ->
  (forall a w', R w' (snd (k a w'))) ->
  R w (snd (bind c k w)).
Proof.
  intros Htrans Hc Hk. unfold bind.
  pose proof (Hk) as Hk'.
  destruct (c w) as [[a|e] w']; simpl in *; [|exact Hc].
  eapply Htrans; [exact Hc|apply Hk].
Qed.

Lemma try_except_steps {St A} (c : M St A) (h : exn -> M St A)
    (R : St -> St -> Prop) (w : St) :
  (forall a b c, R a b -> R b c -> R a c) ->
  R w (snd (c w)) ->
  (forall e w', R w' (snd (h e w'))) ->
  R w (snd (try_except c h w)).
Proof.
  intros Htrans Hc Hh. unfold try_except.
  destruct (c w) as [[a|e] w']; simpl in *; [exact Hc|].
  eapply Htrans; [exact Hc|apply Hh].
Qed.

Lemma exists_frame p (w : World) : snd (exists_ p w) = w.
Proof.
  unfold exists_. destruct (lookup_path (fs w) p) as [[c| |]|]; reflexivity.
Qed.

Lemma read_text_frame p (w : World) : snd (read_text p w) = w.
Proof.
  unfold read_text.
  destruct (lookup_path (fs w) p) as [[[c|]| |]|]; reflexivity.
Qed.

(** The steps of the handler, for a relation that every read satisfies. *)
Section Steps.

Variable up : bool.
Variable R : World -> World -> Prop.
Hypothesis Hrefl : forall w, R w w.
Hypothesis Htrans : forall a b c, R a b -> R b c -> R a c.
Hypothesis Hrewrite :
  forall md d rp w, R w (snd (process_markdown_images env md d rp up w)).
Hypothesis Hcache :
  up = true ->
  forall md_file c w,
    R w (snd (try_except
                (write_text env
                   (path_join (path_parent md_file) (lit "result_minio.md")) c)
                (fun _ => ret tt) w)).

Local Ltac unchanged lemma := rewrite lemma; apply Hrefl.

Lemma markdown_data_steps task_id rp md_file d (w : World) :
  R w (snd (markdown_data env task_id rp up md_file d w)).
Proof.
  unfold markdown_data.
  apply bind_steps; [exact Htrans| |intros hit w1].
  { destruct up; [unchanged exists_frame|apply Hrefl]. }
  destruct hit.
  { apply bind_steps; [exact Htrans|unchanged read_text_frame|].
    intros c w2. apply Hrefl. }
  apply bind_steps; [exact Htrans|unchanged read_text_frame|].
  intros c w2.
  apply bind_steps; [exact Htrans|unchanged exists_frame|].
  intros has_dir w3.
  apply bind_steps; [exact Htrans| |intros c' w4].
  { destruct has_dir; [|apply Hrefl].
    apply bind_steps; [exact Htrans|apply Hrewrite|].
    intros c' w4.
    apply bind_steps; [exact Htrans| |intros ? w5; apply Hrefl].
    destruct up eqn:Hup; [apply Hcache; reflexivity|apply Hrefl]. }
  apply bind_steps; [exact Htrans| |intros ? w5; apply Hrefl].
  destruct up; [apply Hrefl|].
  apply bind_steps; [exact Htrans|unchanged exists_frame|].
  intros b w5. apply Hrefl.
Qed.

Lemma load_content_steps task_id rp format md_files json_files (w : World) :
  R w (snd (load_content env task_id rp up format md_files json_files w)).
Proof.
  unfold load_content.
  apply try_except_steps; [exact Htrans| |intros e w1; apply Hrefl].
  apply bind_steps; [exact Htrans| |intros d w1].
  { destruct (fmt_in format _); [|apply Hrefl].
    destruct (main_md_file md_files); [|apply Hrefl].
    apply markdown_data_steps. }
  apply bind_steps; [exact Htrans| |intros d' w2; apply Hrefl].
  destruct (json_data_keeps env format json_files d w1) as (d' & -> & _).
  apply Hrefl.
Qed.

Lemma get_task_status_steps task_id format current_user (w : World) :
  R w (snd (get_task_status env task_id up format current_user w)).
Proof.
  unfold get_task_status.
  apply bind_steps; [exact Htrans|apply Hrefl|]. intros found w1.
  destruct found as [task|]; [|apply Hrefl].
  destruct (_ && _); [apply Hrefl|].
  destruct (Task.status task); try apply Hrefl.
  destruct (Task.result_path task) as [[|ch rp]|]; try apply Hrefl.
  apply bind_steps; [exact Htrans|unchanged exists_frame|].
  intros there w2. destruct there; [|apply Hrefl].
  apply bind_steps; [exact Htrans|apply Hrefl|]. intros md_files w3.
  apply bind_steps; [exact Htrans|apply Hrefl|]. intros all_json w4.
  destruct md_files as [|f md_files]; [apply Hrefl|].
  apply bind_steps; [exact Htrans|apply load_content_steps|].
  intros d w5. apply Hrefl.
Qed.

End Steps.

(** X16: a status query with [upload_images=False] is read-only: whatever
    it answers (the content, 403, 404, or an error of the filesystem), the
    files, the task table and the object store are exactly as before. *)
Theorem get_task_status_read_only task_id format current_user (w : World) :
  snd (get_task_status env task_id false format current_user w) = w.
Proof.
  apply (get_task_status_steps false (fun w w' => w' = w)).
  - reflexivity.
  - intros a b c -> ->. reflexivity.
  - intros md d rp w0.
    destruct (process_markdown_images_local_returns env d rp md w0)
      as [out ->].
    reflexivity.
  - discriminate.
Qed.

Lemma wrote_at_most_refl name (w : World) : wrote_at_most name w w.
Proof. split; [reflexivity|]. intros p _. reflexivity. Qed.

Lemma wrote_at_most_trans name (a b c : World) :
  wrote_at_most name a b -> wrote_at_most name b c -> wrote_at_most name a c.
Proof.
  intros [Ht1 Hf1] [Ht2 Hf2]. split; [congruence|].
  intros p Hp. rewrite Hf2, Hf1 by exact Hp. reflexivity.
Qed.

(** X17: whatever its arguments and its answer, a status query never
    changes a task row, and the only file it may create or overwrite is
    one named [result_minio.md] (the cache of the uploaded rendering):
    every path with another name names what it named before. *)
Theorem get_task_status_writes_only_cache
    task_id upload_images format current_user (w : World) :
  wrote_at_most (lit "result_minio.md") w
    (snd (get_task_status env task_id upload_images format current_user w)).
Proof.
  apply (get_task_status_steps upload_images
           (wrote_at_most (lit "result_minio.md"))).
  - apply wrote_at_most_refl.
  - apply wrote_at_most_trans.
  - intros md d rp w0.
    destruct (process_markdown_images_keeps env md d rp upload_images w0)
      as (out & w' & -> & Hfs & Htasks).
    split; [exact Htasks|]. intros p _. simpl. rewrite Hfs. reflexivity.
  - intros _ md_file c w0. unfold try_except, write_text, ret.
    destruct (utf8_encode c); [|apply wrote_at_most_refl].
    destruct (write_ok env _); [|apply wrote_at_most_refl].
    destruct (lookup_path (fs w0) _) as [[c0| |]|];
      try apply wrote_at_most_refl.
    all: split; [reflexivity|]; intros p Hp; simpl; rewrite lookup_store;
      destruct (decide (p = _)) as [->|]; [|reflexivity];
      exfalso; apply Hp, path_name_join; reflexivity.
Qed.

End StatusEffects.

(** *** pdf_utils.split_pdf_file: the files of the chunks *)

Section ChunkFiles.

Import PdfUtils.

Lemma lit_inj (s1 s2 : string) : lit s1 = lit s2 -> s1 = s2.
Proof.
  assert (forall s,
            string_of_list_ascii (List.map ascii_of_N (lit s)) = s) as Hback.
  { induction s as [|a s IH]; [reflexivity|].
    unfold lit in *. simpl. rewrite ascii_N_embedding, IH. reflexivity. }
  intros H. rewrite <- (Hback s1), <- (Hback s2), H. reflexivity.
Qed.

(** [str] of an [int] can be read back. *)
Lemma str_of_int_inj (a b : Z) : str_of_int a = str_of_int b -> a = b.
Proof.
  unfold str_of_int. intros H. apply lit_inj in H.
  assert (forall n, NilZero.int_of_string (NilZero.string_of_int (Z.to_int n))
                    = Some (Z.to_int n)) as Hread.
  { intros n. apply NilZero.isi; destruct n; simpl; try discriminate;
      intros [= Hnil]; exact (DecimalPos.Unsigned.to_uint_nonnil _ Hnil). }
  pose proof (Hread a) as Ha. rewrite H, Hread in Ha.
  injection Ha as Ha. symmetry. apply DecimalZ.to_int_inj, Ha.
Qed.

Local Abbreviation digit := (fun c : N => (48 <= c <= 57)%N).

Lemma string_of_uint_digits (d : Decimal.uint) :
  Forall digit (lit (NilEmpty.string_of_uint d)).
Proof.
  induction d; cbn [NilEmpty.string_of_uint]; [constructor|..];
    (constructor; [vm_compute; split; discriminate|exact IHd]).
Qed.

(** [str] of a natural number is made of decimal digits. *)
Lemma str_of_int_digits (n : Z) : 0 <= n -> Forall digit (str_of_int n).
Proof.
  intros Hn. unfold str_of_int.
  destruct n as [|p|p]; [|clear Hn|lia].
  { repeat constructor; vm_compute; discriminate. }
  cbn [Z.to_int NilZero.string_of_int]. unfold NilZero.string_of_uint.
  pose proof (string_of_uint_digits (Pos.to_uint p)) as Hd.
  destruct (Pos.to_uint p); try exact Hd.
  repeat constructor; vm_compute; discriminate.
Qed.

Lemma digits_without (c : N) (s : pystr) :
  (c < 48 \/ 57 < c)%N -> Forall digit s -> existsb (chr_eqb c) s = false.
Proof.
  intros Hc. induction 1 as [|d s Hd _ IH]; [reflexivity|].
  simpl. rewrite IH, orb_false_r. apply N.eqb_neq. lia.
Qed.

(** Two strings split at a separator that the parts before it do not
    contain have the same part before it. *)
Lemma app_sep_inj (c : N) (a1 a2 x y : pystr) :
  existsb (chr_eqb c) a1 = false -> existsb (chr_eqb c) a2 = false ->
  a1 ++ c :: x = a2 ++ c :: y -> a1 = a2.
Proof.
  revert a2. induction a1 as [|d a1 IH]; intros [|e a2]; simpl;
    intros H1 H2 Heq; try reflexivity.
  - injection Heq as <- _. apply orb_false_iff in H2 as [H2 _].
    unfold chr_eqb in H2. rewrite N.eqb_refl in H2. discriminate.
  - injection Heq as -> _. apply orb_false_iff in H1 as [H1 _].
    unfold chr_eqb in H1. rewrite N.eqb_refl in H1. discriminate.
  - injection Heq as -> Heq.
    apply orb_false_iff in H1 as [_ H1]. apply orb_false_iff in H2 as [_ H2].
    f_equal. apply IH; assumption.
Qed.

(** The name of a chunk file. *)
Local Abbreviation chunk_filename stem a b :=
  (stem ++ lit "_pages_" ++ str_of_int a ++ lit "-" ++ str_of_int b
     ++ lit ".pdf").

Lemma chunk_filename_inj (stem : pystr) (a b a' b' : Z) :
  0 <= a -> 0 <= a' ->
  chunk_filename stem a b = chunk_filename stem a' b' -> a = a'.
Proof.
  intros Ha Ha' Heq.
  apply app_inv_head, app_inv_head in Heq.
  apply str_of_int_inj.
  change (lit "-") with [45%N] in Heq. cbn [app] in Heq.
  apply (app_sep_inj 45 _ _ _ _) in Heq; [exact Heq| |];
    (apply digits_without; [lia|apply str_of_int_digits; assumption]).
Qed.

Lemma existsb_app_false {A} (f : A -> bool) (l1 l2 : list A) :
  existsb f l1 = false -> existsb f l2 = false -> existsb f (l1 ++ l2) = false.
Proof. intros H1 H2. rewrite existsb_app, H1, H2. reflexivity. Qed.

Lemma take_without (c : N) (n : nat) (s : pystr) :
  existsb (chr_eqb c) s = false -> existsb (chr_eqb c) (take n s) = false.
Proof.
  revert n. induction s as [|d s IH]; intros [|n]; simpl; try reflexivity.
  intros H. apply orb_false_iff in H as [-> H]. simpl. apply IH, H.
Qed.

(** The stem of a parsed path holds no separator. *)
Lemma path_stem_no_slash (source : pystr) :
  existsb (chr_eqb slash) (path_stem (path_of source)) = false.
Proof.
  assert (existsb (chr_eqb slash) (path_name (path_of source)) = false)
    as Hname.
  { unfold path_name, path_of, parse_parts. simpl.
    set (l := List.filter keep_part (split_chr slash source)).
    destruct (decide (l = [])) as [->|Hne]; [reflexivity|].
    destruct (exists_last Hne) as (l' & x & Hl).
    rewrite Hl, List.last_last.
    apply (split_chr_no_sep slash source).
    assert (In x l) as Hx
      by (rewrite Hl; apply in_or_app; right; left; reflexivity).
    apply filter_In in Hx as [Hx _]. exact Hx. }
  unfold path_stem. destruct (suffix_index _); [|exact Hname].
  apply take_without, Hname.
Qed.

(** Joining a file name of at least two characters without separator adds
    one component. *)
Lemma path_join_filename (d : Path) (f : pystr) :
  existsb (chr_eqb slash) f = false -> (2 <= length f)%nat ->
  path_join d f = {| root := root d; parts := parts d ++ [f] |}.
Proof.
  intros Hslash Hlen. unfold path_join.
  assert (parse_root f = []) as ->.
  { destruct f as [|a f]; [reflexivity|]. cbn [existsb] in Hslash.
    apply orb_false_iff in Hslash as [Ha _].
    unfold chr_eqb in Ha. apply N.eqb_neq in Ha.
    unfold parse_root. replace (chr_eqb a slash) with false; [reflexivity|].
    symmetry. apply N.eqb_neq. congruence. }
  unfold parse_parts. rewrite (split_chr_absent _ _ Hslash). simpl.
  assert (keep_part f = true) as ->; [|reflexivity].
  destruct f as [|a [|b f]]; simpl in Hlen; try lia. unfold keep_part.
  simpl. rewrite andb_false_r. reflexivity.
Qed.

Context {Page : Type}.

(** X18: for a source path parsed from a string and [chunk_size >= 1], no
    two sub-documents are saved under the same path: each chunk has a file
    of its own, directly in the output directory, so no chunk overwrites
    another. *)
Theorem split_pdf_file_distinct_files
    (source : pystr) (output_dir : Path) (doc : list Page) (C : Z)
    chunks files :
  1 <= C ->
  split_pdf_file Page (path_of source) output_dir doc C
  = Some (chunks, files) ->
  NoDup (saved_path Page <$> files) /\
  Forall (fun f => path_parent (saved_path Page f) = output_dir
                   /\ path_name (saved_path Page f) <> []) files.
Proof.
  intros HC. unfold split_pdf_file, range.
  destruct (Z.eqb_spec C 0) as [|_]; [lia|]. intros [= <- <-].
  set (stem := path_stem (path_of source)).
  assert (forall a b,
            path_join output_dir (chunk_filename stem a b)
            = {| root := root output_dir;
                 parts := parts output_dir ++ [chunk_filename stem a b] |})
    as Hjoin.
  { intros a b. apply path_join_filename.
    - assert (forall n, existsb (chr_eqb slash) (str_of_int n) = false)
        as Hint.
      { intros n. destruct n as [|p|p]; [reflexivity| |].
        - apply digits_without; [unfold slash; lia|].
          apply str_of_int_digits. lia.
        - change (str_of_int (Z.neg p)) with (45%N :: str_of_int (Z.pos p)).
          cbn [existsb]. apply orb_false_iff. split; [reflexivity|].
          apply digits_without; [unfold slash; lia|].
          apply str_of_int_digits. lia. }
      repeat apply existsb_app_false;
        first [apply path_stem_no_slash | apply Hint | reflexivity].
    - rewrite !length_app. simpl. lia. }
  assert (forall i,
            saved_path Page
              (snd (split_step Page (path_of source) output_dir doc C i))
            = path_join output_dir
                (chunk_filename stem (i + 1)
                   (Z.min (i + C) (Z.of_nat (length doc))))) as Hstep
    by reflexivity.
  rewrite <- !list_fmap_compose. split.
  - apply NoDup_fmap_2_strong; [|apply NoDup_seq].
    intros k1 k2 _ _ Heq. cbv [compose] in Heq.
    rewrite !Hstep, !Hjoin in Heq. injection Heq as Heq.
    apply app_inj_tail in Heq as [_ Heq].
    apply chunk_filename_inj in Heq; nia.
  - apply Forall_fmap, Forall_forall. intros k _.
    cbv [compose]. rewrite Hstep, Hjoin. unfold path_parent, path_name.
    cbn [root parts].
    rewrite List.removelast_last, List.last_last. split.
    + destruct output_dir; reflexivity.
    + intros Hnil. apply (f_equal length) in Hnil.
      rewrite !length_app in Hnil. simpl in Hnil. lia.
Qed.

End ChunkFiles.

Lemma split_pdf_file_distinct_files_witness :
  NoDup
    (PdfUtils.saved_path nat <$>
       match PdfUtils.split_pdf_file nat (path_of (lit "/u/doc.pdf"))
               (path_of (lit "/o/t")) [1; 2; 3; 4; 5]%nat 2 with
       | Some (_, files) => files
       | None => []
       end).
Proof.
  apply (split_pdf_file_distinct_files (lit "/u/doc.pdf")
           (path_of (lit "/o/t")) [1; 2; 3; 4; 5]%nat 2
           (fst (default ([], [])
                   (PdfUtils.split_pdf_file nat (path_of (lit "/u/doc.pdf"))
                      (path_of (lit "/o/t")) [1; 2; 3; 4; 5]%nat 2)))).
  - lia.
  - vm_compute. reflexivity.
Defined.

(** *** start_all.TianshuLauncher: the order of launch and of shutdown *)

Section Launcher.

Import StartAll.

Variables (cfg : Config) (host : Host).

Local Abbreviation api_list := paddleocr_vl_vllm_api_list.

Lemma launched_refl (w : StartAll.Launcher) : launched [] w w.
Proof.
  split; [rewrite app_nil_r; reflexivity|].
  exists []. split; [reflexivity|]. rewrite app_nil_r. reflexivity.
Qed.

Lemma launched_trans n1 n2 (a b c : StartAll.Launcher) :
  launched n1 a b -> launched n2 b c -> launched (n1 ++ n2) a c.
Proof.
  intros (Hp1 & c1 & Hl1 & He1) (Hp2 & c2 & Hl2 & He2).
  split; [rewrite Hp2, Hp1, app_assoc; reflexivity|].
  exists (c1 ++ c2). split; [rewrite !length_app; congruence|].
  rewrite He2, He1, fmap_app, <- app_assoc. f_equal.
  rewrite zip_with_app by (rewrite length_fmap; congruence). reflexivity.
Qed.

(** One launch: a raise changes nothing; otherwise one process was
    started with the command, and the list of APIs is as before. *)
Lemma launch_spec s cmd (w : StartAll.Launcher) r w' :
  launch host s cmd w = (r, w') ->
  (exists e, r = Raise e /\ w' = w) \/
  (exists alive pid,
     r = Ok alive /\ launched [(s, pid)] w w' /\
     api_list w' = api_list w /\
     events w' = events w ++ [Spawn pid cmd]).
Proof.
  unfold launch, bind, popen, append_process, poll_is_none, modify, request.
  destruct (popen_ok host (events w) cmd); simpl; intros [= <- <-].
  - right. eexists _, _. split; [reflexivity|]. simpl.
    split; [|split; reflexivity].
    split; [reflexivity|]. exists [cmd]. split; reflexivity.
  - left. eauto.
Qed.

Lemma start_vllm_spec (w : StartAll.Launcher) r w' :
  start_vllm cfg host w = (r, w') ->
  exists new,
    launched new w w' /\
    match r with
    | Ok true =>
        new.*1 = (if start_local_vllm cfg then [VLLMService] else []) /\
        (start_local_vllm cfg = true -> local_vllm_url cfg ∈ api_list w')
    | Ok false =>
        start_local_vllm cfg = true /\ (new = [] \/ new.*1 = [VLLMService])
    | Raise _ => start_local_vllm cfg = true /\ new = []
    end.
Proof.
  unfold start_vllm.
  destruct (start_local_vllm cfg) eqn:Hlocal.
  2: { intros [= <- <-]. exists []. split; [apply launched_refl|].
       split; [reflexivity|discriminate]. }
  destruct (vllm_model_path cfg) as [[|ch model_path]|].
  1, 3: intros [= <- <-]; exists []; split; [apply launched_refl|]; auto.
  unfold bind, popen, append_process, wait_for_vllm, modify, request, ret.
  destruct (popen_ok host (events w) _); simpl.
  2: { intros [= <- <-]. exists []. split; [apply launched_refl|]. auto. }
  assert (forall l,
            launched [(VLLMService, length (events w))] w
              {| paddleocr_vl_vllm_api_list := l;
                 processes := processes w ++ [(VLLMService, length (events w))];
                 events := events w
                           ++ [Spawn (length (events w))
                                 (VllmCmd (ch :: model_path) (vllm_port cfg))]
              |}) as Hone.
  { intros l. split; [reflexivity|]. eexists [_]. split; reflexivity. }
  destruct (vllm_ready host _); simpl.
  2: { intros [= <- <-]. eexists. split; [apply Hone|]. auto. }
  destruct (bool_decide _) eqn:Hin; intros [= <- <-];
    (eexists; split; [apply Hone|]); (split; [reflexivity|]); intros _; simpl.
  - apply bool_decide_eq_true_1 in Hin. exact Hin.
  - apply elem_of_app. right. apply list_elem_of_singleton. reflexivity.
Qed.

Lemma prefix_plan_vllm (new : list (Service * nat)) :
  start_local_vllm cfg = true -> new = [] \/ new.*1 = [VLLMService] ->
  new.*1 `prefix_of` plan cfg.
Proof.
  intros Hlocal [->| ->]; [apply prefix_nil|].
  unfold plan. rewrite Hlocal. apply prefix_cons, prefix_nil.
Qed.

(** The body of [start_services]: what was started is a prefix of the
    plan, by one [Popen] each; it is the whole plan when the body returns
    [True], and then the workers were given the final list of APIs, which
    holds the local URL when the local VLLM service was asked for. *)
Lemma start_all_spec (w : StartAll.Launcher) r w' :
  start_all cfg host w = (r, w') ->
  exists new,
    launched new w w' /\
    new.*1 `prefix_of` plan cfg /\
    (r = Ok true ->
     new.*1 = plan cfg /\
     (exists pid, Spawn pid (worker_cmd cfg w') ∈ events w') /\
     (start_local_vllm cfg = true -> local_vllm_url cfg ∈ api_list w')).
Proof.
  unfold start_all, bind.
  destruct (start_vllm cfg host w) as [[ok|e] w1] eqn:Hv;
    apply start_vllm_spec in Hv as (n0 & L0 & Hr0).
  2: { intros [= <- <-]. destruct Hr0 as [Hlocal ->]. exists [].
       split; [exact L0|]. split; [apply prefix_nil|discriminate]. }
  destruct ok; simpl.
  2: { intros [= <- <-]. destruct Hr0 as [Hlocal Hn0]. exists n0.
       split; [exact L0|].
       split; [apply prefix_plan_vllm; assumption|discriminate]. }
  destruct Hr0 as [Hn0 Hurl].
  assert (plan cfg = n0.*1 ++ [APIServer; LitServeWorkers; TaskScheduler]
                       ++ (if enable_mcp cfg then [MCPServer] else []))
    as Hplan by (unfold plan; rewrite Hn0; reflexivity).
  (* API server *)
  destruct (launch host APIServer _ w1) as [[alive|e] w2] eqn:HA;
    apply launch_spec in HA
      as [(e' & [= ->] & ->)|(a & p1 & [= ->] & L1 & Hl1 & He1)];
    try discriminate.
  2: { intros [= <- <-]. exists n0. split; [exact L0|].
       split; [|discriminate]. rewrite Hplan. apply prefix_app_r.
       reflexivity. }
  pose proof (launched_trans _ _ _ _ _ L0 L1) as L01.
  destruct a; simpl.
  2: { intros [= <- <-]. eexists. split; [exact L01|].
       split; [|discriminate]. rewrite Hplan, fmap_app.
       apply prefix_app, prefix_cons, prefix_nil. }
  (* workers *)
  unfold get. simpl.
  destruct (launch host LitServeWorkers _ w2) as [[alive|e] w3] eqn:HW;
    apply launch_spec in HW
      as [(e' & [= ->] & ->)|(a & p2 & [= ->] & L2 & Hl2 & He2)];
    try discriminate.
  2: { intros [= <- <-]. eexists. split; [exact L01|].
       split; [|discriminate]. rewrite Hplan, fmap_app.
       apply prefix_app, prefix_cons, prefix_nil. }
  pose proof (launched_trans _ _ _ _ _ L01 L2) as L02.
  destruct a; simpl.
  2: { intros [= <- <-]. eexists. split; [exact L02|].
       split; [|discriminate]. rewrite Hplan, !fmap_app, <- app_assoc.
       apply prefix_app. do 2 apply prefix_cons. apply prefix_nil. }
  (* scheduler *)
  destruct (launch host TaskScheduler _ w3) as [[alive|e] w4] eqn:HS;
    apply launch_spec in HS
      as [(e' & [= ->] & ->)|(a & p3 & [= ->] & L3 & Hl3 & He3)];
    try discriminate.
  2: { intros [= <- <-]. eexists. split; [exact L02|].
       split; [|discriminate]. rewrite Hplan, !fmap_app, <- app_assoc.
       apply prefix_app. do 2 apply prefix_cons. apply prefix_nil. }
  pose proof (launched_trans _ _ _ _ _ L02 L3) as L03.
  assert (exists pid, Spawn pid (worker_cmd cfg w4) ∈ events w4) as Hworker.
  { exists p2. rewrite He3, He2. unfold worker_cmd. rewrite Hl3, Hl2.
    apply elem_of_app. left. apply elem_of_app. right.
    apply list_elem_of_singleton. reflexivity. }
  assert (start_local_vllm cfg = true -> local_vllm_url cfg ∈ api_list w4)
    as Hurl4 by (rewrite Hl3, Hl2, Hl1; exact Hurl).
  destruct a; simpl.
  2: { intros [= <- <-]. eexists. split; [exact L03|].
       split; [|discriminate]. rewrite Hplan, !fmap_app, <- !app_assoc.
       apply prefix_app. do 3 apply prefix_cons. apply prefix_nil. }
  (* MCP *)
  destruct (enable_mcp cfg) eqn:Hmcp.
  2: { intros [= <- <-]. eexists. split; [exact L03|].
       rewrite Hplan, !fmap_app, <- !app_assoc. split; [reflexivity|].
       intros _. split; [reflexivity|]. split; assumption. }
  destruct (launch host MCPServer _ w4) as [[alive|e] w5] eqn:HM;
    apply launch_spec in HM
      as [(e' & [= ->] & ->)|(a & p4 & [= ->] & L4 & Hl4 & He4)];
    try discriminate.
  2: { intros [= <- <-]. eexists. split; [exact L03|].
       split; [|discriminate]. rewrite Hplan, !fmap_app, <- !app_assoc.
       apply prefix_app. do 3 apply prefix_cons. apply prefix_nil. }
  pose proof (launched_trans _ _ _ _ _ L03 L4) as L04.
  assert (n0.*1 ++ [APIServer; LitServeWorkers; TaskScheduler] ++ [MCPServer]
          = ((((n0 ++ [(APIServer, p1)]) ++ [(LitServeWorkers, p2)])
               ++ [(TaskScheduler, p3)]) ++ [(MCPServer, p4)]).*1) as Hall.
  { rewrite !fmap_app, <- !app_assoc. reflexivity. }
  destruct a; simpl; intros [= <- <-]; (eexists; split; [exact L04|]);
    rewrite Hplan, Hall; (split; [reflexivity|]); [|discriminate].
  intros _. split; [reflexivity|]. split.
  - destruct Hworker as [pid Hpid]. exists pid. unfold worker_cmd.
    rewrite He4, Hl4. apply elem_of_app. left. exact Hpid.
  - rewrite Hl4. exact Hurl4.
Qed.

(** X19: when [start_services] returns [True], it has started exactly the
    services of its plan, in this order: the VLLM service if asked for,
    the API server, the workers, the scheduler, the MCP server if enabled;
    each by one [Popen], and it has sent no signal.  The workers were
    started with the final list of VLLM APIs, which holds the URL of the
    local VLLM service when that one was started. *)
Theorem start_services_launch_order (w w' : StartAll.Launcher) :
  start_services cfg host w = (Returned true, w') ->
  exists new,
    launched new w w' /\
    new.*1 = plan cfg /\
    (exists pid, Spawn pid (worker_cmd cfg w') ∈ events w') /\
    (start_local_vllm cfg = true -> local_vllm_url cfg ∈ api_list w').
Proof.
  unfold start_services, stop_services.
  destruct (start_all cfg host w) as [[b|e] w1] eqn:Hbody; [|discriminate].
  intros [= -> <-].
  destruct (start_all_spec _ _ _ Hbody) as (new & HL & _ & Hall).
  exists new. split; [exact HL|]. apply Hall. reflexivity.
Qed.

(** X20: when [start_services] returns [False], the services it had
    started (the first ones of the plan, up to the one that failed) are
    still in [self.processes], and nothing but their [Popen] was
    requested: no started service is terminated or killed. *)
Theorem start_services_failure_stops_nothing (w w' : StartAll.Launcher) :
  start_services cfg host w = (Returned false, w') ->
  exists new,
    launched new w w' /\ new.*1 `prefix_of` plan cfg.
Proof.
  unfold start_services, stop_services.
  destruct (start_all cfg host w) as [[b|e] w1] eqn:Hbody; [|discriminate].
  intros [= -> <-].
  destruct (start_all_spec _ _ _ Hbody) as (new & HL & Hprefix & _).
  exists new. split; assumption.
Qed.

Lemma terminate_loop (l : list (Service * nat)) (w : StartAll.Launcher) :
  let w' := foldl (fun w (p : Service * nat) =>
                     if running host (events w) p.2
                     then request (Terminate p.2) w else w) w l in
  processes w' = processes w /\ api_list w' = api_list w /\
  exists ts, events w' = events w ++ (Terminate <$> ts) /\
             ts `sublist_of` l.*2 /\
             ((forall ev pid, running host ev pid = true) -> ts = l.*2).
Proof.
  revert w. induction l as [|[s pid] l IH]; intros w; simpl.
  { split; [reflexivity|]. split; [reflexivity|]. exists [].
    rewrite app_nil_r. auto using sublist_nil. }
  destruct (running host (events w) pid) eqn:Hrun.
  - destruct (IH (request (Terminate pid) w)) as (Hp & Ha & ts & He & Hs & Hall).
    split; [exact Hp|]. split; [exact Ha|]. exists (pid :: ts).
    split; [rewrite He; simpl; rewrite <- app_assoc; reflexivity|].
    split; [apply sublist_skip, Hs|].
    intros Hrunning. rewrite (Hall Hrunning). reflexivity.
  - destruct (IH w) as (Hp & Ha & ts & He & Hs & Hall).
    split; [exact Hp|]. split; [exact Ha|]. exists ts.
    split; [exact He|]. split; [apply sublist_cons, Hs|].
    intros Hrunning. rewrite Hrunning in Hrun. discriminate.
Qed.

Lemma wait_loop (l : list (Service * nat)) (w : StartAll.Launcher) :
  let w' := foldl (fun w (p : Service * nat) =>
                     if stops_in_time host (events w) p.2
                     then w else request (Kill p.2) w) w l in
  processes w' = processes w /\ api_list w' = api_list w /\
  exists ks, events w' = events w ++ (Kill <$> ks) /\
             ks `sublist_of` l.*2 /\
             ((forall ev pid, stops_in_time host ev pid = true) -> ks = []).
Proof.
  revert w. induction l as [|[s pid] l IH]; intros w; simpl.
  { split; [reflexivity|]. split; [reflexivity|]. exists [].
    rewrite app_nil_r. auto using sublist_nil. }
  destruct (stops_in_time host (events w) pid) eqn:Hstop.
  - destruct (IH w) as (Hp & Ha & ks & He & Hs & Hall).
    split; [exact Hp|]. split; [exact Ha|]. exists ks.
    split; [exact He|]. split; [apply sublist_cons, Hs|exact Hall].
  - destruct (IH (request (Kill pid) w)) as (Hp & Ha & ks & He & Hs & Hall).
    split; [exact Hp|]. split; [exact Ha|]. exists (pid :: ks).
    split; [rewrite He; simpl; rewrite <- app_assoc; reflexivity|].
    split; [apply sublist_skip, Hs|].
    intros Hstops. rewrite Hstops in Hstop. discriminate.
Qed.

(** X21: [stop_services] exits with status 0 after sending its signals in
    the reverse of the launch order: first [terminate] to the processes it
    finds running, latest started first, then [kill] to those that do not
    end in time, latest started first.  When every process is running,
    each gets [terminate]; when each ends in time, none is killed. *)
Theorem stop_services_reverse_order (w : StartAll.Launcher) :
  exists ts ks,
    stop_services host w
    = (Exited 0,
       {| paddleocr_vl_vllm_api_list := api_list w;
          processes := processes w;
          events := events w ++ (Terminate <$> ts) ++ (Kill <$> ks) |}) /\
    ts `sublist_of` reverse (processes w).*2 /\
    ks `sublist_of` reverse (processes w).*2 /\
    ((forall ev pid, running host ev pid = true) ->
     ts = reverse (processes w).*2) /\
    ((forall ev pid, stops_in_time host ev pid = true) -> ks = []).
Proof.
  unfold stop_services, wait_all, terminate_all.
  destruct (terminate_loop (reverse (processes w)) w)
    as (Hp1 & Ha1 & ts & He1 & Hs1 & Hall1).
  set (w1 := foldl _ w (reverse (processes w))) in *.
  destruct (wait_loop (reverse (processes w1)) w1)
    as (Hp2 & Ha2 & ks & He2 & Hs2 & Hall2).
  rewrite Hp1 in *. rewrite fmap_reverse in Hs1, Hs2, Hall1.
  exists ts, ks. split; [|auto].
  f_equal.
  set (w2 := foldl _ w1 (reverse (processes w))) in *.
  destruct w2 as [a2 p2 e2]. simpl in *.
  rewrite Hp2, Ha2, He2, Ha1, He1, <- app_assoc. reflexivity.
Qed.


End Launcher.

Lemma start_services_launch_order_witness :
  let w' := snd (StartAll.start_services full_launch good_host idle) in
  exists new,
    StartAll.launched new idle w' /\
    new.*1 = StartAll.plan full_launch /\
    (exists pid,
       StartAll.Spawn pid (StartAll.worker_cmd full_launch w')
       ∈ StartAll.events w') /\
    (StartAll.start_local_vllm full_launch = true ->
     StartAll.local_vllm_url full_launch
     ∈ StartAll.paddleocr_vl_vllm_api_list w').
Proof.
  intros w'.
  apply (start_services_launch_order full_launch good_host idle w').
  vm_compute. reflexivity.
Defined.

Lemma start_services_failure_stops_nothing_witness :
  let w' := snd (StartAll.start_services full_launch host_without_scheduler
                   idle) in
  exists new,
    StartAll.launched new idle w' /\
    new.*1 `prefix_of` StartAll.plan full_launch.
Proof.
  intros w'.
  apply (start_services_failure_stops_nothing full_launch
           host_without_scheduler idle w').
  vm_compute. reflexivity.
Defined.

Example start_services_failure_leaves_three_running :
  let w' := snd (StartAll.start_services full_launch host_without_scheduler
                   idle) in
  (StartAll.processes w').*1
  = [StartAll.VLLMService; StartAll.APIServer; StartAll.LitServeWorkers;
     StartAll.TaskScheduler] /\
  Forall (fun e => match e with StartAll.Spawn _ _ => True | _ => False end)
         (StartAll.events w').
Proof. vm_compute. split; [reflexivity|]. repeat constructor. Qed.


Example start_services_popen_failure_stops_in_reverse :
  drop 4 (StartAll.events
            (snd (StartAll.start_services full_launch host_without_mcp idle)))
  = [StartAll.Terminate 3; StartAll.Terminate 2; StartAll.Terminate 1;
     StartAll.Terminate 0; StartAll.Kill 0]%nat.
Proof. vm_compute. reflexivity. Qed.

(** *** pdf_utils.convert_pdf_to_images: one picture per page *)

Section PageImages.

Import PdfUtils.

Context {Page Float : Type}.
Variable dpi_zoom : Z -> Float.

Lemma str_of_int_no_slash (n : Z) :
  existsb (chr_eqb slash) (str_of_int n) = false.
Proof.
  destruct n as [|p|p]; [reflexivity| |].
  - apply digits_without; [unfold slash; lia|].
    apply str_of_int_digits. lia.
  - change (str_of_int (Z.neg p)) with (45%N :: str_of_int (Z.pos p)).
    cbn [existsb]. apply orb_false_iff. split; [reflexivity|].
    apply digits_without; [unfold slash; lia|].
    apply str_of_int_digits. lia.
Qed.

(** X23: for a source path parsed from a string, [convert_pdf_to_images]
    writes one picture per page, in page order, each rendered from its page
    with the zoom [dpi / 72.0] when [dpi] is a non-zero number and with the
    [zoom] argument otherwise; the pictures lie directly in the output
    directory under pairwise distinct paths, so none overwrites another. *)
Theorem convert_pdf_to_images_one_per_page
    (source : pystr) (output_dir : Path) (doc : list Page) (zoom : Float)
    (dpi : option Z) :
  let images :=
    convert_pdf_to_images Page Float dpi_zoom (path_of source) output_dir doc
      zoom dpi in
  image_page Page Float <$> images = doc /\
  NoDup (image_path Page Float <$> images) /\
  Forall (fun i =>
            path_parent (image_path Page Float i) = output_dir /\
            image_zoom Page Float i
            = match dpi with
              | Some d => if d =? 0 then zoom else dpi_zoom d
              | None => zoom
              end) images.
Proof.
  intros images. subst images. unfold convert_pdf_to_images.
  set (stem := path_stem (path_of source)).
  assert (forall k : nat,
            path_join output_dir
              (stem ++ lit "_page" ++ str_of_int (Z.of_nat k + 1) ++ lit ".png")
            = {| root := root output_dir;
                 parts := parts output_dir
                          ++ [stem ++ lit "_page"
                                ++ str_of_int (Z.of_nat k + 1) ++ lit ".png"] |})
    as Hjoin.
  { intros k. apply path_join_filename.
    - repeat apply existsb_app_false;
        first [apply path_stem_no_slash | apply str_of_int_no_slash
              | reflexivity].
    - rewrite !length_app. simpl. lia. }
  rewrite !fmap_imap. split; [|split].
  - transitivity (imap (const (fun x : Page => x)) doc).
    + apply imap_ext. reflexivity.
    + rewrite imap_const. apply list_fmap_id.
  - apply NoDup_alt. intros i j p Hi Hj.
    rewrite list_lookup_imap in Hi, Hj.
    destruct (doc !! i) as [pi|]; [|discriminate].
    destruct (doc !! j) as [pj|]; [|discriminate].
    cbv [fmap option_fmap option_map compose image_path] in Hi, Hj.
    rewrite Hjoin in Hi, Hj.
    injection Hi as <-. injection Hj as Hj.
    apply app_inj_tail in Hj as [_ Hj].
    apply (app_inv_head stem), (app_inv_head (lit "_page")),
      (app_inv_tail (lit ".png")) in Hj.
    apply str_of_int_inj in Hj. lia.
  - apply Forall_forall. intros i Hi.
    apply elem_of_lookup_imap in Hi as (k & page & -> & _).
    cbv [compose image_path image_zoom]. rewrite Hjoin.
    unfold path_parent. simpl.
    rewrite List.removelast_last. split; [|reflexivity].
    destruct output_dir; reflexivity.
Qed.

End PageImages.

(** *** api_server.get_task_status: a format without Markdown *)

Section StatusFormat.

Import ApiServer.

Variable env : Env.

Lemma load_content_without_markdown task_id rp up format md_files json_files
    (w : World) :
  fmt_in format ["markdown"; "both"]%string = false ->
  exists d,
    load_content env task_id rp up format md_files json_files w
    = (Ok (Some d), w) /\
    Data.content d = None /\ Data.markdown_file d = None /\
    Data.images_uploaded d = None /\ Data.from_cache d = None /\
    load_content env task_id rp false format md_files json_files w
    = (Ok (Some d), w).
Proof.
  intros Hfmt.
  destruct (json_data_keeps env format json_files
              (empty_data (match json_files with [] => false | _ => true end))
              w) as (d & Hj & Hc & Hf & Hm & Hi).
  assert (forall b,
            load_content env task_id rp b format md_files json_files w
            = (Ok (Some d), w)) as Hload.
  { intros b. unfold load_content, try_except, bind. rewrite Hfmt.
    unfold ret. cbn beta iota. rewrite Hj. reflexivity. }
  exists d. rewrite !Hload. auto 10.
Qed.

(** X24: for a [format] other than [markdown] and [both] (so for [json],
    and for any unknown value, which is not rejected), the query does not
    look at [upload_images]: it answers as without it, changes nothing,
    and a [data] it returns holds no Markdown content. *)
Theorem get_task_status_without_markdown
    task_id up format current_user (w : World) :
  fmt_in format ["markdown"; "both"]%string = false ->
  get_task_status env task_id up format current_user w
  = get_task_status env task_id false format current_user w /\
  snd (get_task_status env task_id up format current_user w) = w /\
  forall r w',
    get_task_status env task_id up format current_user w = (Ok r, w') ->
    forall d, Response.data r = Some (Some d) ->
      Data.content d = None /\ Data.markdown_file d = None /\
      Data.images_uploaded d = None.
Proof.
  intros Hfmt.
  unfold get_task_status, bind, get_task, raise, ret, exists_, rglob.
  destruct (tasks w !! task_id) as [task|];
    [|repeat split; intros; simplify_eq/=].
  destruct (_ && _); [repeat split; intros; simplify_eq/=|].
  destruct (Task.status task);
    try (repeat split; intros; simplify_eq/=; fail).
  destruct (Task.result_path task) as [[|ch rp]|];
    try (repeat split; intros; simplify_eq/=; fail).
  destruct (lookup_path (fs w) (path_of (ch :: rp))) as [[c| |]|];
    try (repeat split; intros; simplify_eq/=; fail);
    (destruct (listing (path_of (ch :: rp)) (lit ".md") (fs w))
       as [|f md_files];
     [repeat split; intros; simplify_eq/=|]);
    match goal with
    | |- context [load_content env task_id ?rp up format ?md ?js w] =>
        destruct (load_content_without_markdown task_id rp up format md js
                    w Hfmt) as (d0 & -> & Hc & Hm & Hi & _ & ->)
    end;
    repeat split; intros; simplify_eq/=; auto.
Qed.

End StatusFormat.

Lemma get_task_status_without_markdown_witness :
  ApiServer.get_task_status env0 (lit "T") true (lit "json") alice world0
  = ApiServer.get_task_status env0 (lit "T") false (lit "json") alice world0.
Proof.
  apply (get_task_status_without_markdown env0 (lit "T") true (lit "json")
           alice world0).
  reflexivity.
Defined.
